(** * alfredmoji: the emoji-registry parsers and the snippet-pack pipeline

    A shallow embedding of the three Go programs of the repository

    - [src/main.go]            (emoji-sequences.txt, "format B", writes a pack),
    - the emoji-test.txt tool  ("format A", subgroup aware, writes a pack),
    - the emoji-sequences.txt printer ("format B", console only),

    together with the part of the Go standard library they call.

    A Go string is modelled by the sequence of Unicode code points it
    decodes to (what [for _, r := range s] enumerates): the registry files
    are UTF-8 text, and [strings.TrimSpace], [strings.Fields] and [regexp]
    all work on code points.  On well-formed UTF-8 the byte-level functions
    ([strings.Split], [strings.ReplaceAll], [strings.Contains], ...) agree
    with their code-point reading, because UTF-8 is self-synchronising. *)

From Stdlib Require Import ZArith Lia.
From Stdlib Require Strings.Byte.
From stdpp Require Import base option list gmap.

#[local] Open Scope Z_scope.

(** ** Strings *)

Abbreviation rune := Z.
Abbreviation gostring := (list rune).

(** *** String literals

    A literal ["..."] stands for the code points of its text: the bytes
    between the quotes are decoded as UTF-8 when the literal is read, an
    ill-formed byte giving U+FFFD. *)

Definition cont (b : Z) : bool := (128 <=? b) && (b <=? 191).
Definition within (lo hi b : Z) : bool := (lo <=? b) && (b <=? hi).
Definition RuneError : rune := 65533.

Fixpoint utf8_decode (bs : list Z) : gostring :=
  match bs with
  | [] => []
  | b0 :: t0 =>
    if b0 <? 128 then b0 :: utf8_decode t0 else
    match t0 with
    | b1 :: t1 =>
      if within 194 223 b0 && cont b1
      then ((b0 - 192) * 64 + (b1 - 128)) :: utf8_decode t1 else
      match t1 with
      | b2 :: t2 =>
        if (within 225 236 b0 && cont b1 || within 238 239 b0 && cont b1
            || (b0 =? 224) && within 160 191 b1
            || (b0 =? 237) && within 128 159 b1) && cont b2
        then ((b0 - 224) * 4096 + (b1 - 128) * 64 + (b2 - 128))
               :: utf8_decode t2 else
        match t2 with
        | b3 :: t3 =>
          if (within 241 243 b0 && cont b1
              || (b0 =? 240) && within 144 191 b1
              || (b0 =? 244) && within 128 143 b1) && cont b2 && cont b3
          then ((b0 - 240) * 262144 + (b1 - 128) * 4096
                + (b2 - 128) * 64 + (b3 - 128)) :: utf8_decode t3
          else RuneError :: utf8_decode t0
        | [] => RuneError :: utf8_decode t0
        end
      | [] => RuneError :: utf8_decode t0
      end
    | [] => RuneError :: utf8_decode t0
    end
  end.

Inductive literal : Set :=
| LitNil
| LitCons (c : rune) (rest : literal).

Fixpoint literal_of (rs : gostring) : literal :=
  match rs with
  | [] => LitNil
  | c :: rs' => LitCons c (literal_of rs')
  end.

Definition read_literal (bs : list Byte.byte) : literal :=
  literal_of (utf8_decode ((fun b => Z.of_N (Byte.to_N b)) <$> bs)).

(** Printing: a non-empty list of printable code points is shown as a
    literal again. *)
Definition utf8_encode (r : rune) : list Z :=
  if r <? 128 then [r]
  else if r <? 2048 then [192 + r / 64; 128 + r mod 64]
  else if r <? 65536
       then [224 + r / 4096; 128 + (r / 64) mod 64; 128 + r mod 64]
       else [240 + r / 262144; 128 + (r / 4096) mod 64;
             128 + (r / 64) mod 64; 128 + r mod 64].

Definition printable (r : rune) : bool :=
  (within 32 55295 r || within 57344 1114111 r)
  && negb (r =? 34) && negb (r =? 127).

Fixpoint runes_of (l : literal) : gostring :=
  match l with
  | LitNil => []
  | LitCons c rest => c :: runes_of rest
  end.

Fixpoint bytes_of (bs : list Z) : option (list Byte.byte) :=
  match bs with
  | [] => Some []
  | b :: bs' =>
    match Byte.of_N (Z.to_N b), bytes_of bs' with
    | Some x, Some xs => Some (x :: xs)
    | _, _ => None
    end
  end.

Definition show_literal (l : literal) : option (list Byte.byte) :=
  match runes_of l with
  | [] => None
  | rs => if forallb printable rs
          then bytes_of (flat_map utf8_encode rs)
          else None
  end.

Declare Scope go_scope.
Delimit Scope go_scope with go.
#[warnings="-via-type-mismatch"]
String Notation list read_literal show_literal
  (via literal mapping [[nil] => LitNil, [cons] => LitCons]) : go_scope.
Open Scope go_scope.

(** *** unicode.IsSpace: the White_Space property *)

Definition IsSpace (r : rune) : bool :=
  within 9 13 r || (r =? 32) || (r =? 133) || (r =? 160) || (r =? 5760)
  || within 8192 8202 r || (r =? 8232) || (r =? 8233) || (r =? 8239)
  || (r =? 8287) || (r =? 12288).

Definition rune_eqb (a b : rune) : bool := a =? b.

Definition newline : gostring := [10].

(** ** package strings *)

Module strings.

(** [strings.HasPrefix(s, prefix)] *)
Fixpoint HasPrefix (s prefix : gostring) {struct prefix} : bool :=
  match prefix, s with
  | [], _ => true
  | p :: prefix', c :: s' => rune_eqb c p && HasPrefix s' prefix'
  | _ :: _, [] => false
  end.

(** [strings.TrimPrefix(s, prefix)] *)
Definition TrimPrefix (s prefix : gostring) : gostring :=
  if HasPrefix s prefix then drop (length prefix) s else s.

(** [strings.Index(s, substr)]: the first position where [substr]
    starts, [None] standing for Go's -1. *)
Fixpoint Index (s substr : gostring) : option nat :=
  if HasPrefix s substr then Some 0%nat
  else match s with
       | [] => None
       | _ :: s' => S <$> Index s' substr
       end.

(** [strings.Contains(s, substr)] is [Index(s, substr) >= 0]. *)
Definition Contains (s substr : gostring) : bool :=
  match Index s substr with Some _ => true | None => false end.

(** [genSplit(s, sep, 0, n)] for a non-empty [sep]: the loop that cuts
    at [Index(s, sep)] at most [cuts] times ([cuts] is Go's [n - 1]) and
    ends with the rest. *)
Fixpoint genSplit (cuts : nat) (s sep : gostring) : list gostring :=
  match cuts with
  | O => [s]
  | S cuts' =>
    match Index s sep with
    | None => [s]
    | Some m => take m s :: genSplit cuts' (drop (m + length sep) s) sep
    end
  end.

(** [strings.Split(s, sep)].  Go bounds the number of pieces by
    [len(s) + 1]; the loop stops earlier, at the first failing [Index].
    For the empty separator Go explodes the string into its runes. *)
Definition Split (s sep : gostring) : list gostring :=
  match sep with
  | [] => (fun c => [c]) <$> s
  | _ :: _ => genSplit (length s) s sep
  end.

(** [strings.SplitN(s, sep, 2)] for a non-empty [sep]. *)
Definition SplitN2 (s sep : gostring) : list gostring := genSplit 1 s sep.

(** [strings.ReplaceAll(s, old, new)]: the non-overlapping occurrences
    of [old], found from the left, are replaced by [new].  [skip] counts
    the runes of an occurrence that are still to be passed over. *)
Fixpoint replaceFrom (skip : nat) (s old new : gostring) : gostring :=
  match s with
  | [] => []
  | c :: s' =>
    match skip with
    | S k => replaceFrom k s' old new
    | O => if HasPrefix s old
           then new ++ replaceFrom (length old - 1) s' old new
           else c :: replaceFrom O s' old new
    end
  end.

Definition ReplaceAll (s old new : gostring) : gostring :=
  match old with
  | [] => new ++ flat_map (fun c => c :: new) s
  | _ :: _ => replaceFrom O s old new
  end.

(** [strings.TrimSpace(s)] *)
Fixpoint TrimLeftSpace (s : gostring) : gostring :=
  match s with
  | c :: s' => if IsSpace c then TrimLeftSpace s' else s
  | [] => []
  end.

Definition TrimSpace (s : gostring) : gostring :=
  rev (TrimLeftSpace (rev (TrimLeftSpace s))).

(** [strings.Fields(s)]: the maximal runs of non-space runes.  [cur] is
    the field being read, most recent rune first. *)
Fixpoint fieldsFrom (cur : gostring) (s : gostring) : list gostring :=
  match s with
  | [] => match cur with [] => [] | _ :: _ => [rev cur] end
  | c :: s' =>
    if IsSpace c
    then match cur with
         | [] => fieldsFrom [] s'
         | _ :: _ => rev cur :: fieldsFrom [] s'
         end
    else fieldsFrom (c :: cur) s'
  end.

Definition Fields (s : gostring) : list gostring := fieldsFrom [] s.

(** [strings.ToUpper(s)] on the ASCII letters; the program applies it to
    the text of a UUID only, which is ASCII. *)
Definition ToUpper (s : gostring) : gostring :=
  (fun c => if within 97 122 c then c - 32 else c) <$> s.

End strings.

(** ** Results of Go code that can panic *)

Inductive outcome (A : Type) : Type :=
| Return (a : A)
| Panic.
Arguments Return {A} a.
Arguments Panic {A}.

#[export] Instance outcome_ret : MRet outcome := fun A a => Return a.
#[export] Instance outcome_bind : MBind outcome := fun A B f m =>
  match m with
  | Return a => f a
  | Panic => Panic
  end.

(** [l[i]]: an index out of range is a run-time panic. *)
Definition index {A} (l : list A) (i : nat) : outcome A :=
  match l !! i with
  | Some x => Return x
  | None => Panic
  end.

(** ** package strconv *)

Module strconv.

(** The value of one digit as [ParseUint] reads it: [0-9], and letters
    of either case through [lower(c) = c | 0x20]. *)
Definition digitVal (c : rune) : option Z :=
  if within 48 57 c then Some (c - 48)
  else if (c <? 128) && within 97 122 (Z.lor c 32)
       then Some (Z.lor c 32 - 97 + 10)
       else None.

(** The digit loop of [strconv.ParseUint(s, base, bitSize)] for an
    explicit base (2..36): [None] is any error, syntax or range. *)
Fixpoint parseDigits (base bitSize : Z) (n : Z) (s : gostring)
  : option Z :=
  match s with
  | [] => Some n
  | c :: s' =>
    match digitVal c with
    | None => None
    | Some d =>
      if base <=? d then None
      else let n1 := n * base + d in
           if 2 ^ bitSize - 1 <? n1 then None
           else parseDigits base bitSize n1 s'
    end
  end.

Definition ParseUint (s : gostring) (base bitSize : Z) : option Z :=
  match s with
  | [] => None
  | _ :: _ => parseDigits base bitSize 0 s
  end.

(** [strconv.ParseInt(s, base, bitSize)]: an optional sign, then
    [ParseUint], then the signed range check. *)
Definition ParseInt (s : gostring) (base bitSize : Z) : option Z :=
  match s with
  | [] => None
  | c :: s' =>
    let neg := c =? 45 in
    let digits := if (c =? 43) || (c =? 45) then s' else s in
    match ParseUint digits base bitSize with
    | None => None
    | Some un =>
      let cutoff := 2 ^ (bitSize - 1) in
      if negb neg && (cutoff <=? un) then None
      else if neg && (cutoff <? un) then None
      else Some (if neg then - un else un)
    end
  end.

End strconv.

(** [string(runes)]: a value that is not a Unicode scalar value is
    converted to U+FFFD. *)
Definition validRune (r : rune) : bool :=
  within 0 55295 r || within 57344 1114111 r.

Definition string_of_runes (rs : list rune) : gostring :=
  (fun r => if validRune r then r else RuneError) <$> rs.

(** ** package regexp

    The one expression of the program, [^\s+(.+) E\d+\.\d+ (.+)], is a
    sequence, anchored at the start of the text, of literal runes and of
    greedy repetitions [c+] of a character class, two of which are
    capturing groups.  The matcher below is the backtracking search whose
    first success is the leftmost-first match [regexp] reports. *)

Module regexp.

Inductive atom : Type :=
  | Lit (c : rune)
  | OneOrMore (class : rune -> bool).

Inductive node : Type :=
  | Plain (a : atom)
  | Group (a : atom).

Definition atomOf (n : node) : atom :=
  match n with Plain a => a | Group a => a end.

Definition save (n : node) (text : gostring) (caps : list gostring)
  : list gostring :=
  match n with Plain _ => caps | Group _ => text :: caps end.

(** [\s], [\d] and [.] (no flag [s]: every rune but the line feed). *)
Definition space (r : rune) : bool :=
  (r =? 9) || (r =? 10) || (r =? 12) || (r =? 13) || (r =? 32).
Definition digit (r : rune) : bool := within 48 57 r.
Definition dot (r : rune) : bool := negb (r =? 10).

(** The greedy repetition [c+] followed by the rest [k] of the
    expression: one rune of the class, then first the attempt to take
    more, and only when that fails the rest on what has been taken.
    [seen] is the text taken so far, most recent rune first. *)
Fixpoint oneOrMore (class : rune -> bool)
       (k : gostring -> gostring -> option (list gostring))
       (s seen : gostring) {struct s} : option (list gostring) :=
  match s with
  | c :: s' =>
    if class c
    then match oneOrMore class k s' (c :: seen) with
         | Some r => Some r
         | None => k (rev (c :: seen)) s'
         end
    else None
  | [] => None
  end.

(** [matchHere re s caps]: match the nodes of [re] at the front of [s];
    the submatches come out most recent first. *)
Fixpoint matchHere (re : list node) (s : gostring) (caps : list gostring)
  : option (list gostring) :=
  match re with
  | [] => Some caps
  | n :: re' =>
    match atomOf n with
    | Lit c =>
      match s with
      | c' :: s' =>
        if rune_eqb c' c then matchHere re' s' (save n [c'] caps) else None
      | [] => None
      end
    | OneOrMore class =>
      oneOrMore class
        (fun text rest => matchHere re' rest (save n text caps)) s []
    end
  end.

(** [re.FindStringSubmatch(s)] for an expression that starts with [^]:
    the groups in order, without the whole match that Go puts first. *)
Definition FindStringSubmatch (re : list node) (s : gostring)
  : option (list gostring) :=
  match matchHere re s [] with
  | Some caps => Some (rev caps)
  | None => None
  end.

End regexp.

(** ** The emoji-sequences.txt programs ("format B")

    [parseEmojiLine] and [convertCodePointToEmoji] are the same, line for
    line, in [src/main.go] and in the console-only printer. *)

Module Sequences.

Record EmojiData : Type := mkEmojiData {
    CodePoint : gostring;
    Description : gostring
  }.

(** The loop [for i, codePoint := range codePointsSplit] with its guard
    [i < len(descriptionsSplit)]. *)
Fixpoint pairLoop (i : nat) (codePointsSplit descriptionsSplit : list gostring)
         (emojis : list EmojiData) : list EmojiData :=
  match codePointsSplit with
  | [] => emojis
  | codePoint :: rest =>
    pairLoop (S i) rest descriptionsSplit
      (match descriptionsSplit !! i with
       | Some d => emojis ++ [mkEmojiData codePoint d]
       | None => emojis
       end)
  end.

Definition parseEmojiLine (line : gostring) : outcome (list EmojiData) :=
  let parts := strings.Split line ";" in
  if Nat.ltb (length parts) 3 then Return []
  else
    p0 ← index parts 0;
    let codePoints := strings.TrimSpace p0 in
    p2 ← index parts 2;
    descriptionPart ← index (strings.Split p2 "#") 0;
    let description := strings.TrimSpace descriptionPart in
    let codePointsSplit := strings.Split codePoints ".." in
    let descriptionsSplit := strings.Split description ".." in
    Return (pairLoop 0 codePointsSplit descriptionsSplit []).

(** The loop of [convertCodePointToEmoji]: a token that does not parse
    is skipped by [continue]. *)
Fixpoint runeLoop (codePoints : list gostring) (emojiRunes : list rune)
  : list rune :=
  match codePoints with
  | [] => emojiRunes
  | cp :: rest =>
    match strconv.ParseInt cp 16 32 with
    | None => runeLoop rest emojiRunes
    | Some runeValue => runeLoop rest (emojiRunes ++ [runeValue])
    end
  end.

Definition convertCodePointToEmoji (codePointStr : gostring) : gostring :=
  let codePoints := strings.Fields codePointStr in
  string_of_runes (runeLoop codePoints []).

End Sequences.

(** ** package path/filepath (Unix separators) *)

Module filepath.

Definition slash : rune := 47.

(** [filepath.Split(path)]: the directory, up to and including the last
    separator, and the file name after it. *)
Fixpoint Split (path : gostring) : gostring * gostring :=
  match path with
  | [] => ([], [])
  | c :: rest =>
    let '(dir, file) := Split rest in
    if strings.Contains rest [slash] then (c :: dir, file)
    else if rune_eqb c slash then ([c], rest)
    else ([], c :: rest)
  end.

(** The element stack of [filepath.Clean]: [.] and empty elements are
    dropped, [..] removes the element before it, is kept at the front of
    a relative path and dropped at the root.  [out] is most recent
    first. *)
Fixpoint cleanLoop (rooted : bool) (elems : list gostring)
         (out : list gostring) : list gostring :=
  match elems with
  | [] => rev out
  | e :: elems' =>
    if bool_decide (e = []) || bool_decide (e = ".")
    then cleanLoop rooted elems' out
    else if bool_decide (e = "..")
    then match out with
         | top :: out' =>
           if bool_decide (top = "..")
           then cleanLoop rooted elems' (e :: out)
           else cleanLoop rooted elems' out'
         | [] =>
           if rooted then cleanLoop rooted elems' out
           else cleanLoop rooted elems' (e :: out)
         end
    else cleanLoop rooted elems' (e :: out)
  end.

Fixpoint joinWith (sep : gostring) (elems : list gostring) : gostring :=
  match elems with
  | [] => []
  | [e] => e
  | e :: elems' => e ++ sep ++ joinWith sep elems'
  end.

Definition Clean (path : gostring) : gostring :=
  let rooted := strings.HasPrefix path [slash] in
  let body := joinWith [slash]
                (cleanLoop rooted (strings.Split path [slash]) []) in
  if rooted then slash :: body
  else match body with [] => "." | _ :: _ => body end.

(** [filepath.Join(elem...)]: empty elements are ignored, the rest is
    joined by the separator and cleaned; all empty gives the empty
    string. *)
Definition Join (elem : list gostring) : gostring :=
  match filter (fun e => e <> []) elem with
  | [] => []
  | es => Clean (joinWith [slash] es)
  end.

End filepath.

(** ** The machine the programs run on

    The state holds the files, the console and the UUIDs already drawn.
    A path holds a regular file, with its bytes, or a zip container, with
    the entries written to it so far; the two share the one name space of
    the file system, so that creating, writing or removing at a path acts
    on whatever is there.  A path names a file as the string the program
    uses; the programs address files by cleaned relative paths.
    [denied] says which paths cannot be written (with the error text),
    [uuidSource] is the stream of random UUIDs and [zipBytes] gives the
    bytes a reader finds in a finished container with given entries (the
    encoding of archive/zip and compress/flate is not part of the model;
    nor is what a reader would find in a container that is still being
    written, which no run of the programs reads: the archive is none of
    the files that go into it).  No operation changes these three.  [calls] lists the mutating system
    calls in the order they were made, successful or not.  Directories are
    not modelled: [os.Mkdir] only leaves its call. *)

Inductive call : Type :=
| CallMkdir (path : gostring)
| CallWriteFile (path data : gostring)
| CallCreate (path : gostring)
| CallRemove (path : gostring)
| CallRemoveAll (path : gostring).

Definition error := option gostring.

Inductive result (A : Type) : Type :=
| Ok (a : A)
| Err (msg : gostring).
Arguments Ok {A} a.
Arguments Err {A} msg.

Inductive content : Type :=
| Regular (data : gostring)
| Container (entries : list (gostring * gostring)).

Record World : Type := mkWorld {
  files : gmap gostring content;
  stdout : list gostring;
  calls : list call;
  drawn : nat;
  uuidSource : nat -> gostring;
  denied : gostring -> error;
  zipBytes : list (gostring * gostring) -> gostring
}.

(** The bytes of a file, the bytes a reader finds at a path, and the
    entries of the container at a path. *)
Definition bytesOf (w : World) (file : content) : gostring :=
  match file with
  | Regular data => data
  | Container entries => zipBytes w entries
  end.

Definition bytesAt (w : World) (path : gostring) : option gostring :=
  bytesOf w <$> files w !! path.

Definition entriesAt (w : World) (path : gostring)
  : list (gostring * gostring) :=
  match files w !! path with
  | Some (Container entries) => entries
  | _ => []
  end.

Definition IO (A : Type) : Type := World -> outcome A * World.

#[export] Instance IO_ret : MRet IO := fun A a w => (Return a, w).
#[export] Instance IO_bind : MBind IO := fun A B f m w =>
  match m w with
  | (Return a, w1) => f a w1
  | (Panic, w1) => (Panic, w1)
  end.

Definition lift {A} (o : outcome A) : IO A := fun w => (o, w).

Definition called (c : call) : IO unit := fun w =>
  (Return tt, mkWorld (files w) (stdout w) (calls w ++ [c])
                      (drawn w) (uuidSource w) (denied w) (zipBytes w)).

(** What is at [path] is replaced by [file]. *)
Definition store (path : gostring) (file : content) : IO unit := fun w =>
  (Return tt, mkWorld (<[path := file]> (files w)) (stdout w)
                      (calls w) (drawn w) (uuidSource w) (denied w)
                      (zipBytes w)).

Module fmt.

(** [fmt.Printf] and [fmt.Println] with the text already formatted. *)
Definition Printf (text : gostring) : IO unit := fun w =>
  (Return tt, mkWorld (files w) (stdout w ++ [text]) (calls w)
                      (drawn w) (uuidSource w) (denied w) (zipBytes w)).

Definition Println (text : gostring) : IO unit := Printf (text ++ newline).

End fmt.

Module os.

(** [os.Mkdir(path, 0755)]; the programs ignore its error. *)
Definition Mkdir (path : gostring) : IO unit := called (CallMkdir path).

(** [os.WriteFile(path, data, 0644)]: the file is created or truncated
    and holds [data]. *)
Definition WriteFile (path data : gostring) : IO error := fun w =>
  (called (CallWriteFile path data);;
   match denied w path with
   | Some e => mret (Some e)
   | None => store path (Regular data);; mret None
   end) w.

(** [os.RemoveAll(path)]: the file [path] and every file below it, of
    either kind. *)
Definition RemoveAll (path : gostring) : IO unit := fun w =>
  (Return tt,
   mkWorld (filter (fun kv => kv.1 <> path
                      /\ strings.HasPrefix kv.1 (path ++ [filepath.slash])
                         = false) (files w))
           (stdout w) (calls w ++ [CallRemoveAll path])
           (drawn w) (uuidSource w) (denied w) (zipBytes w)).

(** [os.Remove(path)]: the one file of that name, no wildcard. *)
Definition Remove (path : gostring) : IO unit := fun w =>
  (Return tt,
   mkWorld (delete path (files w)) (stdout w)
           (calls w ++ [CallRemove path])
           (drawn w) (uuidSource w) (denied w) (zipBytes w)).

(** [os.Create(path)] as [zipFiles] uses it: the file is created or
    truncated, and the zip writer opened on it makes it a container
    without entries. *)
Definition Create (path : gostring) : IO error := fun w =>
  (called (CallCreate path);;
   match denied w path with
   | Some e => mret (Some e)
   | None => store path (Container []);; mret None
   end) w.

(** [os.Open(path)] followed by reading the whole file, as [io.Copy] and
    the line scanner do. *)
Definition ReadAll (path : gostring) : IO (result gostring) := fun w =>
  (Return match bytesAt w path with
          | Some data => Ok data
          | None => Err ("open " ++ path
                         ++ ": no such file or directory")
          end, w).

End os.

Module zip.

(** [zipWriter.Create(name)] (or [CreateHeader]) and [io.Copy] into the
    entry: one more entry at the end of the container the writer was
    opened on.  The writer is named by the path of its file. *)
Definition WriteEntry (zipWriter name data : gostring) : IO unit := fun w =>
  store zipWriter (Container (entriesAt w zipWriter ++ [(name, data)])) w.

End zip.

(** [strings.ToUpper(uuid.New().String())] *)
Definition generateUID : IO gostring := fun w =>
  (Return (strings.ToUpper (uuidSource w (drawn w))),
   mkWorld (files w) (stdout w) (calls w)
           (S (drawn w)) (uuidSource w) (denied w) (zipBytes w)).

(** The snippet file of Alfred. *)
Record AlfredSnippet : Type := mkAlfredSnippet {
  Snippet : gostring;
  UID : gostring;
  Name : gostring;
  Keyword : gostring
}.

(** The fixed text of info.plist; [suffix] is the one string in which the
    two packing programs differ. *)
Definition quoted (s : gostring) : gostring := [34] ++ s ++ [34].

Definition plistContent (suffix : gostring) : gostring :=
  "<?xml version=" ++ quoted "1.0" ++ " encoding="
  ++ quoted "UTF-8" ++ "?>" ++ newline
  ++ "<!DOCTYPE plist PUBLIC " ++ quoted "-//Apple//DTD PLIST 1.0//EN"
  ++ " " ++ quoted "http://www.apple.com/DTDs/PropertyList-1.0.dtd"
  ++ ">" ++ newline
  ++ "<plist version=" ++ quoted "1.0" ++ ">" ++ newline
  ++ "<dict>" ++ newline
  ++ "    <key>snippetkeywordprefix</key>" ++ newline
  ++ "    <string>:</string>" ++ newline
  ++ "    <key>snippetkeywordsuffix</key>" ++ newline
  ++ "    <string>" ++ suffix ++ "</string>" ++ newline
  ++ "</dict>" ++ newline
  ++ "</plist>".

(** ** The emoji-test.txt program ("format A") *)

Module EmojiTest.

Record EmojiData : Type := mkEmojiData {
    Emoji : gostring;
    Description : gostring;
    Subgroup : gostring
  }.

(** [regexp.MustCompile(`^\s+(.+) E\d+\.\d+ (.+)`)] *)
Definition re : list regexp.node :=
  [ regexp.Plain (regexp.OneOrMore regexp.space);
    regexp.Group (regexp.OneOrMore regexp.dot);
    regexp.Plain (regexp.Lit 32);
    regexp.Plain (regexp.Lit 69);
    regexp.Plain (regexp.OneOrMore regexp.digit);
    regexp.Plain (regexp.Lit 46);
    regexp.Plain (regexp.OneOrMore regexp.digit);
    regexp.Plain (regexp.Lit 32);
    regexp.Group (regexp.OneOrMore regexp.dot) ].

(** The clean-up of the description, in the order of the source.  The
    last four literals are copied from the file as it stands. *)
Definition junkFree (text : gostring) : gostring :=
  let description :=
    strings.TrimSpace (strings.ReplaceAll text " " "-") in
  let description := strings.ReplaceAll description "," [] in
  let description := strings.ReplaceAll description ":" [] in
  let description := strings.ReplaceAll description "‚Äô" [] in
  let description := strings.ReplaceAll description "‚Äò" [] in
  let description := strings.ReplaceAll description "‚Äú" [] in
  let description := strings.ReplaceAll description "‚Äù" [] in
  description.

Definition extractDescriptionAndEmoji (input : gostring)
  : gostring * gostring :=
  match regexp.FindStringSubmatch re input with
  | Some [m1; m2] => (strings.TrimSpace m1, junkFree m2)
  | _ => ([], [])
  end.

Definition header : gostring := "# subgroup:".

(** The test that sends a line away without a record. *)
Definition skipped (line : gostring) : bool :=
  negb (strings.Contains line ";")
  || negb (strings.Contains line "#")
  || strings.HasPrefix line "#"
  || strings.Contains line "minimally-qualified"
  || strings.Contains line "unqualified"
  || strings.Contains line "component".

(** [parseEmojiLine(line, currentSubgroup)] for a non-nil pointer: the
    second argument is the string it points to, and the second component
    of the value is that string when the function returns or panics. *)
Definition parseEmojiLine (line : gostring) (currentSubgroup : gostring)
  : outcome (list EmojiData) * gostring :=
  if strings.HasPrefix line header
  then (Return [], strings.TrimSpace (strings.TrimPrefix line header))
  else if skipped line then (Return [], currentSubgroup)
  else
    (parts1 ← index (strings.SplitN2 line ";") 1;
     interestingBits ← index (strings.Split parts1 "#") 1;
     let '(emoji, description) := extractDescriptionAndEmoji interestingBits in
     mret [mkEmojiData emoji description currentSubgroup],
     currentSubgroup).

(** The subgroup name as [main] cleans it. *)
Definition subgroupOf (line : gostring) : gostring :=
  let subgroup := strings.TrimSpace (strings.TrimPrefix line header) in
  let subgroup := strings.ReplaceAll subgroup "&" "and" in
  strings.ReplaceAll subgroup " " "-".

(** The head of the loop body of [main]: a header line sets the pointer
    and continues, any other line is parsed once the pointer is set, and
    passed over while it is nil. *)
Definition readLine (line : gostring) (currentSubgroup : option gostring)
  : outcome (list EmojiData) * option gostring :=
  if strings.HasPrefix line header
  then (Return [], Some (subgroupOf line))
  else match currentSubgroup with
       | Some subgroup =>
         let '(emojiData, subgroup') := parseEmojiLine line subgroup in
         (emojiData, Some subgroup')
       | None => (Return [], None)
       end.

(** The records the scan of [main] meets, in order. *)
Fixpoint records (lines : list gostring) (currentSubgroup : option gostring)
  : outcome (list EmojiData) :=
  match lines with
  | [] => Return []
  | line :: rest =>
    let '(emojiData, currentSubgroup') := readLine line currentSubgroup in
    here ← emojiData;
    later ← records rest currentSubgroup';
    mret (here ++ later)
  end.

(** *** The pipeline of [main] *)

Section Program.

(** The flags [-emojis] and [-version], the fetcher (its own console
    line and cache file are left out) and [json.Marshal]. *)
Variable displayEmojis : bool.
Variable unicodeVersion : gostring.
Variable fetchEmojiData : gostring -> result (list gostring).
Variable json_Marshal : AlfredSnippet -> result gostring.

Definition generateInfoPlist (filePath : gostring) : IO error :=
  os.WriteFile filePath (plistContent ":").

Definition generateAlfredSnippetJSON (emoji : EmojiData)
           (emojiChar uid filePath : gostring) : IO error :=
  let snippet :=
    mkAlfredSnippet emojiChar uid
      ("(" ++ Subgroup emoji ++ ") " ++ Description emoji)
      (Description emoji) in
  match json_Marshal snippet with
  | Err err => mret (Some err)
  | Ok jsonData => os.WriteFile filePath jsonData
  end.

Definition addFileToZip (zipWriter filename : gostring) : IO error :=
  fileToZip ← os.ReadAll filename;
  match fileToZip with
  | Err err => mret (Some err)
  | Ok data =>
    let '(_, name) := filepath.Split filename in
    zip.WriteEntry zipWriter name data;;
    mret None
  end.

Fixpoint addFiles (zipWriter : gostring) (files : list gostring)
  : IO error :=
  match files with
  | [] => mret None
  | file :: rest =>
    err ← addFileToZip zipWriter file;
    match err with
    | Some e => mret (Some e)
    | None => addFiles zipWriter rest
    end
  end.

Definition zipFiles (filename : gostring) (files : list gostring)
  : IO error :=
  err ← os.Create filename;
  match err with
  | Some e => mret (Some e)
  | None => addFiles filename files
  end.

Definition snippetPath (emoji : EmojiData) (uid : gostring) : gostring :=
  filepath.Join ["build";
                 Description emoji ++ " [" ++ uid ++ "].json"].

(** The body of [for _, emoji := range emojiData]. *)
Definition emit (emoji : EmojiData) (filesToZip : list gostring)
  : IO (list gostring) :=
  if negb displayEmojis then
    uid ← generateUID;
    let fileName := snippetPath emoji uid in
    err ← generateAlfredSnippetJSON emoji (Emoji emoji) uid fileName;
    match err with
    | Some e =>
      fmt.Printf ("Error generating JSON for " ++ Description emoji
                  ++ ": " ++ e ++ newline);;
      mret filesToZip
    | None => mret (filesToZip ++ [fileName])
    end
  else
    fmt.Printf (Emoji emoji ++ ": " ++ Description emoji ++ newline);;
    mret filesToZip.

Fixpoint emitAll (emojiData : list EmojiData) (filesToZip : list gostring)
  : IO (list gostring) :=
  match emojiData with
  | [] => mret filesToZip
  | emoji :: rest =>
    filesToZip ← emit emoji filesToZip;
    emitAll rest filesToZip
  end.

(** [for _, line := range lines]; the value is the pointer and the
    list of files at the end of the loop. *)
Fixpoint scan (lines : list gostring) (currentSubgroup : option gostring)
         (filesToZip : list gostring)
  : IO (option gostring * list gostring) :=
  match lines with
  | [] => mret (currentSubgroup, filesToZip)
  | line :: rest =>
    let '(emojiData, currentSubgroup') := readLine line currentSubgroup in
    emojiData ← lift emojiData;
    filesToZip ← emitAll emojiData filesToZip;
    scan rest currentSubgroup' filesToZip
  end.

Definition zipFileName : gostring :=
  filepath.Join ["dist";
                 "alfredmoji-" ++ unicodeVersion
                 ++ ".alfredsnippets"].

(** The part of [main] after the loop, in package mode. *)
Definition package (filesToZip : list gostring) : IO unit :=
  let plistFileName := filepath.Join ["build"; "info.plist"] in
  err ← generateInfoPlist plistFileName;
  filesToZip ←
    match err with
    | Some e =>
      fmt.Printf ("Error generating info.plist: " ++ e ++ newline);;
      mret filesToZip
    | None => mret (filesToZip ++ [plistFileName])
    end;
  let iconFileName := "../icon.png" in
  let filesToZip := filesToZip ++ [iconFileName] in
  err ← zipFiles zipFileName filesToZip;
  match err with
  | Some e =>
    fmt.Printf ("Error creating .alfredsnippets file: " ++ e
                ++ newline)
  | None =>
    fmt.Println "alfredmoji.alfredsnippets file created successfully.";;
    os.RemoveAll "build"
  end.

Definition main : IO unit :=
  os.Mkdir "build";;
  os.Mkdir "dist";;
  let url := "https://unicode.org/Public/emoji/" ++ unicodeVersion
             ++ "/emoji-test.txt" in
  match fetchEmojiData url with
  | Err err =>
    fmt.Printf ("Error fetching emoji data: " ++ err ++ newline)
  | Ok lines =>
    '(_, filesToZip) ← scan lines None [];
    if negb displayEmojis then package filesToZip else mret tt
  end.

End Program.

End EmojiTest.

(** ** src/main.go: the emoji-sequences.txt packer *)

Module SequencesPack.
Import Sequences.

Section Program.

Variable displayEmojis : bool.
Variable fetchEmojiData : gostring -> result (list gostring).
Variable json_Marshal : AlfredSnippet -> result gostring.

Definition generateAlfredSnippetJSON (emoji : EmojiData)
           (emojiChar uid filePath : gostring) : IO error :=
  let snippet :=
    mkAlfredSnippet emojiChar uid (Description emoji)
      (strings.ReplaceAll (Description emoji) " " "-") in
  match json_Marshal snippet with
  | Err err => mret (Some err)
  | Ok jsonData => os.WriteFile filePath jsonData
  end.

Definition generateInfoPlist (filePath : gostring) : IO error :=
  os.WriteFile filePath (plistContent []).

(** [header.Name = fileName]: the entry carries the path as given. *)
Definition addFileToZip (zipWriter fileName : gostring) : IO error :=
  fileToZip ← os.ReadAll fileName;
  match fileToZip with
  | Err err => mret (Some err)
  | Ok data =>
    zip.WriteEntry zipWriter fileName data;;
    mret None
  end.

Fixpoint addFiles (zipWriter : gostring) (files : list gostring)
  : IO error :=
  match files with
  | [] => mret None
  | file :: rest =>
    err ← addFileToZip zipWriter file;
    match err with
    | Some e => mret (Some e)
    | None => addFiles zipWriter rest
    end
  end.

Definition zipFiles (zipFileName : gostring) (files : list gostring)
  : IO error :=
  err ← os.Create zipFileName;
  match err with
  | Some e => mret (Some e)
  | None => addFiles zipFileName files
  end.

Definition snippetPath (emoji : EmojiData) (uid : gostring) : gostring :=
  filepath.Join [[]; Description emoji ++ " [" ++ uid ++ "].json"].

(** The body of [for _, emoji := range emojiData]: nothing at all is
    done for a record when the flag is set. *)
Definition emit (emoji : EmojiData) (filesToZip : list gostring)
  : IO (list gostring) :=
  if negb displayEmojis then
    let emojiChar := convertCodePointToEmoji (CodePoint emoji) in
    uid ← generateUID;
    let fileName := snippetPath emoji uid in
    err ← generateAlfredSnippetJSON emoji emojiChar uid fileName;
    match err with
    | Some e =>
      fmt.Printf ("Error generating JSON for " ++ Description emoji
                  ++ ": " ++ e ++ newline);;
      mret filesToZip
    | None => mret (filesToZip ++ [fileName])
    end
  else mret filesToZip.

Fixpoint emitAll (emojiData : list EmojiData) (filesToZip : list gostring)
  : IO (list gostring) :=
  match emojiData with
  | [] => mret filesToZip
  | emoji :: rest =>
    filesToZip ← emit emoji filesToZip;
    emitAll rest filesToZip
  end.

Fixpoint scan (lines : list gostring) (filesToZip : list gostring)
  : IO (list gostring) :=
  match lines with
  | [] => mret filesToZip
  | line :: rest =>
    emojiData ← lift (parseEmojiLine line);
    filesToZip ← emitAll emojiData filesToZip;
    scan rest filesToZip
  end.

Definition zipFileName : gostring :=
  filepath.Join ["dist"; "EmojiPack.alfredsnippets"].

Definition package (filesToZip : list gostring) : IO unit :=
  let plistFileName := filepath.Join [[]; "info.plist"] in
  err ← generateInfoPlist plistFileName;
  filesToZip ←
    match err with
    | Some e =>
      fmt.Printf ("Error generating info.plist: " ++ e ++ newline);;
      mret filesToZip
    | None => mret (filesToZip ++ [plistFileName])
    end;
  let iconFileName := "icon.png" in
  let filesToZip := filesToZip ++ [iconFileName] in
  err ← zipFiles zipFileName filesToZip;
  match err with
  | Some e =>
    fmt.Printf ("Error creating .alfredsnippets file: " ++ e
                ++ newline)
  | None =>
    fmt.Println "EmojiPack.alfredsnippets file created successfully.";;
    os.Remove "*.json"
  end.

Definition main : IO unit :=
  os.Mkdir "build";;
  os.Mkdir "dist";;
  let url := "https://unicode.org/Public/emoji/15.1/emoji-sequences.txt" in
  match fetchEmojiData url with
  | Err err =>
    fmt.Printf ("Error fetching emoji data: " ++ err ++ newline)
  | Ok lines =>
    filesToZip ← scan lines [];
    if negb displayEmojis then package filesToZip else mret tt
  end.

End Program.

End SequencesPack.

(** ** The emoji-sequences.txt printer *)

Module SequencesPrint.
Import Sequences.

Section Program.

Variable displayEmojis : bool.
Variable fetchEmojiData : gostring -> result (list gostring).

Definition show (emoji : EmojiData) : IO unit :=
  let display :=
    if displayEmojis then convertCodePointToEmoji (CodePoint emoji)
    else CodePoint emoji in
  fmt.Printf ("Emoji: " ++ display ++ ", Description: "
              ++ Description emoji ++ newline).

Fixpoint showAll (emojiData : list EmojiData) : IO unit :=
  match emojiData with
  | [] => mret tt
  | emoji :: rest => show emoji;; showAll rest
  end.

Fixpoint scan (lines : list gostring) : IO unit :=
  match lines with
  | [] => mret tt
  | line :: rest =>
    emojiData ← lift (parseEmojiLine line);
    showAll emojiData;;
    scan rest
  end.

Definition main : IO unit :=
  let url := "https://unicode.org/Public/emoji/15.1/emoji-sequences.txt" in
  match fetchEmojiData url with
  | Err err =>
    fmt.Printf ("Error fetching emoji data: " ++ err ++ newline)
  | Ok lines => scan lines
  end.

End Program.

End SequencesPrint.

(** ** A concrete machine for the examples *)

Definition jsonText (s : AlfredSnippet) : result gostring :=
  Ok ("{snippet:" ++ Snippet s ++ ",uid:" ++ UID s ++ ",name:"
      ++ Name s ++ ",keyword:" ++ Keyword s ++ "}").

Definition uuidDemo (n : nat) : gostring :=
  "0000-" ++ [97 + Z.of_nat n].

(** A stand-in for the bytes of a zip file. *)
Definition zipDemo (entries : list (gostring * gostring)) : gostring :=
  "PK" ++ flat_map (fun entry => entry.1 ++ "=" ++ entry.2 ++ ";") entries.

Definition bareWorld : World :=
  mkWorld ∅ [] [] 0 uuidDemo (fun _ => None) zipDemo.

Definition worldWithIcons : World :=
  mkWorld (<["../icon.png" := Regular "PNG"]>
             (<["icon.png" := Regular "PNG"]> ∅))
          [] [] 0 uuidDemo (fun _ => None) zipDemo.

Definition testFile : list gostring :=
  [ "1F47B ; fully-qualified # X E0.6 ghost";
    "# subgroup: face-smiling";
    "1F600 ; fully-qualified # 😀 E1.0 grinning face";
    "263A ; unqualified # ☺ E0.6 smiling face" ].

(** ** The pattern of the annotation, as a relation

    [derives re s groups]: a prefix of [s] is cut into the pieces the
    nodes of [re] ask for, and [groups] are the pieces of the capturing
    nodes, in order.  This is what it means for a text to match, without
    saying which of several cuts the search reports. *)

Module regexpSpec.
Import regexp.

Inductive derives : list node -> gostring -> list gostring -> Prop :=
| derives_nil s : derives [] s []
| derives_lit n c re s groups :
    atomOf n = Lit c ->
    derives re s groups ->
    derives (n :: re) (c :: s) (save n [c] groups)
| derives_more n class re text s groups :
    atomOf n = OneOrMore class ->
    text <> [] ->
    Forall (fun c => class c = true) text ->
    derives re s groups ->
    derives (n :: re) (text ++ s) (save n text groups).

(** The number of capturing nodes. *)
Fixpoint groupCount (re : list node) : nat :=
  match re with
  | [] => 0%nat
  | Group _ :: re' => S (groupCount re')
  | Plain _ :: re' => groupCount re'
  end.

End regexpSpec.

(** The shape [<glyph> E<digits>.<digits> <description>] after leading
    white space, in the words of the registry format: [glyph] and
    [description] are non-empty and hold no line feed. *)
Definition annotationShape (input glyph description : gostring) : Prop :=
  exists blank major minor rest,
    input = blank ++ glyph ++ " E" ++ major ++ "." ++ minor
            ++ " " ++ description ++ rest
    /\ blank <> [] /\ Forall (fun c => regexp.space c = true) blank
    /\ glyph <> [] /\ Forall (fun c => regexp.dot c = true) glyph
    /\ major <> [] /\ Forall (fun c => regexp.digit c = true) major
    /\ minor <> [] /\ Forall (fun c => regexp.digit c = true) minor
    /\ description <> [] /\ Forall (fun c => regexp.dot c = true) description.

(** ** Words for what a run leaves behind *)

Module Trace.

(** The machine after more calls, or more console output, and nothing
    else. *)
Definition logged (cs : list call) (w : World) : World :=
  mkWorld (files w) (stdout w) (calls w ++ cs)
          (drawn w) (uuidSource w) (denied w) (zipBytes w).

Definition printed (texts : list gostring) (w : World) : World :=
  mkWorld (files w) (stdout w ++ texts) (calls w)
          (drawn w) (uuidSource w) (denied w) (zipBytes w).

(** The files after a list of [os.WriteFile] calls: a call on a path
    that is not denied puts a regular file with its data there. *)
Fixpoint replay (deny : gostring -> error) (cs : list call)
         (fs : gmap gostring content) : gmap gostring content :=
  match cs with
  | [] => fs
  | CallWriteFile path data :: cs' =>
    replay deny cs' (match deny path with
                     | None => <[path := Regular data]> fs
                     | Some _ => fs
                     end)
  | _ :: cs' => replay deny cs' fs
  end.

(** The writes that succeeded, in order, and the paths of all writes. *)
Fixpoint written (deny : gostring -> error) (cs : list call)
  : list (gostring * gostring) :=
  match cs with
  | [] => []
  | CallWriteFile path data :: cs' =>
    match deny path with
    | None => (path, data) :: written deny cs'
    | Some _ => written deny cs'
    end
  | _ :: cs' => written deny cs'
  end.

Fixpoint writePaths (cs : list call) : list gostring :=
  match cs with
  | [] => []
  | CallWriteFile path _ :: cs' => path :: writePaths cs'
  | _ :: cs' => writePaths cs'
  end.

(** The machine after the write calls [cs], with [texts] printed and [n]
    UUIDs drawn. *)
Definition wrote (cs : list call) (texts : list gostring) (n : nat)
           (w : World) : World :=
  mkWorld (replay (denied w) cs (files w)) (stdout w ++ texts)
          (calls w ++ cs) (drawn w + n) (uuidSource w) (denied w)
          (zipBytes w).

(** The machine after [path] became a container with the entries [es]. *)
Definition archived (path : gostring) (es : list (gostring * gostring))
           (w : World) : World :=
  mkWorld (<[path := Container es]> (files w)) (stdout w) (calls w)
          (drawn w) (uuidSource w) (denied w) (zipBytes w).



(** The entry of a file stored under its base name. *)
Definition baseEntry (file : gostring * gostring) : gostring * gostring :=
  ((filepath.Split file.1).2, file.2).

End Trace.

(** ** Words for the lines of emoji-test.txt *)

Module EmojiTestSpec.
Import EmojiTest.

(** A line that is not a subgroup header. *)
Definition isData (line : gostring) : Prop :=
  strings.HasPrefix line header = false.

(** A line that gives a record, whatever the subgroup. *)
Definition producing (line : gostring) : Prop :=
  exists emoji description, forall subgroup,
    parseEmojiLine line subgroup
    = (Return [mkEmojiData emoji description subgroup], subgroup).

(** The pointer after the scan of some lines. *)
Fixpoint context (lines : list gostring) (currentSubgroup : option gostring)
  : option gostring :=
  match lines with
  | [] => currentSubgroup
  | line :: rest => context rest (readLine line currentSubgroup).2
  end.

(** The address the registry is fetched from, the two [os.Mkdir] calls
    at the start of [main], and the files that go into the archive after
    the snippets. *)
Definition url (unicodeVersion : gostring) : gostring :=
  "https://unicode.org/Public/emoji/" ++ unicodeVersion ++ "/emoji-test.txt".

Definition mkdirs : list call := [CallMkdir "build"; CallMkdir "dist"].

Definition plistFileName : gostring := filepath.Join ["build"; "info.plist"].
Definition iconFileName : gostring := "../icon.png".
Definition plistCall : call := CallWriteFile plistFileName (plistContent ":").

(** The console line of a record in preview mode. *)
Definition preview (emoji : EmojiData) : gostring :=
  Emoji emoji ++ ": " ++ Description emoji ++ newline.

(** The snippet of a record and the [os.WriteFile] calls that package mode
    makes for a list of records, the [n]-th UUID going to the first: a
    record whose snippet does not marshal gets no call. *)
Definition snippetOf (emoji : EmojiData) (uid : gostring) : AlfredSnippet :=
  mkAlfredSnippet (Emoji emoji) uid
    ("(" ++ Subgroup emoji ++ ") " ++ Description emoji)
    (Description emoji).

Fixpoint snippetWrites (json_Marshal : AlfredSnippet -> result gostring)
         (source : nat -> gostring) (n : nat) (emojis : list EmojiData)
  : list call :=
  match emojis with
  | [] => []
  | emoji :: rest =>
    let uid := strings.ToUpper (source n) in
    match json_Marshal (snippetOf emoji uid) with
    | Ok jsonData =>
      CallWriteFile (snippetPath emoji uid) jsonData
        :: snippetWrites json_Marshal source (S n) rest
    | Err _ => snippetWrites json_Marshal source (S n) rest
    end
  end.

End EmojiTestSpec.

(** ** Words for the runs of the emoji-sequences.txt packer *)

Module SequencesSpec.
Import Sequences.

(** The records of all lines, in order. *)
Fixpoint records (lines : list gostring) : list EmojiData :=
  match lines with
  | [] => []
  | line :: rest =>
    match parseEmojiLine line with
    | Return emojiData => emojiData ++ records rest
    | Panic => []
    end
  end.

Definition snippetOf (emoji : EmojiData) (uid : gostring) : AlfredSnippet :=
  mkAlfredSnippet (convertCodePointToEmoji (CodePoint emoji)) uid
    (Description emoji)
    (strings.ReplaceAll (Description emoji) " " "-").

Fixpoint snippetWrites (json_Marshal : AlfredSnippet -> result gostring)
         (source : nat -> gostring) (n : nat) (emojis : list EmojiData)
  : list call :=
  match emojis with
  | [] => []
  | emoji :: rest =>
    let uid := strings.ToUpper (source n) in
    match json_Marshal (snippetOf emoji uid) with
    | Ok jsonData =>
      CallWriteFile (SequencesPack.snippetPath emoji uid) jsonData
        :: snippetWrites json_Marshal source (S n) rest
    | Err _ => snippetWrites json_Marshal source (S n) rest
    end
  end.

Definition url : gostring :=
  "https://unicode.org/Public/emoji/15.1/emoji-sequences.txt".

Definition plistFileName : gostring := filepath.Join [[]; "info.plist"].
Definition iconFileName : gostring := "icon.png".
Definition plistCall : call := CallWriteFile plistFileName (plistContent []).

(** The console line of the printer for a record. *)
Definition shown (displayEmojis : bool) (emoji : EmojiData) : gostring :=
  "Emoji: "
  ++ (if displayEmojis then convertCodePointToEmoji (CodePoint emoji)
      else CodePoint emoji)
  ++ ", Description: " ++ Description emoji ++ newline.

End SequencesSpec.

(** ** package bufio: the line scanner

    [bufio.NewScanner(r)] as the fetchers use it: the split function is
    [bufio.ScanLines] and the buffer grows up to [bufio.MaxScanTokenSize]
    bytes.  The reader is given by the text it delivers and the error
    that ends it, [None] for [io.EOF]. *)

Module bufio.

Definition MaxScanTokenSize : Z := 65536.

Definition ErrTooLong : gostring := "bufio.Scanner: token too long".

(** The length in bytes of a text encoded in UTF-8. *)
Definition byteLen (s : gostring) : Z :=
  Z.of_nat (length (flat_map utf8_encode s)).

(** [dropCR(data)] *)
Definition dropCR (data : gostring) : gostring :=
  match rev data with
  | c :: r => if c =? 13 then rev r else data
  | [] => data
  end.

(** The loop [for scanner.Scan() { lines = append(lines, scanner.Text()) }];
    the value is the lines and [scanner.Err()].  [cur] is the line being
    read, most recent rune first.  A line is delivered at its line feed,
    or at the end of the data when something of it was read; one carriage
    return at its end is dropped.  A line that does not fit the buffer
    together with its line feed stops the scanner with [ErrTooLong]; so
    does a last line without line feed that fills the buffer, as the end
    of the data is only seen by a further read (what [os.File] does). *)
Fixpoint scanFrom (cur data : gostring) (readErr : error)
  : list gostring * error :=
  match data with
  | [] =>
    match cur with
    | [] => ([], readErr)
    | _ :: _ =>
      if MaxScanTokenSize <=? byteLen cur then ([], Some ErrTooLong)
      else ([dropCR (rev cur)], readErr)
    end
  | c :: rest =>
    if c =? 10 then
      if MaxScanTokenSize <=? byteLen cur then ([], Some ErrTooLong)
      else let '(lines, err) := scanFrom [] rest readErr in
           (dropCR (rev cur) :: lines, err)
    else scanFrom (c :: cur) rest readErr
  end.

Definition scanLines (data : gostring) (readErr : error)
  : list gostring * error :=
  scanFrom [] data readErr.

End bufio.

(** [strings.Join(elems, sep)] *)
Definition strings_Join (elems : list gostring) (sep : gostring) : gostring :=
  filepath.joinWith sep elems.

(** [_, err := os.Stat(path); err == nil]: there is a file at [path]. *)
Definition os_Stat (path : gostring) : IO bool := fun w =>
  (Return (bool_decide (is_Some (files w !! path))), w).

(** ** The fetchers

    [http.Get(url)] is the one thing left to the outside: it fails, or
    gives the text the body delivers and the error that ends it. *)

Module SequencesFetch.

Section Fetch.

Variable http_Get : gostring -> result (gostring * error).

(** [fetchEmojiData] of [src/main.go] and of the printer. *)
Definition fetchEmojiData (url : gostring) : list gostring * error :=
  match http_Get url with
  | Err err => ([], Some err)
  | Ok (body, readErr) => bufio.scanLines body readErr
  end.


End Fetch.

End SequencesFetch.

Module EmojiTestFetch.

Section Fetch.

Variable displayEmojis : bool.
Variable unicodeVersion : gostring.
Variable http_Get : gostring -> result (gostring * error).
Variable json_Marshal : AlfredSnippet -> result gostring.

(** [fetchEmojiData] of the emoji-test.txt program: the file named like
    the last element of the URL is used when it is there, and written
    after a download.  [path.Split] is [filepath.Split] on a Unix
    system; a file that is there can be opened and read. *)
Definition fetchEmojiData (url : gostring) : IO (list gostring * error) :=
  let '(_, filename) := filepath.Split url in
  found ← os_Stat filename;
  if (found : bool) then
    fmt.Printf ("Using existing file: " ++ filename ++ newline);;
    file ← os.ReadAll filename;
    match file with
    | Err err => mret ([], Some err)
    | Ok data => mret ((bufio.scanLines data None).1, None)
    end
  else
    fmt.Printf ("Downloading file: " ++ url ++ newline);;
    match http_Get url with
    | Err err => mret ([], Some err)
    | Ok (body, readErr) =>
      let lines := (bufio.scanLines body readErr).1 in
      os.WriteFile filename (strings_Join lines newline);;
      mret (lines, None)
    end.

(** [main] with this fetcher in the place of the oracle. *)
Definition main : IO unit :=
  os.Mkdir "build";;
  os.Mkdir "dist";;
  let url := "https://unicode.org/Public/emoji/" ++ unicodeVersion
             ++ "/emoji-test.txt" in
  '(lines, err) ← fetchEmojiData url;
  match err with
  | Some err =>
    fmt.Printf ("Error fetching emoji data: " ++ err ++ newline)
  | None =>
    '(_, filesToZip) ←
      EmojiTest.scan displayEmojis json_Marshal lines None [];
    if negb displayEmojis
    then EmojiTest.package unicodeVersion filesToZip
    else mret tt
  end.

End Fetch.

End EmojiTestFetch.

(** ** Words for hexadecimal tokens *)

Module Hex.

(** The value of a list of hexadecimal digits, most significant first. *)
Definition value (ds : list Z) : Z :=
  fold_left (fun n d => n * 16 + d) ds 0.

(** The rune [c] writes the digit [d]: [0-9], [A-F] or [a-f]. *)
Definition writes (c : rune) (d : Z) : Prop :=
  0 <= d < 16
  /\ (c = (if d <? 10 then 48 + d else 55 + d)
      \/ c = (if d <? 10 then 48 + d else 87 + d)).

End Hex.

(** ** Words for a well-formed annotation of emoji-test.txt

    [<blank><glyph> E<major>.<minor> <description>] up to the end of the
    line, where the glyph starts with a visible rune and the description
    has no letter E directly before a digit, so that no text in it can be
    taken for a version. *)

Definition versionFree (description : gostring) : Prop :=
  forall before d after,
    description = before ++ 69 :: d :: after -> regexp.digit d = false.

(** The part of the expression after the first group:
    [ E\d+\.\d+ (.+)]. *)
Definition version : list regexp.node := drop 2 EmojiTest.re.

Definition wellFormed (blank glyph major minor description : gostring)
  : Prop :=
  blank <> [] /\ Forall (fun c => regexp.space c = true) blank
  /\ (exists c, head glyph = Some c /\ regexp.space c = false)
  /\ Forall (fun c => regexp.dot c = true) glyph
  /\ major <> [] /\ Forall (fun c => regexp.digit c = true) major
  /\ minor <> [] /\ Forall (fun c => regexp.digit c = true) minor
  /\ description <> [] /\ Forall (fun c => regexp.dot c = true) description
  /\ versionFree description.

(** ** Words for the snippet files

    The file name [<description> [<uid>].json]. *)

Definition fileNameOf (description uid : gostring) : gostring :=
  description ++ " [" ++ uid ++ "].json".

(** ** Words for the console of package mode *)

Module Console.

(** The line for a record whose snippet could not be written. *)
Definition jsonError (description err : gostring) : gostring :=
  "Error generating JSON for " ++ description ++ ": " ++ err ++ newline.

(** The lines the loop of the emoji-test.txt program prints in package
    mode for a list of records, the [n]-th UUID going to the first: one
    for each record whose snippet does not marshal or whose file cannot
    be written. *)
Fixpoint snippetErrors (json_Marshal : AlfredSnippet -> result gostring)
         (deny : gostring -> error) (source : nat -> gostring) (n : nat)
         (emojis : list EmojiTest.EmojiData) : list gostring :=
  match emojis with
  | [] => []
  | emoji :: rest =>
    let uid := strings.ToUpper (source n) in
    let later := snippetErrors json_Marshal deny source (S n) rest in
    match json_Marshal (EmojiTestSpec.snippetOf emoji uid) with
    | Err err => jsonError (EmojiTest.Description emoji) err :: later
    | Ok _ =>
      match deny (EmojiTest.snippetPath emoji uid) with
      | Some err => jsonError (EmojiTest.Description emoji) err :: later
      | None => later
      end
    end
  end.

(** The same for [src/main.go]. *)
Fixpoint packErrors (json_Marshal : AlfredSnippet -> result gostring)
         (deny : gostring -> error) (source : nat -> gostring) (n : nat)
         (emojis : list Sequences.EmojiData) : list gostring :=
  match emojis with
  | [] => []
  | emoji :: rest =>
    let uid := strings.ToUpper (source n) in
    let later := packErrors json_Marshal deny source (S n) rest in
    match json_Marshal (SequencesSpec.snippetOf emoji uid) with
    | Err err => jsonError (Sequences.Description emoji) err :: later
    | Ok _ =>
      match deny (SequencesPack.snippetPath emoji uid) with
      | Some err => jsonError (Sequences.Description emoji) err :: later
      | None => later
      end
    end
  end.

(** The line for an info.plist that could not be written. *)
Definition plistError (deny : gostring -> error) (plistFileName : gostring)
  : list gostring :=
  match deny plistFileName with
  | Some err => ["Error generating info.plist: " ++ err ++ newline]
  | None => []
  end.

(** The error of [os.Open] on a file that is not there. *)
Definition openError (path : gostring) : gostring :=
  "open " ++ path ++ ": no such file or directory".

Definition zipError (err : gostring) : gostring :=
  "Error creating .alfredsnippets file: " ++ err ++ newline.


Definition packCreatedLine : gostring :=
  "EmojiPack.alfredsnippets file created successfully." ++ newline.

End Console.

(** ** Words for the cache of the emoji-test.txt program *)

Module Cache.

(** The name of the cache file, whatever the version. *)
Definition fileName : gostring := "emoji-test.txt".

(** A line that a scan gives back as it is: no line feed in it, no
    carriage return at its end, and short enough for the buffer. *)
Definition regular (line : gostring) : Prop :=
  (10 ∉ line) /\ last line <> Some 13
  /\ bufio.byteLen line < bufio.MaxScanTokenSize.

Definition usingLine : gostring :=
  "Using existing file: " ++ fileName ++ newline.

Definition downloadingLine (url : gostring) : gostring :=
  "Downloading file: " ++ url ++ newline.

End Cache.

(** * Properties *)

(** ** The library model on small inputs *)

Example split_demo :
  strings.Split "a..b...c" ".." = ["a"; "b"; ".c"]
  /\ strings.Split [] ";" = [[]]
  /\ strings.SplitN2 "a;b;c" ";" = ["a"; "b;c"]
  /\ strings.ReplaceAll "a  b, c" " " "-" = "a--b,-c"
  /\ strings.TrimSpace "  x y   " = "x y"
  /\ strings.Fields " 1F1FA  1F1F8 " = ["1F1FA"; "1F1F8"]
  /\ "‚Äô" = [8218; 196; 244]
  /\ "😀" = [128512].
Proof. repeat split; vm_compute; reflexivity. Qed.

Example sequences_demo :
  Sequences.parseEmojiLine "1F600 ; Emoji ; grinning face # (placeholder)"
  = Return [Sequences.mkEmojiData "1F600" "grinning face"]
  /\ Sequences.parseEmojiLine "231A..231B    ; Basic_Emoji ; watch..hourglass done # E0.6"
  = Return [Sequences.mkEmojiData "231A" "watch";
            Sequences.mkEmojiData "231B" "hourglass done"]
  /\ Sequences.parseEmojiLine "# comment ; only" = Return []
  /\ Sequences.convertCodePointToEmoji "1F600" = "😀"
  /\ Sequences.convertCodePointToEmoji "1F1FA 1F1F8" = [127482; 127480]
  /\ Sequences.convertCodePointToEmoji "ZZZZ" = []
  /\ Sequences.convertCodePointToEmoji "-1F 80000000 D800 +41" = [65533; 65533; 65]
  /\ regexp.FindStringSubmatch
       [regexp.Plain (regexp.OneOrMore regexp.space);
        regexp.Group (regexp.OneOrMore regexp.dot);
        regexp.Plain (regexp.Lit 32)]
       " a b c " = Some ["a b c"].
Proof. repeat split; vm_compute; reflexivity. Qed.

Example filepath_demo :
  filepath.Join ["build"; "grinning-face [AB].json"]
  = "build/grinning-face [AB].json"
  /\ filepath.Join [[]; "info.plist"] = "info.plist"
  /\ filepath.Join ["build"; "../x//./y"] = "x/y"
  /\ filepath.Clean "/../a/b/../.." = "/"
  /\ filepath.Clean "../../a/.." = "../.."
  /\ filepath.Split "build/a b.json" = ("build/", "a b.json")
  /\ filepath.Split "../icon.png" = ("../", "icon.png")
  /\ filepath.Split "info.plist" = ([], "info.plist")
  /\ filepath.Split "a/b/" = ("a/b/", []).
Proof. repeat split; vm_compute; reflexivity. Qed.

Example emojitest_demo :
  EmojiTest.parseEmojiLine
    "1F600                                                  ; fully-qualified     # 😀 E1.0 grinning face"
    "face-smiling"
  = (Return [EmojiTest.mkEmojiData "😀" "grinning-face" "face-smiling"],
     "face-smiling")
  /\ EmojiTest.extractDescriptionAndEmoji " X E1.0 a, b: c  d E2.0 e"
     = ("X E1.0 a, b: c  d", "e")
  /\ EmojiTest.subgroupOf "# subgroup: hand-fingers & partial" = "hand-fingers-and-partial".
Proof. repeat split; vm_compute; reflexivity. Qed.

(** ** Facts about the library model *)

Section StringFacts.

Implicit Types s t sep old new : gostring.
Implicit Types c : rune.

Lemma rune_eqb_eq c1 c2 : rune_eqb c1 c2 = true <-> c1 = c2.
Proof. unfold rune_eqb. apply Z.eqb_eq. Qed.

Lemma HasPrefix_app s t : strings.HasPrefix (s ++ t) s = true.
Proof.
  induction s as [|c s IH]; simpl; [done|].
  rewrite IH, andb_true_r. by apply rune_eqb_eq.
Qed.

Lemma HasPrefix_inv s t :
  strings.HasPrefix s t = true -> exists u, s = t ++ u.
Proof.
  revert s; induction t as [|c t IH]; intros s H; simpl in *.
  - by exists s.
  - destruct s as [|c' s]; [done|].
    apply andb_true_iff in H as [Hc Ht]. apply rune_eqb_eq in Hc as ->.
    destruct (IH _ Ht) as [u ->]. by exists u.
Qed.

Lemma Index_nil c sep : strings.Index [] (c :: sep) = None.
Proof. done. Qed.

Lemma Index_unfold s sep :
  strings.Index s sep =
  if strings.HasPrefix s sep then Some 0%nat
  else match s with [] => None | _ :: s' => S <$> strings.Index s' sep end.
Proof. by destruct s. Qed.

(** An occurrence anywhere is found. *)
Lemma Contains_app s t u : strings.Contains (s ++ t ++ u) t = true.
Proof.
  unfold strings.Contains.
  induction s as [|c s IH].
  - change ([] ++ t ++ u) with (t ++ u).
    rewrite Index_unfold, HasPrefix_app. reflexivity.
  - change ((c :: s) ++ t ++ u) with (c :: (s ++ t ++ u)).
    rewrite Index_unfold.
    destruct (strings.HasPrefix _ _); [reflexivity|].
    destruct (strings.Index (s ++ t ++ u) t); [reflexivity | discriminate].
Qed.

(** [Index] returns a position where the pattern really is. *)
Lemma Index_Some s sep m :
  strings.Index s sep = Some m ->
  s = take m s ++ sep ++ drop (m + length sep) s.
Proof.
  revert m; induction s as [|c s IH]; intros m H;
    rewrite Index_unfold in H.
  - destruct (strings.HasPrefix [] sep) eqn:E; [|done].
    injection H as <-. destruct sep; done.
  - destruct (strings.HasPrefix (c :: s) sep) eqn:E.
    + injection H as <-. destruct (HasPrefix_inv _ _ E) as [u Hu].
      rewrite Hu at 1. simpl. rewrite Hu, drop_app_length. done.
    + destruct (strings.Index s sep) as [k|] eqn:K; [|done].
      injection H as <-. simpl. f_equal. by apply IH.
Qed.

Lemma genSplit_nonempty n s sep : strings.genSplit n s sep <> [].
Proof. destruct n; simpl; [done|]. by destruct (strings.Index s sep). Qed.

Lemma Split_nonempty s c sep : strings.Split s (c :: sep) <> [].
Proof. apply genSplit_nonempty. Qed.

(** The second piece exists exactly when the separator occurs. *)
Lemma Split_second s c sep :
  is_Some (strings.Split s (c :: sep) !! 1%nat)
  <-> strings.Contains s (c :: sep) = true.
Proof.
  unfold strings.Split, strings.Contains.
  destruct s as [|a s].
  - simpl. split; [intros [? ?]; done | done].
  - cbn [length strings.genSplit].
    destruct (strings.Index (a :: s) (c :: sep)) as [m|]; simpl.
    + split; [done | intros _].
      pose proof (genSplit_nonempty (length s)
                    (drop (m + S (length sep)) (a :: s)) (c :: sep)).
      destruct (strings.genSplit _ _ _); [done | by eexists].
    + split; [intros [? ?]; done | done].
Qed.

Lemma SplitN2_second s c sep :
  strings.Contains s (c :: sep) = true ->
  exists m, strings.Index s (c :: sep) = Some m
            /\ strings.SplitN2 s (c :: sep)
               = [take m s; drop (m + S (length sep)) s].
Proof.
  unfold strings.Contains, strings.SplitN2. simpl.
  destruct (strings.Index s (c :: sep)) as [m|]; [|done].
  intros _. by exists m.
Qed.

(** Replacing a single rune by a single rune is a map ... *)
Lemma replaceFrom_single s a b :
  strings.replaceFrom 0 s [a] [b]
  = (fun c => if rune_eqb c a then b else c) <$> s.
Proof.
  induction s as [|c s IH]; simpl; [done|].
  rewrite andb_true_r. destruct (rune_eqb c a); simpl; by rewrite IH.
Qed.

(** ... and deleting a single rune is a filter. *)
Lemma replaceFrom_delete s a :
  strings.replaceFrom 0 s [a] []
  = filter (fun c => rune_eqb c a = false) s.
Proof.
  induction s as [|c s IH]; simpl; [done|].
  rewrite andb_true_r. destruct (rune_eqb c a) eqn:E; simpl.
  - rewrite filter_cons_False; [done | by rewrite E].
  - rewrite filter_cons_True; [by rewrite IH | done].
Qed.

(** Deleting occurrences of a pattern brings no new rune. *)
Lemma replaceFrom_subset k s old c :
  c ∈ strings.replaceFrom k s old [] -> c ∈ s.
Proof.
  revert k; induction s as [|a s IH]; intros k; simpl; [done|].
  destruct k.
  - destruct (strings.HasPrefix (a :: s) old); simpl.
    + intros H. right. by eapply IH.
    + intros [->|H]%elem_of_cons; [left | right; by eapply IH].
  - intros H. right. by eapply IH.
Qed.

Lemma ReplaceAll_delete_subset s old c :
  c ∈ strings.ReplaceAll s old [] -> c ∈ s.
Proof.
  destruct old as [|a old]; simpl.
  - induction s as [|b s IH]; simpl; [done|].
    intros [->|H]%elem_of_cons; [left | right; by apply IH].
  - apply replaceFrom_subset.
Qed.

Lemma TrimLeftSpace_subset s c : c ∈ strings.TrimLeftSpace s -> c ∈ s.
Proof.
  induction s as [|a s IH]; simpl; [done|].
  destruct (IsSpace a); [|done]. intros H. right. by apply IH.
Qed.

Lemma TrimSpace_subset s c : c ∈ strings.TrimSpace s -> c ∈ s.
Proof.
  unfold strings.TrimSpace. intros H.
  apply list_elem_of_In, in_rev, list_elem_of_In in H.
  apply TrimLeftSpace_subset in H.
  apply list_elem_of_In, in_rev, list_elem_of_In in H.
  by apply TrimLeftSpace_subset.
Qed.

(** ... and brings back the text with some runes left out. *)
Lemma replaceFrom_sublist k s old :
  strings.replaceFrom k s old [] `sublist_of` s.
Proof.
  revert k; induction s as [|a s IH]; intros k; simpl; [done|].
  destruct k.
  - destruct (strings.HasPrefix (a :: s) old); simpl.
    + by apply sublist_cons.
    + by apply sublist_skip.
  - by apply sublist_cons.
Qed.

Lemma ReplaceAll_delete_sublist s old :
  strings.ReplaceAll s old [] `sublist_of` s.
Proof.
  destruct old as [|a old]; simpl; [|apply replaceFrom_sublist].
  induction s as [|b s IH]; simpl; [done|]. by apply sublist_skip.
Qed.

(** A pattern whose first rune does not occur is not found. *)
Lemma ReplaceAll_absent s a old new :
  a ∉ s -> strings.ReplaceAll s (a :: old) new = s.
Proof.
  unfold strings.ReplaceAll. induction s as [|c s IH]; intros Ha; [done|].
  apply not_elem_of_cons in Ha as [Hne Ha].
  cbn [strings.replaceFrom strings.HasPrefix].
  destruct (rune_eqb c a) eqn:E; [apply rune_eqb_eq in E; congruence|].
  cbn [andb]. by rewrite IH.
Qed.

(** A rune that is not in the pattern stays. *)
Lemma replaceFrom_keeps c old new : c ∉ old -> old <> [] ->
  forall s k,
    c ∈ drop k s -> c ∉ take k s ->
    c ∈ strings.replaceFrom k s old new.
Proof.
  intros Hc Hne. induction s as [|a s IH]; intros k Hin Hout.
  - by rewrite drop_nil in Hin.
  - destruct k as [|k].
    + cbn [strings.replaceFrom].
      destruct (strings.HasPrefix (a :: s) old) eqn:E.
      * apply elem_of_app. right.
        destruct (HasPrefix_inv _ _ E) as [u Hu].
        destruct old as [|o old]; [done|].
        simpl in Hu. injection Hu as -> ->.
        apply not_elem_of_cons in Hc as [Hco Hc].
        rewrite drop_0 in Hin.
        apply elem_of_cons in Hin as [Hin|Hin]; [congruence|].
        apply elem_of_app in Hin as [Hin|Hin]; [done|].
        replace (length (o :: old) - 1)%nat with (length old)
          by (simpl; lia).
        apply IH.
        -- by rewrite drop_app_length.
        -- by rewrite take_app_length.
      * rewrite drop_0 in Hin.
        apply elem_of_cons in Hin as [->|Hin]; [by left|].
        right. apply IH; [by rewrite drop_0 | rewrite take_0; apply not_elem_of_nil].
    + cbn [strings.replaceFrom]. simpl in Hin, Hout.
      apply not_elem_of_cons in Hout as [_ Hout]. by apply IH.
Qed.

Lemma ReplaceAll_keeps c s a old new :
  c ∈ s -> c ∉ a :: old -> c ∈ strings.ReplaceAll s (a :: old) new.
Proof.
  intros Hin Hout. unfold strings.ReplaceAll.
  apply replaceFrom_keeps; [done | done | by rewrite drop_0 |].
  rewrite take_0. apply not_elem_of_nil.
Qed.

(** [strings.TrimSpace] cuts at the two ends only. *)
Lemma TrimLeftSpace_app s t :
  Exists (fun d => IsSpace d = false) s ->
  strings.TrimLeftSpace (s ++ t) = strings.TrimLeftSpace s ++ t.
Proof.
  induction s as [|a s IH]; intros H; [by apply Exists_nil in H|].
  simpl. destruct (IsSpace a) eqn:E; [|done].
  apply Exists_cons in H as [H|H]; [congruence | by apply IH].
Qed.

Lemma TrimSpace_inside s c t :
  Exists (fun d => IsSpace d = false) s ->
  Exists (fun d => IsSpace d = false) t ->
  c ∈ strings.TrimSpace (s ++ c :: t).
Proof.
  intros Hs Ht. unfold strings.TrimSpace.
  rewrite TrimLeftSpace_app by done.
  rewrite rev_app_distr. cbn [rev]. rewrite <- app_assoc.
  rewrite TrimLeftSpace_app.
  - apply list_elem_of_In, in_rev. rewrite rev_involutive.
    apply list_elem_of_In, elem_of_app. right. apply list_elem_of_here.
  - apply Exists_exists in Ht as (d & Hd & Hsp).
    apply Exists_exists. exists d. split; [|done].
    by apply list_elem_of_In, in_rev, list_elem_of_In in Hd.
Qed.

Lemma TrimSpace_plain a s b :
  IsSpace a = false -> IsSpace b = false ->
  strings.TrimSpace (a :: s ++ [b]) = a :: s ++ [b].
Proof.
  intros Ha Hb. unfold strings.TrimSpace.
  cbn [strings.TrimLeftSpace]. rewrite Ha.
  cbn [rev]. rewrite rev_app_distr. cbn [rev app strings.TrimLeftSpace].
  rewrite Hb. cbn [rev]. rewrite rev_app_distr, rev_involutive. reflexivity.
Qed.

End StringFacts.

(** ** Facts about the paths [filepath.Clean] gives

    The last rune of a path survives cleaning when it is neither a
    separator nor a dot: the last element is then a name. *)

Section PathFacts.

Implicit Types s t sep p : gostring.
Implicit Types c : rune.

Lemma genSplit_last n s sep :
  exists pre t,
    strings.genSplit n s sep = pre ++ [t]
    /\ (t = s \/ exists u, s = u ++ sep ++ t).
Proof.
  revert s; induction n as [|n IH]; intros s.
  - exists [], s. by split; [|left].
  - simpl. destruct (strings.Index s sep) as [m|] eqn:E.
    + destruct (IH (drop (m + length sep) s)) as (pre & t & -> & Ht).
      exists (take m s :: pre), t. split; [done|]. right.
      apply Index_Some in E.
      destruct Ht as [->|[u Hu]].
      * by exists (take m s).
      * exists (take m s ++ sep ++ u). rewrite E at 1. rewrite Hu.
        by rewrite <- !(assoc_L (++)).
    + exists [], s. by split; [|left].
Qed.

Lemma last_name s c t :
  last s = Some c -> c <> filepath.slash ->
  (t = s \/ exists u, s = u ++ [filepath.slash] ++ t) ->
  last t = Some c.
Proof.
  intros Hs Hc [->|[u ->]]; [done|].
  rewrite (assoc_L (++)), last_app in Hs.
  destruct (last t) as [y|]; [done|].
  rewrite last_snoc in Hs. congruence.
Qed.

Lemma cleanLoop_last rooted pre t out :
  t <> [] -> t <> "." -> t <> ".." ->
  exists out', filepath.cleanLoop rooted (pre ++ [t]) out = rev out' ++ [t].
Proof.
  intros H0 H1 H2. revert out; induction pre as [|e pre IH]; intros out.
  - exists out. simpl.
    rewrite (bool_decide_eq_false_2 (t = [])) by done.
    rewrite (bool_decide_eq_false_2 (t = ".")) by done.
    rewrite (bool_decide_eq_false_2 (t = "..")) by done.
    reflexivity.
  - cbn [app filepath.cleanLoop].
    destruct (bool_decide (e = []) || bool_decide (e = ".")); [apply IH|].
    destruct (bool_decide (e = "..")); [|apply IH].
    destruct out as [|top out]; [destruct rooted; apply IH|].
    destruct (bool_decide (top = "..")); apply IH.
Qed.

Lemma joinWith_last sep l t :
  t <> [] -> last (filepath.joinWith sep (l ++ [t])) = last t.
Proof.
  intros Ht. induction l as [|e l IH]; [done|].
  cbn [app filepath.joinWith].
  destruct (l ++ [t]) as [|e' l'] eqn:E; [by destruct l|].
  rewrite !last_app, IH.
  destruct (last t) eqn:E'; [done|].
  apply last_None in E'. done.
Qed.

Lemma Clean_last p c :
  last p = Some c -> c <> filepath.slash -> c <> 46 ->
  last (filepath.Clean p) = Some c.
Proof.
  intros Hp Hs Hd. unfold filepath.Clean.
  assert (exists pre t, strings.Split p [filepath.slash] = pre ++ [t]
                        /\ last t = Some c) as (pre & t & -> & Ht).
  { destruct (genSplit_last (length p) p [filepath.slash])
      as (pre & t & E & H).
    exists pre, t. split; [exact E|]. by eapply last_name. }
  assert (t <> []) as H0 by (by intros ->).
  assert (t <> ".") as H1 by (intros ->; simpl in Ht; congruence).
  assert (t <> "..") as H2 by (intros ->; simpl in Ht; congruence).
  destruct (cleanLoop_last (strings.HasPrefix p [filepath.slash]) pre t []
              H0 H1 H2) as [out' ->].
  pose proof (joinWith_last [filepath.slash] (rev out') t H0) as Hj.
  rewrite Ht in Hj.
  destruct (strings.HasPrefix p [filepath.slash]).
  - change (filepath.slash :: ?b) with ([filepath.slash] ++ b).
    by rewrite last_app, Hj.
  - destruct (filepath.joinWith _ _); [done | exact Hj].
Qed.

Lemma Join_last a b c :
  last b = Some c -> c <> filepath.slash -> c <> 46 ->
  last (filepath.Join [a; b]) = Some c.
Proof.
  intros Hb Hs Hd. unfold filepath.Join.
  assert (b <> []) as Hne by (by intros ->).
  destruct a as [|x a].
  - rewrite filter_cons_False by (by intros H; apply H).
    rewrite filter_cons_True by done.
    cbn [filepath.joinWith]. by apply Clean_last.
  - rewrite filter_cons_True by done. rewrite filter_cons_True by done.
    apply Clean_last; [|done..].
    assert (forall l, last (l ++ [filepath.slash] ++ b) = Some c) as H
        by (intros l; by rewrite !last_app, Hb).
    exact (H (x :: a)).
Qed.

End PathFacts.

(** ** The emoji-sequences.txt parser and the code-point resolver *)

Module SequencesProps.
Import Sequences.

Lemma pairLoop_zip i codePointsSplit descriptionsSplit emojis :
  pairLoop i codePointsSplit descriptionsSplit emojis
  = emojis ++ zip_with mkEmojiData codePointsSplit (drop i descriptionsSplit).
Proof.
  revert i emojis.
  induction codePointsSplit as [|cp rest IH]; intros i emojis.
  - simpl. by rewrite app_nil_r.
  - cbn [pairLoop]. rewrite IH.
    destruct (descriptionsSplit !! i) as [d|] eqn:E.
    + rewrite (drop_S _ _ _ E). simpl. by rewrite <- app_assoc.
    + apply lookup_ge_None in E.
      rewrite !drop_ge by lia. simpl. by rewrite zip_with_nil_r.
Qed.

(** The parser never panics: its three index expressions are in range. *)
Lemma parseEmojiLine_total line : exists emojis, parseEmojiLine line = Return emojis.
Proof.
  unfold parseEmojiLine.
  destruct (strings.Split line ";") as [|p0 [|p1 [|p2 more]]] eqn:E;
    try (by eexists).
  cbn -[strings.Split strings.TrimSpace pairLoop].
  pose proof (Split_nonempty p2 35 []) as Hne.
  change "#" with [35].
  destruct (strings.Split p2 [35]); [done|]. by eexists.
Qed.

(** C1.  A line that splits at [;] into three fields or more gives the
    records that pair, index by index, the [..]-pieces of the trimmed
    code-point field with the [..]-pieces of the trimmed description
    field cut at its first [#]: there is a record at index [i] exactly
    when both sides have a piece at [i], so the records are no more than
    the description pieces, and two pieces against two pieces give two
    records, first with first and second with second. *)
Theorem parseEmojiLine_pairs_endpoints (line p0 p1 p2 : gostring)
        (more : list gostring) :
  strings.Split line ";" = p0 :: p1 :: p2 :: more ->
  exists d0 comment emojis,
    strings.Split p2 "#" = d0 :: comment
    /\ parseEmojiLine line = Return emojis
    /\ let codePointsSplit :=
         strings.Split (strings.TrimSpace p0) ".." in
       let descriptionsSplit :=
         strings.Split (strings.TrimSpace d0) ".." in
       (forall i e,
           emojis !! i = Some e <->
           exists c d, codePointsSplit !! i = Some c
                       /\ descriptionsSplit !! i = Some d
                       /\ e = mkEmojiData c d)
       /\ (length emojis <= length descriptionsSplit)%nat
       /\ length emojis
          = Nat.min (length codePointsSplit) (length descriptionsSplit)
       /\ (forall a b c d,
              codePointsSplit = [a; b] -> descriptionsSplit = [c; d] ->
              emojis = [mkEmojiData a c; mkEmojiData b d]).
Proof.
  intros Hparts.
  pose proof (Split_nonempty p2 35 []) as Hne.
  change [35] with "#" in Hne.
  destruct (strings.Split p2 "#") as [|d0 comment] eqn:Hd; [done|].
  exists d0, comment.
  eexists. split; [done|]. split.
  { unfold parseEmojiLine. rewrite Hparts.
    cbn -[strings.Split strings.TrimSpace pairLoop].
    rewrite Hd. cbn -[strings.Split strings.TrimSpace pairLoop].
    rewrite pairLoop_zip. reflexivity. }
  cbn zeta. rewrite drop_0, app_nil_l.
  set (cps := strings.Split (strings.TrimSpace p0) "..").
  set (ds := strings.Split (strings.TrimSpace d0) "..").
  repeat split.
  - rewrite lookup_zip_with. intros H.
    destruct (cps !! i) as [c|]; [|done]. simpl in H.
    destruct (ds !! i) as [d|]; [|done]. simpl in H.
    injection H as <-. by exists c, d.
  - intros (c & d & Hc & Hd' & ->).
    rewrite lookup_zip_with, Hc. simpl. by rewrite Hd'.
  - rewrite length_zip_with. lia.
  - by rewrite length_zip_with.
  - intros a b c d -> ->. reflexivity.
Qed.

Lemma parseEmojiLine_pairs_endpoints_witness :
  let line := "231A..231B    ; Basic_Emoji ; watch..hourglass done # E0.6" in
  strings.Split line ";"
  = ["231A..231B    "; " Basic_Emoji "; " watch..hourglass done # E0.6"]
  /\ parseEmojiLine line
     = Return [mkEmojiData "231A" "watch";
               mkEmojiData "231B" "hourglass done"].
Proof.
  split; [vm_compute; reflexivity|].
  destruct (parseEmojiLine_pairs_endpoints
              "231A..231B    ; Basic_Emoji ; watch..hourglass done # E0.6"
              "231A..231B    " " Basic_Emoji "
              " watch..hourglass done # E0.6" [])
    as (d0 & comment & emojis & Hd & Hp & _ & _ & _ & Htwo);
    [vm_compute; reflexivity|].
  assert (d0 = " watch..hourglass done ") as ->
      by (vm_compute in Hd; vm_compute; congruence).
  rewrite Hp. f_equal. apply Htwo; vm_compute; reflexivity.
Defined.

Lemma runeLoop_omap codePoints emojiRunes :
  runeLoop codePoints emojiRunes
  = emojiRunes ++ omap (fun cp => strconv.ParseInt cp 16 32) codePoints.
Proof.
  revert emojiRunes.
  induction codePoints as [|cp rest IH]; intros emojiRunes; simpl.
  - by rewrite app_nil_r.
  - destruct (strconv.ParseInt cp 16 32); rewrite IH; [|done].
    by rewrite <- app_assoc.
Qed.

Lemma length_omap {A B} (f : A -> option B) (l : list A) :
  length (omap f l) = length (filter (fun x => is_Some (f x)) l).
Proof.
  induction l as [|x l IH]; [done|].
  change (omap f (x :: l))
    with (match f x with Some y => y :: omap f l | None => omap f l end).
  destruct (f x) as [y|] eqn:E.
  - rewrite filter_cons_True by (rewrite E; by eexists).
    simpl. by rewrite IH.
  - rewrite filter_cons_False by (rewrite E; by intros [? ?]). done.
Qed.

(** C5.  The resolver cuts its argument into white-space separated
    tokens, reads each as a base-16 integer that fits 32 bits, drops the
    tokens that do not read, and returns one character for each of the
    others, in order; ["1F600"] gives one character, ["1F1FA 1F1F8"] two
    and ["ZZZZ"] the empty string. *)
Theorem convertCodePointToEmoji_skips_unparsed (codePointStr : gostring) :
  let tokens := strings.Fields codePointStr in
  let parse := fun cp => strconv.ParseInt cp 16 32 in
  convertCodePointToEmoji codePointStr = string_of_runes (omap parse tokens)
  /\ length (convertCodePointToEmoji codePointStr)
     = length (filter (fun cp => is_Some (parse cp)) tokens)
  /\ convertCodePointToEmoji "1F600" = [128512]
  /\ convertCodePointToEmoji "1F1FA 1F1F8" = [127482; 127480]
  /\ convertCodePointToEmoji "ZZZZ" = [].
Proof.
  cbn zeta.
  assert (convertCodePointToEmoji codePointStr
          = string_of_runes
              (omap (fun cp => strconv.ParseInt cp 16 32)
                    (strings.Fields codePointStr))) as Heq.
  { unfold convertCodePointToEmoji. by rewrite runeLoop_omap. }
  split; [exact Heq|]. split; [|by vm_compute].
  rewrite Heq. unfold string_of_runes. rewrite length_fmap.
  apply length_omap.
Qed.

End SequencesProps.

(** ** The search of [regexp] against the relation *)

Module RegexpProps.
Import regexp regexpSpec.

Lemma oneOrMore_sound class k s seen r :
  oneOrMore class k s seen = Some r ->
  exists text rest,
    text <> [] /\ Forall (fun c => class c = true) text
    /\ s = text ++ rest /\ k (rev seen ++ text) rest = Some r.
Proof.
  revert seen; induction s as [|c s IH]; intros seen H; simpl in H; [done|].
  destruct (class c) eqn:Hc; [|done].
  destruct (oneOrMore class k s (c :: seen)) as [r'|] eqn:Hmore.
  - injection H as ->.
    destruct (IH _ Hmore) as (text & rest & _ & Hall & -> & Hk).
    exists (c :: text), rest. repeat split; [done | by constructor |].
    simpl in Hk. by rewrite <- app_assoc in Hk.
  - exists [c], s. repeat split; [done | by repeat constructor | done].
Qed.

Lemma oneOrMore_complete class k text rest seen :
  text <> [] -> Forall (fun c => class c = true) text ->
  is_Some (k (rev seen ++ text) rest) ->
  is_Some (oneOrMore class k (text ++ rest) seen).
Proof.
  revert seen; induction text as [|c text IH]; intros seen Hne Hall Hk; [done|].
  apply Forall_cons in Hall as [Hc Hall]. simpl. rewrite Hc.
  destruct text as [|c' text].
  - destruct (oneOrMore class k ([] ++ rest) (c :: seen)); [by eexists|].
    exact Hk.
  - destruct (IH (c :: seen)) as [r Hr]; [done | done | |].
    + simpl. by rewrite <- app_assoc.
    + rewrite Hr. by eexists.
Qed.

Lemma save_rev n text groups caps :
  rev (save n text groups) ++ caps = rev groups ++ save n text caps.
Proof. destruct n; simpl; [done|]. by rewrite <- app_assoc. Qed.

Lemma matchHere_sound re s caps r :
  matchHere re s caps = Some r ->
  exists groups, derives re s groups /\ r = rev groups ++ caps.
Proof.
  revert s caps; induction re as [|n re IH]; intros s caps H; simpl in H.
  - injection H as <-. exists []. split; [constructor | done].
  - destruct (atomOf n) as [c|class] eqn:Hn.
    + destruct s as [|c' s]; [done|].
      destruct (rune_eqb c' c) eqn:Hc; [|done].
      apply rune_eqb_eq in Hc as ->.
      destruct (IH _ _ H) as (groups & Hd & ->).
      exists (save n [c] groups). split; [by constructor|].
      by rewrite save_rev.
    + apply oneOrMore_sound in H as (text & rest & Hne & Hall & -> & Hk).
      destruct (IH _ _ Hk) as (groups & Hd & ->).
      exists (save n text groups). split; [by econstructor|].
      by rewrite save_rev.
Qed.

Lemma matchHere_complete re s groups :
  derives re s groups -> forall caps, is_Some (matchHere re s caps).
Proof.
  induction 1 as [s | n c re s groups Hn _ IH
                  | n class re text s groups Hn Hne Hall _ IH];
    intros caps; simpl.
  - by eexists.
  - rewrite Hn. replace (rune_eqb c c) with true
      by (symmetry; by apply rune_eqb_eq). apply IH.
  - rewrite Hn. apply oneOrMore_complete; [done | done | apply IH].
Qed.

Lemma derives_groupCount re s groups :
  derives re s groups -> length groups = groupCount re.
Proof.
  induction 1 as [s | n c re s groups Hn _ IH
                  | n class re text s groups Hn Hne Hall _ IH];
    [done | destruct n; simpl; by rewrite ?IH ..].
Qed.

(** What [FindStringSubmatch] reports is a cut of the text ... *)
Lemma FindStringSubmatch_sound re s groups :
  FindStringSubmatch re s = Some groups -> derives re s groups.
Proof.
  unfold FindStringSubmatch.
  destruct (matchHere re s []) as [r|] eqn:H; [|done].
  intros [= <-]. apply matchHere_sound in H as (groups & Hd & ->).
  by rewrite app_nil_r, rev_involutive.
Qed.

(** ... and it reports one whenever there is one. *)
Lemma FindStringSubmatch_complete re s groups :
  derives re s groups -> is_Some (FindStringSubmatch re s).
Proof.
  intros H. unfold FindStringSubmatch.
  destruct (matchHere_complete _ _ _ H []) as [r ->]. by eexists.
Qed.

Ltac lit_step H K :=
  inversion H as [ | ? ? ? ? ? Hat K | ? ? ? ? ? ? Hat ? ? ? ];
  subst; simpl in Hat; [|discriminate Hat]; injection Hat as <-; clear H.

Ltac more_step H K text Hne Hall :=
  inversion H as [ | ? ? ? ? ? Hat K | ? ? ? text ? ? Hat Hne Hall K ];
  subst; simpl in Hat; [discriminate Hat|]; injection Hat as <-; clear H.

(** The expression of the program derives exactly the annotation shape. *)
Lemma re_derives_shape input glyph description :
  derives EmojiTest.re input [glyph; description]
  <-> annotationShape input glyph description.
Proof.
  split.
  - unfold EmojiTest.re. intros K0.
    more_step K0 K1 blank Hb1 Hb2.
    more_step K1 K2 gl Hg1 Hg2.
    lit_step K2 K3. lit_step K3 K4.
    more_step K4 K5 major Hm1 Hm2.
    lit_step K5 K6.
    more_step K6 K7 minor Hn1 Hn2.
    lit_step K7 K8.
    more_step K8 K9 desc Hd1 Hd2.
    inversion K9 as [rest | | ]; subst.
    simpl in *.
    match goal with H : _ = [glyph; description] |- _ =>
      injection H as <- <- end.
    match goal with |- annotationShape (_ ++ _ ++ _ :: _ :: _ ++ _ :: _ ++ _ :: _ ++ ?r) _ _ =>
      exists blank, major, minor, r end.
    repeat split; try done.
  - intros (blank & major & minor & rest & -> & Hb1 & Hb2 & Hg1 & Hg2
            & Hm1 & Hm2 & Hn1 & Hn2 & Hd1 & Hd2).
    unfold EmojiTest.re.
    apply (derives_more (Plain (OneOrMore space)) space _ blank _
             [glyph; description]); [done..|].
    apply (derives_more (Group (OneOrMore dot)) dot _ glyph _
             [description]); [done..|].
    change (" E" ++ ?x) with (32 :: 69 :: x).
    apply (derives_lit (Plain (Lit 32)) 32 _ _ [description]); [done|].
    apply (derives_lit (Plain (Lit 69)) 69 _ _ [description]); [done|].
    apply (derives_more (Plain (OneOrMore digit)) digit _ major _
             [description]); [done..|].
    change ("." ++ ?x) with (46 :: x).
    apply (derives_lit (Plain (Lit 46)) 46 _ _ [description]); [done|].
    apply (derives_more (Plain (OneOrMore digit)) digit _ minor _
             [description]); [done..|].
    change (" " ++ ?x) with (32 :: x).
    apply (derives_lit (Plain (Lit 32)) 32 _ _ [description]); [done|].
    apply (derives_more (Group (OneOrMore dot)) dot _ description _ []);
      [done..|].
    constructor.
Qed.

End RegexpProps.

(** ** The emoji-test.txt line parser *)

Module EmojiTestProps.
Import EmojiTest.

Lemma parseEmojiLine_header line currentSubgroup :
  strings.HasPrefix line header = true ->
  parseEmojiLine line currentSubgroup
  = (Return [], strings.TrimSpace (strings.TrimPrefix line header)).
Proof. unfold parseEmojiLine. by intros ->. Qed.

Lemma parseEmojiLine_skipped line currentSubgroup :
  strings.HasPrefix line header = false -> skipped line = true ->
  parseEmojiLine line currentSubgroup = (Return [], currentSubgroup).
Proof. unfold parseEmojiLine. by intros -> ->. Qed.

(** A line that is kept has a [;], so [parts[1]] is in range: it is the
    text after the first [;]. *)
Lemma kept_has_second_part line :
  skipped line = false ->
  exists m, strings.Index line ";" = Some m
            /\ strings.SplitN2 line ";"
               = [take m line; drop (m + 1) line].
Proof.
  unfold skipped. intros H.
  repeat (apply orb_false_iff in H as [H ?]).
  apply negb_false_iff in H.
  exact (SplitN2_second line 59 [] H).
Qed.

(** The parser on a kept line: one record when the text after the first
    [;] holds a [#], a panic on [strings.Split(parts[1], "#")[1]] when it
    does not. *)
Lemma parseEmojiLine_kept line currentSubgroup parts1 :
  strings.HasPrefix line header = false -> skipped line = false ->
  strings.SplitN2 line ";" !! 1%nat = Some parts1 ->
  parseEmojiLine line currentSubgroup
  = (match strings.Split parts1 "#" !! 1%nat with
     | Some interestingBits =>
       Return [mkEmojiData (extractDescriptionAndEmoji interestingBits).1
                           (extractDescriptionAndEmoji interestingBits).2
                           currentSubgroup]
     | None => Panic
     end, currentSubgroup).
Proof.
  intros Hh Hs Hp. unfold parseEmojiLine, index. rewrite Hh, Hs, Hp.
  cbn -[strings.Split extractDescriptionAndEmoji].
  destruct (strings.Split parts1 "#" !! 1%nat) as [bits|]; [|done].
  cbn -[strings.Split extractDescriptionAndEmoji].
  by destruct (extractDescriptionAndEmoji bits).
Qed.

(** C9.  The parser is not total: on the line [a#b;c], which holds a [;]
    and a [#] and is not sent away by any test, the text after the first
    [;] is [c], its split at [#] has one piece only, and the index [1]
    taken into it panics, whatever the subgroup is. *)
Theorem parseEmojiLine_panics_on_hash_before_semicolon
        (currentSubgroup : gostring) :
  let line := "a#b;c" in
  strings.Contains line ";" = true
  /\ strings.Contains line "#" = true
  /\ strings.HasPrefix line header = false
  /\ skipped line = false
  /\ strings.SplitN2 line ";" = ["a#b"; "c"]
  /\ strings.Split "c" "#" = ["c"]
  /\ parseEmojiLine line currentSubgroup = (Panic, currentSubgroup).
Proof.
  cbn zeta. repeat apply conj; vm_compute; reflexivity.
Qed.

(** C4.  A line that contains [minimally-qualified], [unqualified] or
    [component] gives no record (and does not panic); hence among the
    lines annotated with one of the four qualification states only those
    with [fully-qualified] can give a record. *)
Theorem other_qualifications_give_no_record :
  (forall line currentSubgroup,
      strings.Contains line "minimally-qualified" = true
      \/ strings.Contains line "unqualified" = true
      \/ strings.Contains line "component" = true ->
      (parseEmojiLine line currentSubgroup).1 = Return [])
  /\ (forall before state after currentSubgroup emoji emojis,
         state ∈ ["fully-qualified"; "minimally-qualified";
                  "unqualified"; "component"] ->
         (parseEmojiLine (before ++ state ++ after) currentSubgroup).1
         = Return (emoji :: emojis) ->
         state = "fully-qualified").
Proof.
  assert (forall line currentSubgroup,
      strings.Contains line "minimally-qualified" = true
      \/ strings.Contains line "unqualified" = true
      \/ strings.Contains line "component" = true ->
      (parseEmojiLine line currentSubgroup).1 = Return []) as Hdrop.
  { intros line sub H. unfold parseEmojiLine.
    destruct (strings.HasPrefix line header); [done|].
    assert (skipped line = true) as ->; [|done].
    unfold skipped. destruct H as [-> | [-> | ->]];
      by rewrite ?orb_true_r. }
  split; [exact Hdrop|].
  intros before state after sub emoji emojis Hstate Hrec.
  repeat (apply elem_of_cons in Hstate as [-> | Hstate]);
    [reflexivity | | | |].
  - rewrite Hdrop in Hrec; [discriminate Hrec|]. left. apply Contains_app.
  - rewrite Hdrop in Hrec; [discriminate Hrec|].
    right; left. apply Contains_app.
  - rewrite Hdrop in Hrec; [discriminate Hrec|].
    right; right. apply Contains_app.
  - by apply elem_of_nil in Hstate.
Qed.

Lemma other_qualifications_give_no_record_witness :
  let line := "263A ; unqualified # x E0.6 smiling face" in
  strings.Contains line "unqualified" = true
  /\ (parseEmojiLine line "face-affection").1 = Return [].
Proof.
  split; [vm_compute; reflexivity|].
  apply (proj1 other_qualifications_give_no_record).
  right; left. vm_compute; reflexivity.
Defined.

Lemma extract_match input glyph description :
  annotationShape input glyph description ->
  exists g d, annotationShape input g d
              /\ extractDescriptionAndEmoji input
                 = (strings.TrimSpace g, junkFree d).
Proof.
  intros H%RegexpProps.re_derives_shape.
  destruct (RegexpProps.FindStringSubmatch_complete _ _ _ H) as [groups Hm].
  pose proof (RegexpProps.FindStringSubmatch_sound _ _ _ Hm) as Hd.
  pose proof (RegexpProps.derives_groupCount _ _ _ Hd) as Hlen.
  destruct groups as [|g [|d [|? ?]]]; try discriminate Hlen.
  exists g, d. split; [by apply RegexpProps.re_derives_shape|].
  unfold extractDescriptionAndEmoji. by rewrite Hm.
Qed.

Lemma extract_no_match input :
  (forall g d, ~ annotationShape input g d) ->
  extractDescriptionAndEmoji input = ([], []).
Proof.
  intros H. unfold extractDescriptionAndEmoji.
  destruct (regexp.FindStringSubmatch re input) as [groups|] eqn:Hm; [|done].
  pose proof (RegexpProps.FindStringSubmatch_sound _ _ _ Hm) as Hd.
  pose proof (RegexpProps.derives_groupCount _ _ _ Hd) as Hlen.
  destruct groups as [|g [|d [|? ?]]]; try discriminate Hlen.
  by apply RegexpProps.re_derives_shape, H in Hd.
Qed.

(** What the parser does on a line that passes the tests and whose text
    after the first [;] holds a [#]: exactly one record, with the current
    subgroup.  When the text between that [#] and the next has the shape
    [<glyph> E<digits>.<digits> <description>] the record holds a trimmed
    glyph and a cleaned description of that shape; when it has not, the
    record is still there, with an empty glyph and an empty description. *)
Lemma parseEmojiLine_kept_record
      (line currentSubgroup parts1 interestingBits : gostring) :
  strings.HasPrefix line header = false ->
  skipped line = false ->
  strings.SplitN2 line ";" !! 1%nat = Some parts1 ->
  strings.Split parts1 "#" !! 1%nat = Some interestingBits ->
  exists emoji description,
    parseEmojiLine line currentSubgroup
    = (Return [mkEmojiData emoji description currentSubgroup],
       currentSubgroup)
    /\ ((exists g d, annotationShape interestingBits g d) ->
        exists g d, annotationShape interestingBits g d
                    /\ emoji = strings.TrimSpace g
                    /\ description = junkFree d)
    /\ ((forall g d, ~ annotationShape interestingBits g d) ->
        emoji = [] /\ description = []).
Proof.
  intros Hh Hs Hp Hb.
  rewrite (parseEmojiLine_kept _ _ _ Hh Hs Hp), Hb.
  eexists _, _. split; [reflexivity|]. split.
  - intros (g & d & Hshape).
    destruct (extract_match _ _ _ Hshape) as (g' & d' & Hshape' & ->).
    by exists g', d'.
  - intros Hno. by rewrite (extract_no_match _ Hno).
Qed.

(** The parser panics on a kept line exactly when the text after the
    first [;] holds no [#]. *)
Lemma parseEmojiLine_panics_iff (line currentSubgroup parts1 : gostring) :
  strings.HasPrefix line header = false ->
  skipped line = false ->
  strings.SplitN2 line ";" !! 1%nat = Some parts1 ->
  (parseEmojiLine line currentSubgroup).1 = Panic
  <-> strings.Contains parts1 "#" = false.
Proof.
  intros Hh Hs Hp. rewrite (parseEmojiLine_kept _ _ _ Hh Hs Hp).
  pose proof (Split_second parts1 35 []) as Hsecond. cbn [fst].
  destruct (strings.Split parts1 "#" !! 1%nat) as [bits|].
  - split; [discriminate|]. intros Hc.
    destruct Hsecond as [Hsecond _]. rewrite Hsecond in Hc by by eexists.
    discriminate Hc.
  - split; [|done]. intros _.
    destruct (strings.Contains parts1 "#") eqn:Hc; [|done].
    destruct Hsecond as [_ Hsecond]. by destruct (Hsecond eq_refl).
Qed.

(** C2.  The claim fails on the code: the line
    [1F600 ; fully-qualified # grinning face] passes every test, its
    annotation has no version token, so the pattern does not match and
    [extractDescriptionAndEmoji] returns two empty strings, and the parser
    still returns a record, with an empty glyph and an empty description,
    where the claim says it returns none. *)
Theorem parseEmojiLine_keeps_record_without_match
        (currentSubgroup : gostring) :
  let line := "1F600 ; fully-qualified # grinning face" in
  strings.HasPrefix line header = false
  /\ skipped line = false
  /\ regexp.FindStringSubmatch re " grinning face" = None
  /\ extractDescriptionAndEmoji " grinning face" = ([], [])
  /\ parseEmojiLine line currentSubgroup
     = (Return [mkEmojiData [] [] currentSubgroup], currentSubgroup).
Proof. cbn zeta. repeat apply conj; vm_compute; reflexivity. Qed.

(** Each U+0020 becomes one hyphen: a run of spaces is a run of hyphens. *)
Lemma hyphenate_spaces text :
  strings.ReplaceAll text " " "-"
  = (fun c => if c =? 32 then 45 else c) <$> text.
Proof. apply (replaceFrom_single text 32 45). Qed.

Lemma junkFree_clean text c :
  c ∈ junkFree text -> c <> 32 /\ c <> 44 /\ c <> 58.
Proof.
  unfold junkFree. intros H.
  do 4 apply ReplaceAll_delete_subset in H.
  repeat split; intros ->.
  - do 2 apply ReplaceAll_delete_subset in H.
    apply TrimSpace_subset in H. rewrite hyphenate_spaces in H.
    apply list_elem_of_fmap in H as (c & Hc & _).
    destruct (Z.eqb_spec c 32); [discriminate Hc | congruence].
  - apply ReplaceAll_delete_subset in H.
    change (strings.ReplaceAll ?s "," [])
      with (strings.replaceFrom 0 s [44] []) in H.
    rewrite replaceFrom_delete in H.
    apply list_elem_of_filter in H as [H _]. by vm_compute in H.
  - change (strings.ReplaceAll ?s ":" [])
      with (strings.replaceFrom 0 s [58] []) in H.
    rewrite replaceFrom_delete in H.
    apply list_elem_of_filter in H as [H _]. by vm_compute in H.
Qed.

Lemma extract_description_clean input c :
  c ∈ (extractDescriptionAndEmoji input).2 -> c <> 32 /\ c <> 44 /\ c <> 58.
Proof.
  unfold extractDescriptionAndEmoji.
  destruct (regexp.FindStringSubmatch re input) as [[|g [|d [|? ?]]]|];
    simpl; try (by intros ?%elem_of_nil).
  apply junkFree_clean.
Qed.

(** The clean-up in its steps: a hyphen for each space, the two ends
    trimmed, commas and colons left out, and then the four literals of
    the source. *)
Lemma junkFree_steps text :
  junkFree text
  = strings.ReplaceAll
      (strings.ReplaceAll
         (strings.ReplaceAll
            (strings.ReplaceAll
               (filter (fun c => c <> 44 /\ c <> 58)
                  (strings.TrimSpace
                     ((fun c => if c =? 32 then 45 else c) <$> text)))
               "‚Äô" [])
            "‚Äò" [])
         "‚Äú" [])
      "‚Äù" [].
Proof.
  unfold junkFree. rewrite hyphenate_spaces. do 4 f_equal.
  change (strings.ReplaceAll ?s ":" [])
    with (strings.replaceFrom 0 s [58] []).
  change (strings.ReplaceAll ?s "," [])
    with (strings.replaceFrom 0 s [44] []).
  rewrite !replaceFrom_delete, list_filter_filter.
  apply list_filter_iff. intros c. unfold rune_eqb.
  destruct (Z.eqb_spec c 58), (Z.eqb_spec c 44); intuition congruence.
Qed.

Lemma junkFree_sublist text :
  junkFree text
  `sublist_of` filter (fun c => c <> 44 /\ c <> 58)
                 (strings.TrimSpace
                    ((fun c => if c =? 32 then 45 else c) <$> text)).
Proof.
  rewrite junkFree_steps.
  repeat (etrans; [apply ReplaceAll_delete_sublist|]). done.
Qed.

(** On a text without a quotation mark of the block U+2018..U+201F the
    four literals find nothing. *)
Lemma junkFree_exact text :
  (forall c, c ∈ text -> c < 8216 \/ 8223 < c) ->
  junkFree text
  = filter (fun c => c <> 44 /\ c <> 58)
      (strings.TrimSpace ((fun c => if c =? 32 then 45 else c) <$> text)).
Proof.
  intros Hq. rewrite junkFree_steps.
  set (cleaned := filter _ _).
  assert (8218 ∉ cleaned) as Hno.
  { unfold cleaned. intros [_ H]%list_elem_of_filter.
    apply TrimSpace_subset, list_elem_of_fmap in H as (c & Hc & Hin).
    specialize (Hq c Hin). destruct (Z.eqb_spec c 32); lia. }
  by do 4 rewrite (ReplaceAll_absent cleaned) by exact Hno.
Qed.

(** A rune that is ASCII or white space, other than space, comma and
    colon, and stands between two visible runes stays, a tab included. *)
Lemma junkFree_inside before c after :
  Exists (fun d => IsSpace d = false) before ->
  Exists (fun d => IsSpace d = false) after ->
  c < 128 \/ IsSpace c = true -> c <> 32 -> c <> 44 -> c <> 58 ->
  c ∈ junkFree (before ++ c :: after).
Proof.
  intros Hb Ha Hkind H32 H44 H58. unfold junkFree.
  assert (c <> 8218 /\ c <> 196 /\ c <> 244 /\ c <> 242 /\ c <> 250
          /\ c <> 249) as (? & ? & ? & ? & ? & ?).
  { destruct Hkind as [Hascii|Hsp]; [lia|].
    repeat split; intros ->; discriminate Hsp. }
  repeat (apply ReplaceAll_keeps;
          [|rewrite !not_elem_of_cons; repeat split;
            try apply not_elem_of_nil; done]).
  rewrite hyphenate_spaces, fmap_app, fmap_cons.
  destruct (Z.eqb_spec c 32) as [|_]; [done|].
  assert (forall l, Exists (fun d => IsSpace d = false) l ->
                    Exists (fun d => IsSpace d = false)
                           ((fun c => if c =? 32 then 45 else c) <$> l))
    as Hvisible.
  { intros l (d & Hd & Hsp)%Exists_exists. apply Exists_exists.
    exists d. split; [|done]. apply list_elem_of_fmap. exists d.
    split; [|done]. destruct (Z.eqb_spec d 32) as [->|]; [|done].
    discriminate Hsp. }
  apply TrimSpace_inside; by apply Hvisible.
Qed.

Lemma filter_all {A} (P : A -> Prop) `{!forall x, Decision (P x)} (l : list A) :
  Forall P l -> filter P l = l.
Proof.
  induction 1 as [|x l Hx Hl IH]; [done|].
  by rewrite filter_cons_True, IH.
Qed.

(** Two words with [n] spaces between them come out with [n] hyphens
    between them. *)
Lemma junkFree_words a b n :
  a <> [] -> b <> [] ->
  Forall (fun c => IsSpace c = false /\ c <> 44 /\ c <> 58
                   /\ (c < 8216 \/ 8223 < c)) a ->
  Forall (fun c => IsSpace c = false /\ c <> 44 /\ c <> 58
                   /\ (c < 8216 \/ 8223 < c)) b ->
  junkFree (a ++ replicate n 32 ++ b) = a ++ replicate n 45 ++ b.
Proof.
  intros Hane Hbne Ha Hb.
  assert (forall l,
             Forall (fun c => IsSpace c = false /\ c <> 44 /\ c <> 58
                              /\ (c < 8216 \/ 8223 < c)) l ->
             (fun c => if c =? 32 then 45 else c) <$> l = l) as Hsame.
  { induction 1 as [|x l (Hx & _) _ IH]; [done|].
    rewrite fmap_cons, IH. f_equal.
    destruct (Z.eqb_spec x 32) as [->|]; [discriminate Hx | done]. }
  rewrite junkFree_exact.
  - rewrite !fmap_app, fmap_replicate, (Hsame a Ha), (Hsame b Hb).
    change (if 32 =? 32 then 45 else 32) with 45.
    assert (Forall (fun c => c <> 44 /\ c <> 58)
                   (a ++ replicate n 45 ++ b)) as Hall.
    { apply Forall_app. split; [|apply Forall_app; split].
      - eapply Forall_impl; [exact Ha|]. by intros c (_ & ? & ? & _).
      - apply Forall_replicate. split; discriminate.
      - eapply Forall_impl; [exact Hb|]. by intros c (_ & ? & ? & _). }
    assert (strings.TrimSpace (a ++ replicate n 45 ++ b)
            = a ++ replicate n 45 ++ b) as ->; [|by apply filter_all].
    destruct a as [|x a]; [done|].
    destruct (exists_last Hbne) as (b' & y & ->).
    apply Forall_cons in Ha as [(Hx & _) _].
    apply Forall_app in Hb as [_ Hy].
    apply Forall_cons in Hy as [(Hy & _) _].
    replace ((x :: a) ++ replicate n 45 ++ b' ++ [y])
      with (x :: (a ++ replicate n 45 ++ b') ++ [y])
      by (by rewrite <- !app_assoc).
    by apply TrimSpace_plain.
  - intros c [Hc|[Hc|Hc]%elem_of_app]%elem_of_app.
    + apply (proj1 (Forall_forall _ _) Ha) in Hc. tauto.
    + apply elem_of_replicate in Hc as [-> _]. lia.
    + apply (proj1 (Forall_forall _ _) Hb) in Hc. tauto.
Qed.

(** C3, as the code has it.  The description of every record the parser
    returns holds no U+0020 space, no comma and no colon.  On a line that
    is kept and whose annotation matches, the one record has the trimmed
    glyph and a description made from the text of the second group: each
    U+0020 becomes one hyphen, the white space at the two ends is trimmed
    and the commas and colons are left out; the clean-up of quotation
    marks that follows only leaves runes out, and leaves none out of a
    text that has no quotation mark.  So a run of [n] spaces between two
    words gives [n] hyphens, and a rune that is ASCII or white space,
    other than space, comma and colon, stays inside the text, a tab
    included. *)
Theorem description_has_no_space_comma_colon
        (line currentSubgroup : gostring) (emojis : list EmojiData) :
  (parseEmojiLine line currentSubgroup).1 = Return emojis ->
  Forall (fun emoji =>
            (32 ∉ Description emoji) /\ (44 ∉ Description emoji)
            /\ (58 ∉ Description emoji)) emojis
  /\ (forall parts1 interestingBits glyph text,
         strings.HasPrefix line header = false ->
         skipped line = false ->
         strings.SplitN2 line ";" !! 1%nat = Some parts1 ->
         strings.Split parts1 "#" !! 1%nat = Some interestingBits ->
         regexp.FindStringSubmatch re interestingBits = Some [glyph; text] ->
         exists description,
           emojis = [mkEmojiData (strings.TrimSpace glyph) description
                                 currentSubgroup]
           /\ description
              `sublist_of` filter (fun c => c <> 44 /\ c <> 58)
                             (strings.TrimSpace
                                ((fun c => if c =? 32 then 45 else c)
                                   <$> text))
           /\ ((forall c, c ∈ text -> c < 8216 \/ 8223 < c) ->
               description
               = filter (fun c => c <> 44 /\ c <> 58)
                   (strings.TrimSpace
                      ((fun c => if c =? 32 then 45 else c) <$> text)))
           /\ (forall a b n,
                  text = a ++ replicate n 32 ++ b ->
                  a <> [] -> b <> [] ->
                  Forall (fun c => IsSpace c = false /\ c <> 44 /\ c <> 58
                                   /\ (c < 8216 \/ 8223 < c)) a ->
                  Forall (fun c => IsSpace c = false /\ c <> 44 /\ c <> 58
                                   /\ (c < 8216 \/ 8223 < c)) b ->
                  description = a ++ replicate n 45 ++ b)
           /\ (forall before c after,
                  text = before ++ c :: after ->
                  Exists (fun d => IsSpace d = false) before ->
                  Exists (fun d => IsSpace d = false) after ->
                  c < 128 \/ IsSpace c = true ->
                  c <> 32 -> c <> 44 -> c <> 58 ->
                  c ∈ description)).
Proof.
  intros H. split.
  - unfold parseEmojiLine in H.
    destruct (strings.HasPrefix line header);
      [injection H as <-; constructor|].
    destruct (skipped line); [injection H as <-; constructor|].
    cbn -[strings.Split strings.SplitN2 extractDescriptionAndEmoji] in H.
    destruct (index (strings.SplitN2 line ";") 1) as [parts1|];
      [|discriminate H].
    cbn -[strings.Split strings.SplitN2 extractDescriptionAndEmoji] in H.
    destruct (index (strings.Split parts1 "#") 1) as [bits|];
      [|discriminate H].
    cbn -[strings.Split strings.SplitN2 extractDescriptionAndEmoji] in H.
    pose proof (extract_description_clean bits) as Hclean.
    destruct (extractDescriptionAndEmoji bits) as [emoji description].
    injection H as <-. simpl in Hclean.
    repeat constructor; simpl; intros Hin;
      destruct (Hclean _ Hin) as (? & ? & ?); congruence.
  - intros parts1 bits glyph text Hh Hs Hp Hb Hm.
    rewrite (parseEmojiLine_kept _ _ _ Hh Hs Hp), Hb in H.
    unfold extractDescriptionAndEmoji in H. rewrite Hm in H.
    cbn [fst snd] in H. injection H as <-.
    exists (junkFree text). split; [reflexivity|].
    split; [apply junkFree_sublist|].
    split; [apply junkFree_exact|]. split.
    + intros a b n -> Ha Hb' Hpa Hpb. by apply junkFree_words.
    + intros before c after -> Hbe Haf Hkind H32 H44 H58.
      by apply junkFree_inside.
Qed.

Lemma description_has_no_space_comma_colon_witness :
  let line := "1F9D1 ; fully-qualified # X E12.1 person: light skin tone, beard" in
  let emoji := mkEmojiData "X" "person-light-skin-tone-beard"
                           "person" in
  (parseEmojiLine line "person").1 = Return [emoji]
  /\ Forall (fun emoji =>
               (32 ∉ Description emoji) /\ (44 ∉ Description emoji)
               /\ (58 ∉ Description emoji)) [emoji]
  /\ regexp.FindStringSubmatch re " X E12.1 person: light skin tone, beard"
     = Some ["X"; "person: light skin tone, beard"]
  /\ Description emoji
     = filter (fun c => c <> 44 /\ c <> 58)
         (strings.TrimSpace
            ((fun c => if c =? 32 then 45 else c)
               <$> "person: light skin tone, beard")).
Proof.
  intros line emoji.
  assert ((parseEmojiLine line "person").1 = Return [emoji]) as H
      by (vm_compute; reflexivity).
  assert (regexp.FindStringSubmatch re " X E12.1 person: light skin tone, beard"
          = Some ["X"; "person: light skin tone, beard"]) as Hm
      by (vm_compute; reflexivity).
  destruct (description_has_no_space_comma_colon _ _ _ H) as [Hclean Hmade].
  split; [exact H|]. split; [exact Hclean|]. split; [exact Hm|].
  destruct (Hmade " fully-qualified # X E12.1 person: light skin tone, beard"
                  " X E12.1 person: light skin tone, beard"
                  "X" "person: light skin tone, beard")
    as (description & Hrec & _ & Hexact & _);
    [vm_compute; reflexivity..| exact Hm |].
  transitivity description.
  { exact (f_equal (fun l => match l with
                             | [e] => Description e
                             | _ => []
                             end) Hrec). }
  apply Hexact. intros c Hc. left.
  revert c Hc. apply Forall_forall.
  apply (bool_decide_unpack _). vm_compute; reflexivity.
Defined.

(** The line of C3 on which the claim fails: a tab inside the description
    stays, and the two spaces become two hyphens. *)
Lemma description_keeps_tab_and_doubles_hyphen :
  let line := "1F600 ; fully-qualified # X E1.0 a" ++ [9] ++ "b  c" in
  parseEmojiLine line "face-smiling"
  = (Return [mkEmojiData "X" ("a" ++ [9] ++ "b--c")
                         "face-smiling"], "face-smiling")
  /\ IsSpace 9 = true
  /\ 9 ∈ ("a" ++ [9] ++ "b--c").
Proof.
  cbn zeta. repeat apply conj; try (vm_compute; reflexivity).
  apply list_elem_of_further, list_elem_of_here.
Qed.

(** The four literals deleted last are, in the source file as it stands,
    three-rune strings that start with U+201A; a typographic apostrophe
    U+2019 in a description is not one of them. *)
Example junkFree_on_apostrophe :
  "‚Äô" = [8218; 196; 244]
  /\ junkFree "a’b" = [97; 8217; 98]
  /\ junkFree "a‚Äôb" = "ab".
Proof. repeat apply conj; vm_compute; reflexivity. Qed.

End EmojiTestProps.

(** ** The scan of the emoji-test.txt program *)

Module EmojiTestScanProps.
Import EmojiTest EmojiTestSpec EmojiTestProps.

Implicit Types line h : gostring.
Implicit Types data lines : list gostring.

(** A line that is not a header leaves the subgroup alone, and its
    records, one at most, carry the subgroup the parser was given. *)
Lemma parseEmojiLine_data line subgroup :
  strings.HasPrefix line header = false ->
  (parseEmojiLine line subgroup).2 = subgroup
  /\ forall emojis,
      (parseEmojiLine line subgroup).1 = Return emojis ->
      Forall (fun e => Subgroup e = subgroup) emojis
      /\ (length emojis <= 1)%nat.
Proof.
  intros Hh. unfold parseEmojiLine. rewrite Hh.
  destruct (skipped line).
  - split; [done|]. intros ? [= <-]. split; [constructor | simpl; lia].
  - split; [done|]. cbn -[strings.Split strings.SplitN2
                          extractDescriptionAndEmoji].
    destruct (index (strings.SplitN2 line ";") 1) as [parts1|];
      [|discriminate].
    cbn -[strings.Split strings.SplitN2 extractDescriptionAndEmoji].
    destruct (index (strings.Split parts1 "#") 1) as [bits|];
      [|discriminate].
    cbn -[strings.Split strings.SplitN2 extractDescriptionAndEmoji].
    destruct (extractDescriptionAndEmoji bits) as [emoji description].
    intros ? [= <-]. split; [by repeat constructor | simpl; lia].
Qed.

Lemma readLine_header h currentSubgroup :
  strings.HasPrefix h header = true ->
  readLine h currentSubgroup = (Return [], Some (subgroupOf h)).
Proof. unfold readLine. by intros ->. Qed.

Lemma readLine_unset line :
  strings.HasPrefix line header = false ->
  readLine line None = (Return [], None).
Proof. unfold readLine. by intros ->. Qed.

Lemma readLine_data line subgroup :
  strings.HasPrefix line header = false ->
  readLine line (Some subgroup)
  = ((parseEmojiLine line subgroup).1, Some subgroup).
Proof.
  intros Hh. unfold readLine. rewrite Hh.
  destruct (parseEmojiLine_data line subgroup Hh) as [Hst _].
  destruct (parseEmojiLine line subgroup) as [r st]. simpl in *. by subst.
Qed.

Lemma records_cons line lines currentSubgroup :
  records (line :: lines) currentSubgroup
  = (here ← (readLine line currentSubgroup).1;
     later ← records lines (readLine line currentSubgroup).2;
     mret (here ++ later)).
Proof. simpl. by destruct (readLine line currentSubgroup). Qed.

(** Between two headers every record has the subgroup of the first. *)
Lemma records_data data subgroup emojis :
  Forall isData data ->
  records data (Some subgroup) = Return emojis ->
  Forall (fun e => Subgroup e = subgroup) emojis.
Proof.
  revert emojis; induction data as [|line data IH]; intros emojis Hd H.
  - injection H as <-. constructor.
  - apply Forall_cons in Hd as [Hl Hd].
    rewrite records_cons, (readLine_data _ _ Hl) in H. simpl in H.
    destruct (parseEmojiLine_data line subgroup Hl) as [_ Hrec].
    destruct (parseEmojiLine line subgroup).1 as [here|]; [|discriminate H].
    simpl in H.
    destruct (records data (Some subgroup)) as [later|]; [|discriminate H].
    injection H as <-. apply Forall_app. split.
    + by apply Hrec.
    + by apply IH.
Qed.

(** The records of a stretch of data lines followed by anything. *)
Lemma records_data_app data rest subgroup emojis :
  Forall isData data ->
  records (data ++ rest) (Some subgroup) = Return emojis ->
  exists first second,
    records data (Some subgroup) = Return first
    /\ records rest (Some subgroup) = Return second
    /\ emojis = first ++ second.
Proof.
  revert emojis; induction data as [|line data IH]; intros emojis Hd H.
  - exists [], emojis. by repeat split.
  - apply Forall_cons in Hd as [Hl Hd].
    change ((line :: data) ++ rest) with (line :: (data ++ rest)) in H.
    rewrite records_cons, (readLine_data _ _ Hl) in H. simpl in H.
    rewrite records_cons, (readLine_data _ _ Hl). simpl.
    destruct (parseEmojiLine line subgroup).1 as [here|]; [|discriminate H].
    simpl in *.
    destruct (records (data ++ rest) (Some subgroup)) as [later|] eqn:E;
      [|discriminate H].
    injection H as <-.
    destruct (IH _ Hd eq_refl) as (first & second & -> & -> & ->).
    exists (here ++ first), second. simpl. by rewrite app_assoc.
Qed.

Lemma records_producing data subgroup :
  Forall isData data -> Forall producing data ->
  exists emojis, records data (Some subgroup) = Return emojis
                 /\ length emojis = length data.
Proof.
  induction data as [|line data IH]; intros Hd Hp.
  - by exists [].
  - apply Forall_cons in Hd as [Hl Hd]. apply Forall_cons in Hp as [Hy Hp].
    destruct (IH Hd Hp) as (later & Hlater & Hlen).
    destruct Hy as (emoji & description & Hy).
    rewrite records_cons, (readLine_data _ _ Hl), Hy. simpl.
    rewrite Hlater. simpl. eexists. split; [reflexivity|]. simpl. by rewrite Hlen.
Qed.

Section Scan.

Variable displayEmojis : bool.
Variable json_Marshal : AlfredSnippet -> result gostring.

Lemma scan_cons line lines currentSubgroup filesToZip w :
  scan displayEmojis json_Marshal (line :: lines) currentSubgroup filesToZip w
  = match (readLine line currentSubgroup).1 with
    | Return emojiData =>
      match emitAll displayEmojis json_Marshal emojiData filesToZip w with
      | (Return filesToZip', w') =>
        scan displayEmojis json_Marshal lines
             (readLine line currentSubgroup).2 filesToZip' w'
      | (Panic, w') => (Panic, w')
      end
    | Panic => (Panic, w)
    end.
Proof.
  cbn [scan]. destruct (readLine line currentSubgroup) as [[emojiData|] st];
    reflexivity.
Qed.

(** C10.  While no subgroup header has been met the scan passes over
    every line, a well-formed fully-qualified one included: no record, no
    call of the parser, no change of the machine (nothing printed, nothing
    written), and the pointer stays nil; the scan of such lines followed
    by others is the scan of the others. *)
Theorem lines_before_first_header_are_passed_over
        (before rest : list gostring) (filesToZip : list gostring)
        (w : World) :
  Forall (fun line => strings.HasPrefix line header = false) before ->
  records before None = Return []
  /\ scan displayEmojis json_Marshal before None filesToZip w
     = (Return (None, filesToZip), w)
  /\ scan displayEmojis json_Marshal (before ++ rest) None filesToZip w
     = scan displayEmojis json_Marshal rest None filesToZip w
  /\ records (before ++ rest) None = records rest None.
Proof.
  induction before as [|line before IH]; intros Hb.
  - repeat split.
  - apply Forall_cons in Hb as [Hl Hb].
    destruct (IH Hb) as (IH1 & IH2 & IH3 & IH4).
    change ((line :: before) ++ rest) with (line :: (before ++ rest)).
    rewrite !records_cons, !scan_cons, (readLine_unset _ Hl). simpl.
    rewrite IH1, IH2, IH3, IH4. repeat split.
    by destruct (records rest None).
Qed.

End Scan.

Lemma lines_before_first_header_are_passed_over_witness :
  let line := "1F47B ; fully-qualified # X E0.6 ghost" in
  Forall (fun line => strings.HasPrefix line header = false) [line]
  /\ (parseEmojiLine line "face-costume").1
     = Return [mkEmojiData "X" "ghost" "face-costume"]
  /\ records [line] None = Return []
  /\ scan false jsonText [line] None [] bareWorld
     = (Return (None, []), bareWorld).
Proof.
  intros line.
  assert (Forall (fun line => strings.HasPrefix line header = false) [line])
    as Hb by (repeat constructor; vm_compute; reflexivity).
  destruct (lines_before_first_header_are_passed_over
              false jsonText [line] [] [] bareWorld Hb) as (H1 & H2 & _).
  repeat apply conj; [exact Hb | vm_compute; reflexivity | exact H1 | exact H2].
Defined.

End EmojiTestScanProps.

(** ** The runs of the emoji-test.txt program *)

Module EmojiTestRunProps.
Import EmojiTest EmojiTestSpec Trace.

Lemma io_bind {A B} (m : IO A) (f : A -> IO B) w :
  (m ≫= f) w = match m w with
               | (Return a, w1) => f a w1
               | (Panic, w1) => (Panic, w1)
               end.
Proof. reflexivity. Qed.

Lemma printed_nil w : printed [] w = w.
Proof. destruct w. unfold printed. simpl. by rewrite app_nil_r. Qed.

Lemma printed_printed a b w : printed b (printed a w) = printed (a ++ b) w.
Proof. unfold printed. simpl. by rewrite app_assoc. Qed.

Lemma replay_app deny cs1 cs2 fs :
  replay deny (cs1 ++ cs2) fs = replay deny cs2 (replay deny cs1 fs).
Proof.
  revert fs; induction cs1 as [|c cs1 IH]; intros fs; [done|].
  destruct c; simpl; by rewrite ?IH.
Qed.

Lemma written_app deny cs1 cs2 :
  written deny (cs1 ++ cs2) = written deny cs1 ++ written deny cs2.
Proof.
  induction cs1 as [|c cs1 IH]; [done|].
  destruct c; simpl; rewrite ?IH; try done. by destruct (deny path).
Qed.

Section Run.

Variable unicodeVersion : gostring.
Variable fetchEmojiData : gostring -> result (list gostring).
Variable json_Marshal : AlfredSnippet -> result gostring.

Lemma emitAll_app d (a b : list EmojiData) filesToZip w :
  emitAll d json_Marshal (a ++ b) filesToZip w
  = match emitAll d json_Marshal a filesToZip w with
    | (Return filesToZip', w') => emitAll d json_Marshal b filesToZip' w'
    | (Panic, w') => (Panic, w')
    end.
Proof.
  revert filesToZip w; induction a as [|e a IH]; intros filesToZip w; [done|].
  cbn [app emitAll]. rewrite !io_bind.
  destruct (emit d json_Marshal e filesToZip w) as [[f1|] w1]; [|done].
  apply IH.
Qed.

(** The scan is the emission of the records it meets. *)
Lemma scan_records d lines currentSubgroup emojis filesToZip w :
  records lines currentSubgroup = Return emojis ->
  scan d json_Marshal lines currentSubgroup filesToZip w
  = match emitAll d json_Marshal emojis filesToZip w with
    | (Return filesToZip', w') =>
      (Return (context lines currentSubgroup, filesToZip'), w')
    | (Panic, w') => (Panic, w')
    end.
Proof.
  revert currentSubgroup emojis filesToZip w.
  induction lines as [|line lines IH]; intros cur emojis filesToZip w H.
  - injection H as <-. reflexivity.
  - rewrite EmojiTestScanProps.records_cons in H.
    rewrite EmojiTestScanProps.scan_cons. cbn [context].
    destruct (readLine line cur).1 as [here|]; [|discriminate H].
    simpl in H.
    destruct (records lines (readLine line cur).2) as [later|] eqn:E;
      [|discriminate H].
    injection H as <-. rewrite emitAll_app.
    destruct (emitAll d json_Marshal here filesToZip w) as [[f1|] w1];
      [|done].
    by apply IH.
Qed.

Lemma emitAll_preview emojis filesToZip w :
  emitAll true json_Marshal emojis filesToZip w
  = (Return filesToZip, printed (preview <$> emojis) w).
Proof.
  revert w; induction emojis as [|e emojis IH]; intros w.
  - simpl. by rewrite printed_nil.
  - cbn [emitAll fmap list_fmap]. rewrite io_bind.
    assert (emit true json_Marshal e filesToZip w
            = (Return filesToZip, printed [preview e] w)) as -> by done.
    rewrite IH, printed_printed. reflexivity.
Qed.

Lemma WriteFile_run path data w :
  os.WriteFile path data w
  = (Return (denied w path), wrote [CallWriteFile path data] [] 0 w).
Proof.
  unfold os.WriteFile, wrote. simpl.
  rewrite app_nil_r, Nat.add_0_r. by destruct (denied w path).
Qed.

Lemma wrote_wrote cs1 out1 n1 cs2 out2 n2 w :
  wrote cs2 out2 n2 (wrote cs1 out1 n1 w)
  = wrote (cs1 ++ cs2) (out1 ++ out2) (n1 + n2) w.
Proof.
  unfold wrote. simpl. by rewrite replay_app, !app_assoc, Nat.add_assoc.
Qed.

Lemma emit_package e filesToZip w :
  let cs := snippetWrites json_Marshal (uuidSource w) (drawn w) [e] in
  exists out,
    emit false json_Marshal e filesToZip w
    = (Return (filesToZip ++ (written (denied w) cs).*1), wrote cs out 1 w).
Proof.
  unfold emit. cbn [negb snippetWrites]. rewrite io_bind.
  unfold generateUID at 1. cbn [fst snd].
  unfold generateAlfredSnippetJSON.
  fold (snippetOf e (strings.ToUpper (uuidSource w (drawn w)))).
  rewrite io_bind.
  destruct (json_Marshal (snippetOf e (strings.ToUpper (uuidSource w (drawn w)))))
    as [jsonData|err].
  - rewrite WriteFile_run. unfold wrote. cbn [files stdout calls
      drawn uuidSource denied zipBytes replay written].
    destruct (denied w (snippetPath e (strings.ToUpper (uuidSource w (drawn w)))))
      as [e0|]; simpl.
    + eexists [_]. rewrite !app_nil_r, Nat.add_0_r, Nat.add_1_r. reflexivity.
    + exists []. rewrite !app_nil_r, Nat.add_0_r, Nat.add_1_r. reflexivity.
  - simpl. eexists [_]. unfold wrote. simpl.
    rewrite !app_nil_r, Nat.add_1_r. reflexivity.
Qed.

Lemma snippetWrites_cons source n e emojis :
  snippetWrites json_Marshal source n (e :: emojis)
  = snippetWrites json_Marshal source n [e]
    ++ snippetWrites json_Marshal source (S n) emojis.
Proof.
  simpl. by destruct (json_Marshal (snippetOf e (strings.ToUpper (source n)))).
Qed.

Lemma emitAll_package emojis filesToZip w :
  let cs := snippetWrites json_Marshal (uuidSource w) (drawn w) emojis in
  exists out,
    emitAll false json_Marshal emojis filesToZip w
    = (Return (filesToZip ++ (written (denied w) cs).*1),
       wrote cs out (length emojis) w).
Proof.
  revert filesToZip w; induction emojis as [|e emojis IH]; intros filesToZip w.
  - exists []. simpl. unfold wrote. simpl. destruct w. simpl.
    by rewrite !app_nil_r, Nat.add_0_r.
  - cbn zeta. rewrite snippetWrites_cons.
    cbn [emitAll]. rewrite io_bind.
    destruct (emit_package e filesToZip w) as [out1 ->].
    destruct (IH (filesToZip
                  ++ (written (denied w)
                        (snippetWrites json_Marshal (uuidSource w) (drawn w) [e])).*1)
                 (wrote (snippetWrites json_Marshal (uuidSource w) (drawn w) [e])
                        out1 1 w)) as [out2 ->].
    exists (out1 ++ out2). rewrite wrote_wrote.
    cbn [denied uuidSource drawn wrote].
    rewrite Nat.add_1_r, written_app, fmap_app, app_assoc. reflexivity.
Qed.

Lemma bytesAt_regular path data w :
  files w !! path = Some (Regular data) -> bytesAt w path = Some data.
Proof. unfold bytesAt. by intros ->. Qed.

Lemma bytesAt_archived zipWriter es path w :
  path <> zipWriter -> bytesAt (archived zipWriter es w) path = bytesAt w path.
Proof.
  intros H. unfold bytesAt, archived. cbn [files].
  by rewrite lookup_insert_ne.
Qed.

Lemma entriesAt_container zipWriter es w :
  files w !! zipWriter = Some (Container es) -> entriesAt w zipWriter = es.
Proof. unfold entriesAt. by intros ->. Qed.

Lemma archived_archived zipWriter es1 es2 w :
  archived zipWriter es2 (archived zipWriter es1 w) = archived zipWriter es2 w.
Proof. unfold archived. cbn [files]. by rewrite insert_insert_eq. Qed.

Lemma archived_same zipWriter es w :
  files w !! zipWriter = Some (Container es) -> archived zipWriter es w = w.
Proof.
  intros H. unfold archived. rewrite (insert_id _ _ _ H). by destruct w.
Qed.

Lemma addFileToZip_found zipWriter filename data w :
  bytesAt w filename = Some data ->
  addFileToZip zipWriter filename w
  = (Return None,
     archived zipWriter
       (entriesAt w zipWriter ++ [baseEntry (filename, data)]) w).
Proof.
  intros H. unfold addFileToZip. rewrite io_bind.
  unfold os.ReadAll at 1. rewrite H.
  unfold baseEntry. simpl.
  by destruct (filepath.Split filename).
Qed.

(** The archive builder on files that are all there and are not the
    archive itself: one entry for each, in order, under the base name and
    with the bytes on disk. *)
Lemma addFiles_found zipWriter (found : list (gostring * gostring)) es w :
  files w !! zipWriter = Some (Container es) ->
  zipWriter ∉ found.*1 ->
  Forall (fun file => bytesAt w file.1 = Some file.2) found ->
  addFiles zipWriter found.*1 w
  = (Return None, archived zipWriter (es ++ (baseEntry <$> found)) w).
Proof.
  revert es w; induction found as [|[f d] found IH]; intros es w Hes Hz Hall.
  - simpl. by rewrite app_nil_r, archived_same.
  - apply Forall_cons in Hall as [Hf Hall]. simpl in Hf.
    cbn [fmap list_fmap fst] in Hz. apply not_elem_of_cons in Hz as [Hzf Hz].
    cbn [fmap list_fmap fst addFiles]. rewrite io_bind.
    rewrite (addFileToZip_found _ _ _ _ Hf), (entriesAt_container _ _ _ Hes).
    rewrite (IH (es ++ [baseEntry (f, d)])).
    + by rewrite archived_archived, <- app_assoc.
    + unfold archived. cbn [files]. apply lookup_insert_eq.
    + exact Hz.
    + apply Forall_forall. intros file Hin.
      rewrite bytesAt_archived.
      * by apply (proj1 (Forall_forall _ _) Hall).
      * intros E. apply Hz. rewrite <- E. by apply list_elem_of_fmap_2.
Qed.

Lemma Create_run filename w :
  denied w filename = None ->
  os.Create filename w
  = (Return None, archived filename [] (logged [CallCreate filename] w)).
Proof. intros Hd. unfold os.Create. simpl. by rewrite Hd. Qed.

Lemma Create_denied filename e w :
  denied w filename = Some e ->
  os.Create filename w = (Return (Some e), logged [CallCreate filename] w).
Proof. intros Hd. unfold os.Create. simpl. by rewrite Hd. Qed.

Lemma zipFiles_found filename (found : list (gostring * gostring)) w :
  denied w filename = None ->
  filename ∉ found.*1 ->
  Forall (fun file => bytesAt w file.1 = Some file.2) found ->
  zipFiles filename found.*1 w
  = (Return None,
     archived filename (baseEntry <$> found) (logged [CallCreate filename] w)).
Proof.
  intros Hd Hz Hall. unfold zipFiles. rewrite io_bind, Create_run by done.
  rewrite (addFiles_found _ found []).
  - by rewrite archived_archived.
  - unfold archived. cbn [files]. apply lookup_insert_eq.
  - exact Hz.
  - apply Forall_forall. intros file Hin.
    rewrite bytesAt_archived.
    + by apply (proj1 (Forall_forall _ _) Hall).
    + intros E. apply Hz. rewrite <- E. by apply list_elem_of_fmap_2.
Qed.

(** Whatever happens, the archive builder makes the one call [os.Create],
    prints nothing, touches no file but the archive and does not panic. *)
Lemma addFiles_frame zipWriter fs w :
  exists err w',
    addFiles zipWriter fs w = (Return err, w')
    /\ calls w' = calls w /\ stdout w' = stdout w
    /\ forall path, path <> zipWriter -> files w' !! path = files w !! path.
Proof.
  revert w; induction fs as [|f fs IH]; intros w.
  - by exists None, w.
  - cbn [addFiles]. rewrite io_bind. unfold addFileToZip at 1.
    rewrite io_bind. unfold os.ReadAll at 1.
    destruct (bytesAt w f) as [data|].
    + simpl. destruct (filepath.Split f) as [dir name]. simpl.
      match goal with |- context [addFiles _ _ ?w1] =>
        destruct (IH w1) as (err & w' & -> & Hc & Hs & Hf) end.
      exists err, w'. repeat split; [done..|].
      intros path Hne. rewrite Hf by done. cbn [files].
      by apply lookup_insert_ne.
    + simpl. by eexists _, w.
Qed.

Lemma zipFiles_frame filename fs w :
  exists err w',
    zipFiles filename fs w = (Return err, w')
    /\ calls w' = calls w ++ [CallCreate filename]
    /\ stdout w' = stdout w
    /\ forall path, path <> filename -> files w' !! path = files w !! path.
Proof.
  unfold zipFiles. rewrite io_bind. unfold os.Create at 1. simpl.
  destruct (denied w filename) as [e|]; simpl.
  - by eexists _, _.
  - match goal with |- context [addFiles _ _ ?w1] =>
      destruct (addFiles_frame filename fs w1)
        as (err & w' & -> & Hc & Hs & Hf) end.
    exists err, w'. repeat split; [done..|].
    intros path Hne. rewrite Hf by done. cbn [files].
    by apply lookup_insert_ne.
Qed.

Lemma main_start (k : IO ()) w :
  (os.Mkdir "build";; os.Mkdir "dist";; k) w
  = k (logged mkdirs w).
Proof.
  rewrite io_bind. unfold os.Mkdir at 1, called at 1.
  rewrite io_bind. unfold os.Mkdir at 1, called at 1.
  unfold logged, mkdirs. simpl. by rewrite <- app_assoc.
Qed.

(** Preview mode: one console line for each record, the two [os.Mkdir]
    calls, and nothing else. *)
Lemma main_preview lines emojis w :
  fetchEmojiData (url unicodeVersion) = Ok lines ->
  records lines None = Return emojis ->
  main true unicodeVersion fetchEmojiData json_Marshal w
  = (Return tt, printed (preview <$> emojis) (logged mkdirs w)).
Proof.
  intros Hf Hr. unfold main. rewrite main_start. unfold url in Hf. rewrite Hf.
  rewrite io_bind, (scan_records _ _ _ _ _ _ Hr), emitAll_preview.
  reflexivity.
Qed.

Lemma package_calls filesToZip w :
  exists w' tail,
    package unicodeVersion filesToZip w = (Return tt, w')
    /\ calls w' = calls w ++ [plistCall; CallCreate (zipFileName unicodeVersion)]
                  ++ tail
    /\ (tail = [] \/ tail = [CallRemoveAll "build"]).
Proof.
  unfold package, plistCall, plistFileName. cbn zeta. rewrite io_bind.
  unfold generateInfoPlist at 1. rewrite WriteFile_run. cbn [denied wrote].
  set (w1 := wrote _ _ _ w).
  assert (calls w1
          = calls w ++ [CallWriteFile (filepath.Join ["build"; "info.plist"])
                                      (plistContent ":")]) as Hc1
      by reflexivity.
  clearbody w1.
  assert (exists w2 files2,
             (match denied w (filepath.Join ["build"; "info.plist"]) with
              | Some e =>
                fmt.Printf ("Error generating info.plist: " ++ e ++ newline);;
                mret filesToZip
              | None =>
                mret (filesToZip ++ [filepath.Join ["build"; "info.plist"]])
              end) w1 = (Return files2, w2) /\ calls w2 = calls w1)
    as (w2 & files2 & Hstep & Hc2).
  { destruct (denied w _); by eexists _, _. }
  rewrite io_bind, Hstep. rewrite Hc1 in Hc2. clear Hstep Hc1.
  rewrite io_bind.
  destruct (zipFiles_frame (zipFileName unicodeVersion)
              (files2 ++ ["../icon.png"]) w2)
    as (err & w3 & -> & Hc & _ & _).
  rewrite Hc2 in Hc.
  destruct err as [e'|].
  - eexists _, []. split; [reflexivity|]. simpl.
    rewrite Hc, <- app_assoc. by split; [|left].
  - eexists _, [_]. split; [reflexivity|]. simpl.
    rewrite Hc, <- !app_assoc. by split; [|right].
Qed.

(** Package mode: the two [os.Mkdir] calls, one [os.WriteFile] for each
    record whose snippet marshals, the write of info.plist, the creation
    of the archive and, when the archive was built, the clean-up. *)
Lemma main_package_calls lines emojis w :
  fetchEmojiData (url unicodeVersion) = Ok lines ->
  records lines None = Return emojis ->
  exists w' tail,
    main false unicodeVersion fetchEmojiData json_Marshal w = (Return tt, w')
    /\ calls w'
       = calls w ++ mkdirs
         ++ snippetWrites json_Marshal (uuidSource w) (drawn w) emojis
         ++ [plistCall; CallCreate (zipFileName unicodeVersion)] ++ tail
    /\ (tail = [] \/ tail = [CallRemoveAll "build"]).
Proof.
  intros Hf Hr. unfold main. rewrite main_start. unfold url in Hf. rewrite Hf.
  rewrite io_bind, (scan_records _ _ _ _ _ _ Hr).
  destruct (emitAll_package emojis [] (logged mkdirs w)) as [out ->].
  cbn [negb].
  match goal with |- context [package _ ?f ?w1] =>
    destruct (package_calls f w1) as (w' & tail & -> & Hc & Ht) end.
  exists w', tail. split; [reflexivity|]. split; [|exact Ht].
  rewrite Hc. simpl. by rewrite <- !app_assoc.
Qed.

Lemma replay_lookup_notin deny cs fs path :
  path ∉ writePaths cs -> replay deny cs fs !! path = fs !! path.
Proof.
  revert fs; induction cs as [|c cs IH]; intros fs Hn; [done|].
  destruct c as [?|p d|?|?|?]; simpl in *; try by apply IH.
  apply not_elem_of_cons in Hn as [Hne Hn]. rewrite IH by done.
  destruct (deny p); [done|]. by apply lookup_insert_ne.
Qed.

Lemma written_elem deny cs path data :
  (path, data) ∈ written deny cs
  <-> CallWriteFile path data ∈ cs /\ deny path = None.
Proof.
  induction cs as [|c cs IH]; simpl.
  - split; [by intros ?%elem_of_nil | by intros [?%elem_of_nil _]].
  - rewrite (elem_of_cons cs).
    destruct c as [?|p d|?|?|?];
      try (rewrite IH; split;
           [intros [? ?]; split; [by right | done]
           |intros [[Heq|?] ?]; [discriminate Heq | done]]).
    destruct (deny p) eqn:E.
    + rewrite IH. split.
      * intros [? ?]. split; [by right | done].
      * intros [[Heq|?] Hd]; [|done]. injection Heq as -> ->. congruence.
    + rewrite elem_of_cons, IH. split.
      * intros [[= -> ->]|[? ?]]; [by split; [left|] | by split; [right|]].
      * intros [[[= -> ->]|?] ?]; [by left | by right].
Qed.

Lemma writePaths_elem cs path data :
  CallWriteFile path data ∈ cs -> path ∈ writePaths cs.
Proof.
  induction cs as [|c cs IH]; [by intros ?%elem_of_nil|].
  intros [<-|H]%elem_of_cons; [by left|].
  destruct c; simpl; try right; by apply IH.
Qed.

Lemma writePaths_app cs1 cs2 :
  writePaths (cs1 ++ cs2) = writePaths cs1 ++ writePaths cs2.
Proof.
  induction cs1 as [|c cs1 IH]; [done|]. destruct c; simpl; by rewrite ?IH.
Qed.

(** A path written once holds, after all the writes, what was written. *)
Lemma replay_lookup deny cs fs path data :
  NoDup (writePaths cs) ->
  (path, data) ∈ written deny cs ->
  replay deny cs fs !! path = Some (Regular data).
Proof.
  revert fs; induction cs as [|c cs IH]; intros fs Hnd Hin;
    [by apply elem_of_nil in Hin|].
  destruct c as [?|p d|?|?|?]; simpl in *; try by apply IH.
  apply NoDup_cons in Hnd as [Hp Hnd].
  destruct (deny p) eqn:E; [by apply IH|].
  apply elem_of_cons in Hin as [[= -> ->]|Hin]; [|by apply IH].
  rewrite replay_lookup_notin by done. apply lookup_insert_eq.
Qed.

Lemma written_paths deny cs path :
  path ∈ (written deny cs).*1 -> path ∈ writePaths cs.
Proof.
  intros ([p d] & -> & Hin)%list_elem_of_fmap. simpl.
  apply written_elem in Hin as [Hin _]. by eapply writePaths_elem.
Qed.

(** The files the archive builder meets are the ones just written. *)
Lemma written_present cs w out n pre :
  NoDup (writePaths cs) ->
  Forall (fun file => bytesAt (wrote cs out n (logged pre w)) file.1
                      = Some file.2)
         (written (denied w) cs).
Proof.
  intros Hnd. apply Forall_forall. intros [p d] Hin. simpl.
  apply bytesAt_regular. by apply replay_lookup.
Qed.

(** The path of a snippet ends in [n], that of info.plist in [t], that of
    the icon in [g] and that of the archive in [s]: the archive is none of
    the files that go into it. *)
Lemma snippetWrites_last source n emojis path :
  path ∈ writePaths (snippetWrites json_Marshal source n emojis) ->
  last path = Some 110.
Proof.
  revert n; induction emojis as [|e emojis IH]; intros n; simpl.
  - by intros ?%elem_of_nil.
  - destruct (json_Marshal _); [|apply IH].
    simpl. intros [->|H]%elem_of_cons; [|by eapply IH].
    unfold snippetPath. apply Join_last; [|done..].
    by rewrite !last_app.
Qed.

Lemma zipFileName_last : last (zipFileName unicodeVersion) = Some 115.
Proof.
  unfold zipFileName. apply Join_last; [|done..]. by rewrite !last_app.
Qed.

Lemma archive_is_no_input source n emojis :
  zipFileName unicodeVersion
  ∉ writePaths (snippetWrites json_Marshal source n emojis ++ [plistCall])
    ++ [iconFileName].
Proof.
  pose proof zipFileName_last as Hz.
  rewrite writePaths_app, !elem_of_app. intros [[H|H]|H].
  - apply snippetWrites_last in H. congruence.
  - simpl in H. apply list_elem_of_singleton in H. rewrite H in Hz.
    vm_compute in Hz. discriminate Hz.
  - apply list_elem_of_singleton in H. rewrite H in Hz.
    vm_compute in Hz. discriminate Hz.
Qed.






End Run.

End EmojiTestRunProps.

(** ** The subgroup in the scan of the emoji-test.txt program *)

Module SubgroupScanProps.
Import EmojiTest EmojiTestSpec EmojiTestScanProps EmojiTestRunProps.

Implicit Types line h : gostring.
Implicit Types data lines : list gostring.

(** Data lines leave the pointer where the header before them put it. *)
Lemma context_data data subgroup :
  Forall isData data -> context data (Some subgroup) = Some subgroup.
Proof.
  induction data as [|line data IH]; intros Hd; [done|].
  apply Forall_cons in Hd as [Hl Hd]. cbn [context].
  rewrite (readLine_data _ _ Hl). by apply IH.
Qed.

Lemma context_header h data currentSubgroup :
  strings.HasPrefix h header = true -> Forall isData data ->
  context (h :: data) currentSubgroup = Some (subgroupOf h).
Proof.
  intros Hh Hd. cbn [context]. rewrite (readLine_header _ _ Hh).
  by apply context_data.
Qed.

Lemma context_app lines1 lines2 currentSubgroup :
  context (lines1 ++ lines2) currentSubgroup
  = context lines2 (context lines1 currentSubgroup).
Proof.
  revert currentSubgroup; induction lines1 as [|line lines1 IH];
    intros currentSubgroup; [done|].
  cbn [app context]. apply IH.
Qed.

Lemma records_header h lines currentSubgroup :
  strings.HasPrefix h header = true ->
  records (h :: lines) currentSubgroup = records lines (Some (subgroupOf h)).
Proof.
  intros Hh. rewrite records_cons, (readLine_header _ _ Hh). simpl.
  by destruct (records lines (Some (subgroupOf h))).
Qed.

(** C6.  The scan of [main] hands to the body of its loop, in order, the
    records of the lines, and after a subgroup header every record of the
    data lines that follow carries the subgroup of that header, as [main]
    cleans it; the pointer still holds it after them.  When each of the
    [N] data lines gives a record there are [N] records, all with that
    subgroup; and the next header takes over from there on. *)
Theorem subgroup_holds_until_next_header
        (displayEmojis : bool)
        (json_Marshal : AlfredSnippet -> result gostring)
        (h : gostring) (data : list gostring)
        (currentSubgroup : option gostring)
        (filesToZip : list gostring) (w : World) :
  strings.HasPrefix h header = true ->
  Forall (fun line => strings.HasPrefix line header = false) data ->
  (forall emojis,
      records (h :: data) currentSubgroup = Return emojis ->
      Forall (fun e => Subgroup e = subgroupOf h) emojis
      /\ scan displayEmojis json_Marshal (h :: data) currentSubgroup
              filesToZip w
         = match emitAll displayEmojis json_Marshal emojis filesToZip w with
           | (Return filesToZip', w') =>
             (Return (Some (subgroupOf h), filesToZip'), w')
           | (Panic, w') => (Panic, w')
           end)
  /\ (Forall producing data ->
      exists emojis,
        records (h :: data) currentSubgroup = Return emojis
        /\ length emojis = length data
        /\ Forall (fun e => Subgroup e = subgroupOf h) emojis
        /\ scan displayEmojis json_Marshal (h :: data) currentSubgroup
                filesToZip w
           = match emitAll displayEmojis json_Marshal emojis filesToZip w with
             | (Return filesToZip', w') =>
               (Return (Some (subgroupOf h), filesToZip'), w')
             | (Panic, w') => (Panic, w')
             end)
  /\ (forall h2 data2 emojis,
         strings.HasPrefix h2 header = true ->
         Forall (fun line => strings.HasPrefix line header = false) data2 ->
         records (h :: data ++ h2 :: data2) currentSubgroup = Return emojis ->
         exists first second,
           emojis = first ++ second
           /\ records (h :: data) currentSubgroup = Return first
           /\ Forall (fun e => Subgroup e = subgroupOf h) first
           /\ Forall (fun e => Subgroup e = subgroupOf h2) second
           /\ scan displayEmojis json_Marshal (h :: data ++ h2 :: data2)
                   currentSubgroup filesToZip w
              = match emitAll displayEmojis json_Marshal (first ++ second)
                        filesToZip w with
                | (Return filesToZip', w') =>
                  (Return (Some (subgroupOf h2), filesToZip'), w')
                | (Panic, w') => (Panic, w')
                end).
Proof.
  intros Hh Hd.
  assert (forall emojis,
             records (h :: data) currentSubgroup = Return emojis ->
             scan displayEmojis json_Marshal (h :: data) currentSubgroup
                  filesToZip w
             = match emitAll displayEmojis json_Marshal emojis filesToZip w with
               | (Return filesToZip', w') =>
                 (Return (Some (subgroupOf h), filesToZip'), w')
               | (Panic, w') => (Panic, w')
               end) as Hscan.
  { intros emojis H.
    rewrite (scan_records json_Marshal _ _ _ _ _ _ H).
    by rewrite (context_header _ _ _ Hh Hd). }
  repeat split.
  - rewrite (records_header _ _ _ Hh) in H. by eapply records_data.
  - by apply Hscan.
  - intros Hp. destruct (records_producing data (subgroupOf h) Hd Hp)
      as (emojis & H & Hlen).
    rewrite <- (records_header _ _ currentSubgroup Hh) in H.
    exists emojis. repeat split; [done..| |by apply Hscan].
    rewrite (records_header _ _ _ Hh) in H. by eapply records_data.
  - intros h2 data2 emojis Hh2 Hd2 H.
    pose proof H as H'. rewrite (records_header _ _ _ Hh) in H'.
    apply records_data_app in H' as (first & second & H1 & H2 & ->); [|done].
    exists first, second. rewrite (records_header _ _ _ Hh).
    repeat split; [done | | |].
    + exact (records_data _ _ _ Hd H1).
    + rewrite (records_header _ _ _ Hh2) in H2.
      exact (records_data _ _ _ Hd2 H2).
    + rewrite (scan_records json_Marshal _ _ _ _ _ _ H).
      change (h :: data ++ h2 :: data2) with ((h :: data) ++ h2 :: data2).
      rewrite context_app, (context_header _ _ _ Hh Hd).
      by rewrite (context_header _ _ _ Hh2 Hd2).
Qed.

Lemma subgroup_holds_until_next_header_witness :
  let h := "# subgroup: hand-fingers & partial" in
  let data := ["1F44C ; fully-qualified # X E0.6 OK hand";
               "# a comment";
               "1F90F ; fully-qualified # Y E12.0 pinching hand"] in
  let emojis := [mkEmojiData "X" "OK-hand" "hand-fingers-and-partial";
                 mkEmojiData "Y" "pinching-hand"
                             "hand-fingers-and-partial"] in
  let w' := (scan false jsonText (h :: data) None [] bareWorld).2 in
  strings.HasPrefix h header = true
  /\ Forall (fun line => strings.HasPrefix line header = false) data
  /\ records (h :: data) None = Return emojis
  /\ Forall (fun e => Subgroup e = subgroupOf h) emojis
  /\ (scan false jsonText (h :: data) None [] bareWorld).1
     = Return (Some "hand-fingers-and-partial",
               ["build/OK-hand [0000-A].json";
                "build/pinching-hand [0000-B].json"])
  /\ files w' !! "build/OK-hand [0000-A].json"
     = Some (Regular "{snippet:X,uid:0000-A,name:(hand-fingers-and-partial) OK-hand,keyword:OK-hand}")
  /\ files w' !! "build/pinching-hand [0000-B].json"
     = Some (Regular "{snippet:Y,uid:0000-B,name:(hand-fingers-and-partial) pinching-hand,keyword:pinching-hand}").
Proof.
  intros h data emojis w'.
  assert (strings.HasPrefix h header = true) as Hh by (vm_compute; reflexivity).
  assert (Forall (fun line => strings.HasPrefix line header = false) data)
    as Hd by (repeat constructor; vm_compute; reflexivity).
  assert (records (h :: data) None = Return emojis) as Hr
      by (vm_compute; reflexivity).
  destruct (proj1 (subgroup_holds_until_next_header
                     false jsonText h data None [] bareWorld Hh Hd) _ Hr)
    as [Hsub Hscan].
  repeat apply conj; [exact Hh | exact Hd | exact Hr | exact Hsub | ..];
    unfold w'; rewrite Hscan; vm_compute; reflexivity.
Defined.

End SubgroupScanProps.

(** ** The runs of the emoji-sequences.txt programs *)

Module SequencesRunProps.
Import Sequences SequencesSpec Trace SequencesPack.
Import EmojiTestRunProps.

Lemma sequences_records_cons line lines :
  exists emojiData,
    parseEmojiLine line = Return emojiData
    /\ records (line :: lines) = emojiData ++ records lines.
Proof.
  destruct (SequencesProps.parseEmojiLine_total line) as [emojiData H].
  exists emojiData. split; [done|]. simpl. by rewrite H.
Qed.

Section Run.

Variable fetchEmojiData : gostring -> result (list gostring).
Variable json_Marshal : AlfredSnippet -> result gostring.

Lemma pack_emitAll_app d (a b : list EmojiData) filesToZip w :
  emitAll d json_Marshal (a ++ b) filesToZip w
  = match emitAll d json_Marshal a filesToZip w with
    | (Return filesToZip', w') => emitAll d json_Marshal b filesToZip' w'
    | (Panic, w') => (Panic, w')
    end.
Proof.
  revert filesToZip w; induction a as [|e a IH]; intros filesToZip w; [done|].
  cbn [app emitAll]. rewrite !io_bind.
  destruct (emit d json_Marshal e filesToZip w) as [[f1|] w1]; [|done].
  apply IH.
Qed.

(** The scan is the emission of the records of all the lines. *)
Lemma pack_scan_records d lines filesToZip w :
  scan d json_Marshal lines filesToZip w
  = emitAll d json_Marshal (records lines) filesToZip w.
Proof.
  revert filesToZip w; induction lines as [|line lines IH];
    intros filesToZip w; [done|].
  destruct (sequences_records_cons line lines) as (emojiData & Hp & ->).
  cbn [scan]. rewrite io_bind. unfold lift at 1. rewrite Hp.
  rewrite io_bind, pack_emitAll_app.
  destruct (emitAll d json_Marshal emojiData filesToZip w) as [[f1|] w1];
    [|done].
  apply IH.
Qed.

(** With the flag set the loop body does nothing at all. *)
Lemma pack_emitAll_flag emojis filesToZip w :
  emitAll true json_Marshal emojis filesToZip w = (Return filesToZip, w).
Proof. induction emojis as [|e emojis IH]; [done|]. exact IH. Qed.

Lemma pack_main_start (k : IO ()) w :
  (os.Mkdir "build";; os.Mkdir "dist";; k) w
  = k (logged EmojiTestSpec.mkdirs w).
Proof. apply main_start. Qed.

Lemma pack_main_flag lines w :
  fetchEmojiData url = Ok lines ->
  main true fetchEmojiData json_Marshal w
  = (Return tt, logged EmojiTestSpec.mkdirs w).
Proof.
  intros Hf. unfold main. rewrite pack_main_start. unfold url in Hf.
  rewrite Hf, io_bind, pack_scan_records, pack_emitAll_flag. reflexivity.
Qed.

Lemma pack_emit_package e filesToZip w :
  let cs := snippetWrites json_Marshal (uuidSource w) (drawn w) [e] in
  exists out,
    emit false json_Marshal e filesToZip w
    = (Return (filesToZip ++ (written (denied w) cs).*1), wrote cs out 1 w).
Proof.
  unfold emit. cbn [negb snippetWrites]. rewrite io_bind.
  unfold generateUID at 1. cbn [fst snd].
  unfold generateAlfredSnippetJSON.
  fold (snippetOf e (strings.ToUpper (uuidSource w (drawn w)))).
  rewrite io_bind.
  destruct (json_Marshal (snippetOf e (strings.ToUpper (uuidSource w (drawn w)))))
    as [jsonData|err].
  - rewrite WriteFile_run. unfold wrote. cbn [files stdout calls
      drawn uuidSource denied zipBytes replay written].
    destruct (denied w (snippetPath e (strings.ToUpper (uuidSource w (drawn w)))))
      as [e0|]; simpl.
    + eexists [_]. rewrite !app_nil_r, Nat.add_0_r, Nat.add_1_r. reflexivity.
    + exists []. rewrite !app_nil_r, Nat.add_0_r, Nat.add_1_r. reflexivity.
  - simpl. eexists [_]. unfold wrote. simpl.
    rewrite !app_nil_r, Nat.add_1_r. reflexivity.
Qed.

Lemma pack_snippetWrites_cons source n e emojis :
  snippetWrites json_Marshal source n (e :: emojis)
  = snippetWrites json_Marshal source n [e]
    ++ snippetWrites json_Marshal source (S n) emojis.
Proof.
  simpl. by destruct (json_Marshal (snippetOf e (strings.ToUpper (source n)))).
Qed.

Lemma pack_emitAll_package emojis filesToZip w :
  let cs := snippetWrites json_Marshal (uuidSource w) (drawn w) emojis in
  exists out,
    emitAll false json_Marshal emojis filesToZip w
    = (Return (filesToZip ++ (written (denied w) cs).*1),
       wrote cs out (length emojis) w).
Proof.
  revert filesToZip w; induction emojis as [|e emojis IH]; intros filesToZip w.
  - exists []. simpl. unfold wrote. simpl. destruct w. simpl.
    by rewrite !app_nil_r, Nat.add_0_r.
  - cbn zeta. rewrite pack_snippetWrites_cons.
    cbn [emitAll]. rewrite io_bind.
    destruct (pack_emit_package e filesToZip w) as [out1 ->].
    destruct (IH (filesToZip
                  ++ (written (denied w)
                        (snippetWrites json_Marshal (uuidSource w) (drawn w) [e])).*1)
                 (wrote (snippetWrites json_Marshal (uuidSource w) (drawn w) [e])
                        out1 1 w)) as [out2 ->].
    exists (out1 ++ out2). rewrite wrote_wrote.
    cbn [denied uuidSource drawn wrote].
    rewrite Nat.add_1_r, written_app, fmap_app, app_assoc. reflexivity.
Qed.

Lemma pack_addFileToZip_found zipWriter fileName data w :
  bytesAt w fileName = Some data ->
  addFileToZip zipWriter fileName w
  = (Return None,
     archived zipWriter (entriesAt w zipWriter ++ [(fileName, data)]) w).
Proof.
  intros H. unfold addFileToZip. rewrite io_bind.
  unfold os.ReadAll at 1. rewrite H. reflexivity.
Qed.

(** The archive builder of src/main.go on files that are all there and
    are not the archive itself: one entry for each, in order, under the
    path as given. *)
Lemma pack_addFiles_found zipWriter (found : list (gostring * gostring)) es w :
  files w !! zipWriter = Some (Container es) ->
  zipWriter ∉ found.*1 ->
  Forall (fun file => bytesAt w file.1 = Some file.2) found ->
  addFiles zipWriter found.*1 w
  = (Return None, archived zipWriter (es ++ found) w).
Proof.
  revert es w; induction found as [|[f d] found IH]; intros es w Hes Hz Hall.
  - simpl. by rewrite app_nil_r, archived_same.
  - apply Forall_cons in Hall as [Hf Hall]. simpl in Hf.
    cbn [fmap list_fmap fst] in Hz. apply not_elem_of_cons in Hz as [Hzf Hz].
    cbn [fmap list_fmap fst addFiles]. rewrite io_bind.
    rewrite (pack_addFileToZip_found _ _ _ _ Hf),
      (entriesAt_container _ _ _ Hes).
    rewrite (IH (es ++ [(f, d)])).
    + by rewrite archived_archived, <- app_assoc.
    + unfold archived. cbn [files]. apply lookup_insert_eq.
    + exact Hz.
    + apply Forall_forall. intros file Hin.
      rewrite bytesAt_archived.
      * by apply (proj1 (Forall_forall _ _) Hall).
      * intros E. apply Hz. rewrite <- E. by apply list_elem_of_fmap_2.
Qed.

Lemma pack_zipFiles_found zipFileName (found : list (gostring * gostring)) w :
  denied w zipFileName = None ->
  zipFileName ∉ found.*1 ->
  Forall (fun file => bytesAt w file.1 = Some file.2) found ->
  zipFiles zipFileName found.*1 w
  = (Return None,
     archived zipFileName found (logged [CallCreate zipFileName] w)).
Proof.
  intros Hd Hz Hall. unfold zipFiles. rewrite io_bind, Create_run by done.
  rewrite (pack_addFiles_found _ found []).
  - by rewrite archived_archived.
  - unfold archived. cbn [files]. apply lookup_insert_eq.
  - exact Hz.
  - apply Forall_forall. intros file Hin.
    rewrite bytesAt_archived.
    + by apply (proj1 (Forall_forall _ _) Hall).
    + intros E. apply Hz. rewrite <- E. by apply list_elem_of_fmap_2.
Qed.

Lemma pack_addFiles_frame zipWriter fs w :
  exists err w',
    addFiles zipWriter fs w = (Return err, w')
    /\ calls w' = calls w /\ stdout w' = stdout w
    /\ forall path, path <> zipWriter -> files w' !! path = files w !! path.
Proof.
  revert w; induction fs as [|f fs IH]; intros w.
  - by exists None, w.
  - cbn [addFiles]. rewrite io_bind. unfold addFileToZip at 1.
    rewrite io_bind. unfold os.ReadAll at 1.
    destruct (bytesAt w f) as [data|].
    + simpl.
      match goal with |- context [addFiles _ _ ?w1] =>
        destruct (IH w1) as (err & w' & -> & Hc & Hs & Hf) end.
      exists err, w'. repeat split; [done..|].
      intros path Hne. rewrite Hf by done. cbn [files].
      by apply lookup_insert_ne.
    + simpl. by eexists _, w.
Qed.

Lemma pack_zipFiles_frame zipFileName fs w :
  exists err w',
    zipFiles zipFileName fs w = (Return err, w')
    /\ calls w' = calls w ++ [CallCreate zipFileName]
    /\ stdout w' = stdout w
    /\ forall path, path <> zipFileName -> files w' !! path = files w !! path.
Proof.
  unfold zipFiles. rewrite io_bind. unfold os.Create at 1. simpl.
  destruct (denied w zipFileName) as [e|]; simpl.
  - by eexists _, _.
  - match goal with |- context [addFiles _ _ ?w1] =>
      destruct (pack_addFiles_frame zipFileName fs w1)
        as (err & w' & -> & Hc & Hs & Hf) end.
    exists err, w'. repeat split; [done..|].
    intros path Hne. rewrite Hf by done. cbn [files].
    by apply lookup_insert_ne.
Qed.

Lemma pack_package_calls filesToZip w :
  exists w' tail,
    package filesToZip w = (Return tt, w')
    /\ calls w' = calls w ++ [plistCall; CallCreate zipFileName] ++ tail
    /\ (tail = [] \/ tail = [CallRemove "*.json"]).
Proof.
  unfold package, plistCall, plistFileName. cbn zeta. rewrite io_bind.
  unfold generateInfoPlist at 1. rewrite WriteFile_run. cbn [denied wrote].
  set (w1 := wrote _ _ _ w).
  assert (calls w1
          = calls w ++ [CallWriteFile (filepath.Join [[]; "info.plist"])
                                      (plistContent [])]) as Hc1
      by reflexivity.
  clearbody w1.
  assert (exists w2 files2,
             (match denied w (filepath.Join [[]; "info.plist"]) with
              | Some e =>
                fmt.Printf ("Error generating info.plist: " ++ e ++ newline);;
                mret filesToZip
              | None =>
                mret (filesToZip ++ [filepath.Join [[]; "info.plist"]])
              end) w1 = (Return files2, w2) /\ calls w2 = calls w1)
    as (w2 & files2 & Hstep & Hc2).
  { destruct (denied w _); by eexists _, _. }
  rewrite io_bind, Hstep. rewrite Hc1 in Hc2. clear Hstep Hc1.
  rewrite io_bind.
  destruct (pack_zipFiles_frame zipFileName (files2 ++ ["icon.png"]) w2)
    as (err & w3 & -> & Hc & _ & _).
  rewrite Hc2 in Hc.
  destruct err as [e'|].
  - eexists _, []. split; [reflexivity|]. simpl.
    rewrite Hc, <- app_assoc. by split; [|left].
  - eexists _, [_]. split; [reflexivity|]. simpl.
    rewrite Hc, <- !app_assoc. by split; [|right].
Qed.

Lemma pack_main_package_calls lines w :
  fetchEmojiData url = Ok lines ->
  exists w' tail,
    main false fetchEmojiData json_Marshal w = (Return tt, w')
    /\ calls w'
       = calls w ++ EmojiTestSpec.mkdirs
         ++ snippetWrites json_Marshal (uuidSource w) (drawn w) (records lines)
         ++ [plistCall; CallCreate zipFileName] ++ tail
    /\ (tail = [] \/ tail = [CallRemove "*.json"]).
Proof.
  intros Hf. unfold main. rewrite pack_main_start. unfold url in Hf.
  rewrite Hf, io_bind, pack_scan_records.
  destruct (pack_emitAll_package (records lines) []
              (logged EmojiTestSpec.mkdirs w)) as [out ->].
  cbn [negb].
  match goal with |- context [package ?f ?w1] =>
    destruct (pack_package_calls f w1) as (w' & tail & -> & Hc & Ht) end.
  exists w', tail. split; [reflexivity|]. split; [|exact Ht].
  rewrite Hc. simpl. by rewrite <- !app_assoc.
Qed.

(** The path of a snippet ends in [n]; the archive is none of the files
    that go into it, and not the file the clean-up names. *)
Lemma pack_snippetWrites_last source n emojis path :
  path ∈ writePaths (snippetWrites json_Marshal source n emojis) ->
  last path = Some 110.
Proof.
  revert n; induction emojis as [|e emojis IH]; intros n; simpl.
  - by intros ?%elem_of_nil.
  - destruct (json_Marshal _); [|apply IH].
    simpl. intros [->|H]%elem_of_cons; [|by eapply IH].
    unfold snippetPath. apply Join_last; [|done..].
    by rewrite !last_app.
Qed.

Lemma pack_archive_is_no_input source n emojis :
  zipFileName
  ∉ writePaths (snippetWrites json_Marshal source n emojis ++ [plistCall])
    ++ [iconFileName].
Proof.
  rewrite writePaths_app, !elem_of_app. intros [[H|H]|H].
  - apply pack_snippetWrites_last in H. vm_compute in H. discriminate H.
  - simpl in H. apply list_elem_of_singleton in H.
    vm_compute in H. discriminate H.
  - apply list_elem_of_singleton in H. vm_compute in H. discriminate H.
Qed.

Lemma pack_cleanup_run text path w :
  (fmt.Println text;; os.Remove path) w
  = (Return tt,
     let w1 := printed [text ++ newline] w in
     mkWorld (delete path (files w1)) (stdout w1)
             (calls w1 ++ [CallRemove path])
             (drawn w1) (uuidSource w1) (denied w1) (zipBytes w1)).
Proof. reflexivity. Qed.


(** The printer: one console line for each record, and no system call,
    whatever the flag. *)
Lemma print_showAll d emojis w :
  SequencesPrint.showAll d emojis w
  = (Return tt, printed (shown d <$> emojis) w).
Proof.
  revert w; induction emojis as [|e emojis IH]; intros w.
  - simpl. by rewrite printed_nil.
  - cbn [SequencesPrint.showAll fmap list_fmap]. rewrite io_bind.
    assert (SequencesPrint.show d e w = (Return tt, printed [shown d e] w))
      as -> by done.
    rewrite IH, printed_printed. reflexivity.
Qed.

Lemma print_scan d lines w :
  SequencesPrint.scan d lines w
  = (Return tt, printed (shown d <$> records lines) w).
Proof.
  revert w; induction lines as [|line lines IH]; intros w.
  - simpl. by rewrite printed_nil.
  - destruct (sequences_records_cons line lines) as (emojiData & Hp & ->).
    cbn [SequencesPrint.scan]. rewrite io_bind. unfold lift at 1. rewrite Hp.
    rewrite io_bind, print_showAll, IH, printed_printed, fmap_app.
    reflexivity.
Qed.

Lemma print_main d lines w :
  fetchEmojiData url = Ok lines ->
  SequencesPrint.main d fetchEmojiData w
  = (Return tt, printed (shown d <$> records lines) w).
Proof.
  intros Hf. unfold SequencesPrint.main. unfold url in Hf. rewrite Hf.
  apply print_scan.
Qed.

End Run.

End SequencesRunProps.

(** ** The flag and the archive *)

Module PipelineProps.
Import Trace.

(** C7, as the code has it.  In the emoji-test.txt program the flag
    selects preview or package: set, [main] prints one line
    [glyph: description] for each record of the scan, makes the two
    [os.Mkdir] calls and no other, and leaves every file as it was;
    unset, it makes one [os.WriteFile] call for each record whose
    snippet marshals, then writes info.plist, then creates the archive
    (and removes [build] when the archive was built).  In src/main.go the
    set flag likewise leaves no write and no archive, and the unset flag
    runs the same pipeline.  The emoji-sequences.txt printer has no
    pipeline: with either value of the flag it prints one line for each
    record and makes no system call. *)
Theorem flag_selects_preview_or_package
        (unicodeVersion : gostring)
        (fetchTest fetchSequences : gostring -> result (list gostring))
        (json_Marshal : AlfredSnippet -> result gostring)
        (lines : list gostring) (emojis : list EmojiTest.EmojiData)
        (w : World) :
  fetchTest (EmojiTestSpec.url unicodeVersion) = Ok lines ->
  EmojiTest.records lines None = Return emojis ->
  (EmojiTest.main true unicodeVersion fetchTest json_Marshal w
   = (Return tt,
      printed (EmojiTestSpec.preview <$> emojis)
              (logged EmojiTestSpec.mkdirs w))
   /\ exists w' tail,
       EmojiTest.main false unicodeVersion fetchTest json_Marshal w
       = (Return tt, w')
       /\ calls w'
          = calls w ++ EmojiTestSpec.mkdirs
            ++ EmojiTestSpec.snippetWrites json_Marshal (uuidSource w)
                 (drawn w) emojis
            ++ [EmojiTestSpec.plistCall;
                CallCreate (EmojiTest.zipFileName unicodeVersion)] ++ tail
       /\ (tail = [] \/ tail = [CallRemoveAll "build"]))
  /\ (forall sequences,
         fetchSequences SequencesSpec.url = Ok sequences ->
         (let w' := (SequencesPack.main true fetchSequences json_Marshal w).2 in
          (SequencesPack.main true fetchSequences json_Marshal w).1 = Return tt
          /\ calls w' = calls w ++ EmojiTestSpec.mkdirs
          /\ files w' = files w)
         /\ (exists w' tail,
                SequencesPack.main false fetchSequences json_Marshal w
                = (Return tt, w')
                /\ calls w'
                   = calls w ++ EmojiTestSpec.mkdirs
                     ++ SequencesSpec.snippetWrites json_Marshal (uuidSource w)
                          (drawn w) (SequencesSpec.records sequences)
                     ++ [SequencesSpec.plistCall;
                         CallCreate SequencesPack.zipFileName] ++ tail
                /\ (tail = [] \/ tail = [CallRemove "*.json"]))
         /\ (forall displayEmojis,
                SequencesPrint.main displayEmojis fetchSequences w
                = (Return tt,
                   printed (SequencesSpec.shown displayEmojis
                              <$> SequencesSpec.records sequences) w))).
Proof.
  intros Hf Hr. split; [split|].
  - by eapply EmojiTestRunProps.main_preview.
  - by eapply EmojiTestRunProps.main_package_calls.
  - intros sequences Hs. split; [|split].
    + rewrite (SequencesRunProps.pack_main_flag _ _ _ _ Hs). by repeat split.
    + by eapply SequencesRunProps.pack_main_package_calls.
    + intros d. by eapply SequencesRunProps.print_main.
Qed.

Lemma flag_selects_preview_or_package_witness :
  let fetch := fun _ : gostring => Ok testFile in
  fetch (EmojiTestSpec.url "15.1") = Ok testFile
  /\ EmojiTest.records testFile None
     = Return [EmojiTest.mkEmojiData "😀" "grinning-face" "face-smiling"]
  /\ EmojiTest.main true "15.1" fetch jsonText bareWorld
     = (Return tt,
        printed ["😀: grinning-face" ++ newline]
                (logged [CallMkdir "build"; CallMkdir "dist"] bareWorld)).
Proof.
  intros fetch.
  assert (EmojiTest.records testFile None
          = Return [EmojiTest.mkEmojiData "😀" "grinning-face" "face-smiling"])
    as Hr by (vm_compute; reflexivity).
  repeat apply conj; [reflexivity | exact Hr |].
  exact (proj1 (proj1 (flag_selects_preview_or_package
                         "15.1" fetch fetch jsonText testFile _ bareWorld
                         eq_refl Hr))).
Defined.

(** The runs on which C7 fails: src/main.go with the flag set parses a
    record and prints nothing, and the printer with the flag unset writes
    nothing. *)
Lemma set_flag_prints_nothing_in_main_go :
  let line := "1F600 ; Basic_Emoji ; grinning face # E1.0" in
  let fetch := fun _ : gostring => Ok [line] in
  Sequences.parseEmojiLine line
  = Return [Sequences.mkEmojiData "1F600" "grinning face"]
  /\ SequencesPack.main true fetch jsonText bareWorld
     = (Return tt, logged [CallMkdir "build"; CallMkdir "dist"] bareWorld)
  /\ stdout (SequencesPack.main true fetch jsonText bareWorld).2 = []
  /\ SequencesPrint.main false fetch bareWorld
     = (Return tt,
        printed ["Emoji: 1F600, Description: grinning face" ++ newline]
                bareWorld)
  /\ calls (SequencesPrint.main false fetch bareWorld).2 = [].
Proof. cbn zeta. repeat apply conj; vm_compute; reflexivity. Qed.




End PipelineProps.

(** * Further properties

    The line parsers on the fields of a line, the resolver on
    hexadecimal tokens, the names of the files, the outcomes of a run
    and the fetchers. *)

(** ** More facts about [strings.Split] *)

Section SplitFacts.

Implicit Types s t a rest : gostring.
Implicit Types c : rune.

Lemma HasPrefix_single_cons c d s :
  strings.HasPrefix (d :: s) [c] = rune_eqb d c.
Proof. simpl. by rewrite andb_true_r. Qed.

Lemma Index_single_notin c s : c ∉ s -> strings.Index s [c] = None.
Proof.
  induction s as [|d s IH]; intros H; [done|].
  rewrite Index_unfold, HasPrefix_single_cons.
  apply not_elem_of_cons in H as [Hd Hs].
  destruct (rune_eqb d c) eqn:E; [apply rune_eqb_eq in E; congruence|].
  by rewrite IH.
Qed.

Lemma Index_single_app c a rest :
  c ∉ a -> strings.Index (a ++ c :: rest) [c] = Some (length a).
Proof.
  induction a as [|d a IH]; intros H.
  - simpl. rewrite andb_true_r.
    by replace (rune_eqb c c) with true by (symmetry; by apply rune_eqb_eq).
  - apply not_elem_of_cons in H as [Hd Hs].
    change ((d :: a) ++ c :: rest) with (d :: (a ++ c :: rest)).
    rewrite Index_unfold, HasPrefix_single_cons.
    destruct (rune_eqb d c) eqn:E; [apply rune_eqb_eq in E; congruence|].
    by rewrite IH.
Qed.

Lemma HasPrefix_length s t :
  strings.HasPrefix s t = true -> (length t <= length s)%nat.
Proof.
  intros H. destruct (HasPrefix_inv _ _ H) as [u ->].
  rewrite length_app. lia.
Qed.

Lemma Index_bound s sep m :
  strings.Index s sep = Some m -> (m + length sep <= length s)%nat.
Proof.
  revert m; induction s as [|d s IH]; intros m H;
    rewrite Index_unfold in H.
  - destruct (strings.HasPrefix [] sep) eqn:E; [|done].
    injection H as <-. by apply HasPrefix_length in E.
  - destruct (strings.HasPrefix (d :: s) sep) eqn:E.
    + injection H as <-. by apply HasPrefix_length in E.
    + destruct (strings.Index s sep) as [k|] eqn:K; [|done].
      injection H as <-. specialize (IH _ eq_refl). simpl. lia.
Qed.

(** More cuts than the text has runes are never used. *)
Lemma genSplit_fuel n m s c sep :
  (length s <= n)%nat -> (length s <= m)%nat ->
  strings.genSplit n s (c :: sep) = strings.genSplit m s (c :: sep).
Proof.
  revert m s; induction n as [|n IH]; intros m s Hn Hm.
  - destruct s; [|simpl in Hn; lia].
    destruct m; [done|]. simpl. done.
  - destruct m as [|m].
    + destruct s; [|simpl in Hm; lia]. done.
    + simpl. destruct (strings.Index s (c :: sep)) as [k|] eqn:K; [|done].
      f_equal. pose proof (Index_bound _ _ _ K) as Hb. simpl in Hb.
      apply IH; rewrite length_drop; simpl; lia.
Qed.

Lemma Split_notin c a : c ∉ a -> strings.Split a [c] = [a].
Proof.
  intros H. unfold strings.Split.
  destruct (length a); simpl; [done|]. by rewrite Index_single_notin.
Qed.

Lemma drop_past a c rest : drop (length a + 1) (a ++ c :: rest) = rest.
Proof. induction a as [|d a IH]; simpl; [by rewrite drop_0 | done]. Qed.

Lemma Split_app c a rest :
  c ∉ a -> strings.Split (a ++ c :: rest) [c] = a :: strings.Split rest [c].
Proof.
  intros H. unfold strings.Split.
  rewrite length_app. simpl length.
  replace (length a + S (length rest))%nat
    with (S (length a + length rest)) by lia.
  cbn [strings.genSplit]. rewrite Index_single_app by done.
  rewrite take_app_length. simpl length. rewrite drop_past.
  f_equal. apply genSplit_fuel; lia.
Qed.

(** A text is cut at its first [c], if it has one. *)
Lemma first_occurrence c s :
  c ∉ s \/ exists a rest, s = a ++ c :: rest /\ c ∉ a.
Proof.
  induction s as [|d s IH]; [left; apply not_elem_of_nil|].
  destruct (decide (d = c)) as [->|Hd].
  - right. exists [], s. split; [done | apply not_elem_of_nil].
  - destruct IH as [H|(a & rest & -> & H)].
    + left. by apply not_elem_of_cons.
    + right. exists (d :: a), rest. split; [done|].
      by apply not_elem_of_cons.
Qed.

Lemma count_occ_notin c s : c ∉ s -> count_occ Z.eq_dec s c = 0%nat.
Proof.
  intros H. apply count_occ_not_In. by rewrite <- list_elem_of_In.
Qed.

Lemma Split_length c s :
  length (strings.Split s [c]) = S (count_occ Z.eq_dec s c).
Proof.
  remember (length s) as n eqn:Hn. revert s Hn.
  induction n as [n IH] using lt_wf_ind; intros s ->.
  destruct (first_occurrence c s) as [H|(a & rest & -> & H)].
  - rewrite Split_notin by done. by rewrite count_occ_notin.
  - rewrite Split_app by done. cbn [length].
    assert (length rest < length (a ++ c :: rest))%nat as Hlt
      by (rewrite length_app; simpl; lia).
    rewrite (IH _ Hlt rest eq_refl).
    rewrite count_occ_app, (count_occ_notin c a H).
    simpl. by destruct (Z.eq_dec c c).
Qed.

End SplitFacts.

(** ** The emoji-sequences.txt parser on the fields of a line *)

Section SplitMore.

Implicit Types s a rest : gostring.

Lemma Split_absent s c sep :
  strings.Contains s (c :: sep) = false -> strings.Split s (c :: sep) = [s].
Proof.
  unfold strings.Contains, strings.Split. intros H.
  destruct (length s); simpl; [done|].
  by destruct (strings.Index s (c :: sep)).
Qed.

(** The piece before the first [c], with or without more text. *)
Lemma Split_head c a tail :
  c ∉ a ->
  tail = [] \/ (exists rest, tail = c :: rest) ->
  exists more, strings.Split (a ++ tail) [c] = a :: more.
Proof.
  intros Ha [->|[rest ->]].
  - rewrite app_nil_r, Split_notin by done. by eexists.
  - rewrite Split_app by done. by eexists.
Qed.

End SplitMore.

Module SequencesLineProps.
Import Sequences SequencesProps.

Lemma parseEmojiLine_fields line p0 p1 p2 more d0 comment :
  strings.Split line ";" = p0 :: p1 :: p2 :: more ->
  strings.Split p2 "#" = d0 :: comment ->
  parseEmojiLine line
  = Return (zip_with mkEmojiData
              (strings.Split (strings.TrimSpace p0) "..")
              (strings.Split (strings.TrimSpace d0) "..")).
Proof.
  intros Hparts Hd. unfold parseEmojiLine. rewrite Hparts.
  cbn -[strings.Split strings.TrimSpace pairLoop].
  rewrite Hd. cbn -[strings.Split strings.TrimSpace pairLoop].
  by rewrite pairLoop_zip, drop_0.
Qed.

(** The third field of a line [cp;ty;desc] followed by nothing, by a
    comment or by a further field. *)
Lemma third_field cp ty desc tail :
  59 ∉ cp -> 59 ∉ ty -> 59 ∉ desc -> 35 ∉ desc ->
  tail = [] \/ (exists c rest, tail = c :: rest /\ (c = 35 \/ c = 59)) ->
  exists p2 more comment,
    strings.Split (cp ++ ";" ++ ty ++ ";" ++ desc ++ tail) ";"
    = cp :: ty :: p2 :: more
    /\ strings.Split p2 "#" = desc :: comment.
Proof.
  intros Hcp Hty Hdesc Hhash Htail.
  change (cp ++ ";" ++ ty ++ ";" ++ desc ++ tail)
    with (cp ++ 59 :: (ty ++ 59 :: (desc ++ tail))).
  rewrite !Split_app by done.
  destruct Htail as [->|(c & rest & -> & [->| ->])].
  - rewrite app_nil_r, Split_notin by done.
    exists desc, [], []. split; [done|]. by apply Split_notin.
  - destruct (first_occurrence 59 rest) as [H|(a & b & -> & H)].
    + rewrite Split_notin.
      * exists (desc ++ 35 :: rest), [], (strings.Split rest "#").
        split; [done|]. by apply Split_app.
      * rewrite not_elem_of_app, not_elem_of_cons. done.
    + replace (desc ++ 35 :: a ++ 59 :: b)
        with ((desc ++ 35 :: a) ++ 59 :: b) by by rewrite <- app_assoc.
      rewrite Split_app.
      * exists (desc ++ 35 :: a), (strings.Split b ";"),
               (strings.Split a "#").
        split; [done|]. by apply Split_app.
      * rewrite not_elem_of_app, not_elem_of_cons. done.
  - rewrite Split_app by done.
    exists desc, (strings.Split rest ";"), []. split; [done|].
    by apply Split_notin.
Qed.

Lemma canonical_line cp ty desc tail :
  59 ∉ cp -> 59 ∉ ty -> 59 ∉ desc -> 35 ∉ desc ->
  tail = [] \/ (exists c rest, tail = c :: rest /\ (c = 35 \/ c = 59)) ->
  parseEmojiLine (cp ++ ";" ++ ty ++ ";" ++ desc ++ tail)
  = Return (zip_with mkEmojiData
              (strings.Split (strings.TrimSpace cp) "..")
              (strings.Split (strings.TrimSpace desc) "..")).
Proof.
  intros Hcp Hty Hdesc Hhash Htail.
  destruct (third_field cp ty desc tail Hcp Hty Hdesc Hhash Htail)
    as (p2 & more & comment & Hparts & Hd).
  by eapply parseEmojiLine_fields.
Qed.

(** X1.  The emoji-sequences.txt parser never panics, and it returns no
    record exactly for the lines with fewer than two semicolons (59):
    every other line, a comment line with two semicolons included, gives
    at least one record. *)
Theorem line_gives_records_iff_two_semicolons (line : gostring) :
  (exists emojis, parseEmojiLine line = Return emojis)
  /\ (parseEmojiLine line = Return []
      <-> (count_occ Z.eq_dec line 59%Z < 2)%nat).
Proof.
  split; [apply parseEmojiLine_total|].
  pose proof (Split_length 59 line) as Hlen.
  change [59] with ";" in Hlen.
  split.
  - intros Hnil.
    destruct (strings.Split line ";") as [|p0 [|p1 [|p2 more]]] eqn:E;
      simpl in Hlen; try lia.
    pose proof (Split_nonempty p2 35 []) as Hne.
    destruct (strings.Split p2 [35]) as [|d0 comment] eqn:Hd; [done|].
    rewrite (parseEmojiLine_fields _ _ _ _ _ _ _ E Hd) in Hnil.
    pose proof (Split_nonempty (strings.TrimSpace p0) 46 [46]) as H1.
    pose proof (Split_nonempty (strings.TrimSpace d0) 46 [46]) as H2.
    destruct (strings.Split (strings.TrimSpace p0) _); [done|].
    destruct (strings.Split (strings.TrimSpace d0) _); [done|].
    discriminate Hnil.
  - intros Hcount. unfold parseEmojiLine.
    replace (length (strings.Split line ";") <? 3)%nat with true; [done|].
    symmetry. apply Nat.ltb_lt. lia.
Qed.

(** X2.  Of a line [cp;ty;desc] followed by nothing, by a comment
    [#...] or by a further field [;...], only [cp] and [desc] count: the
    records pair the [..]-pieces of the one trimmed with those of the
    other, whatever the type field and the rest of the line are.  (59 is
    the semicolon, 35 the number sign.) *)
Theorem line_ignores_type_and_comment (cp ty desc tail : gostring) :
  59 ∉ cp -> 59 ∉ ty -> 59 ∉ desc -> 35 ∉ desc ->
  tail = [] \/ (exists c rest, tail = c :: rest /\ (c = 35 \/ c = 59)) ->
  parseEmojiLine (cp ++ ";" ++ ty ++ ";" ++ desc ++ tail)
  = Return (zip_with mkEmojiData
              (strings.Split (strings.TrimSpace cp) "..")
              (strings.Split (strings.TrimSpace desc) "..")).
Proof. apply canonical_line. Qed.

Lemma line_ignores_type_and_comment_witness :
  parseEmojiLine ("231A..231B    " ++ ";" ++ " Basic_Emoji " ++ ";"
                  ++ " watch..hourglass done " ++ "# E0.6 ; x")
  = Return [mkEmojiData "231A" "watch";
            mkEmojiData "231B" "hourglass done"].
Proof.
  rewrite (line_ignores_type_and_comment
             "231A..231B    " " Basic_Emoji " " watch..hourglass done "
             "# E0.6 ; x").
  - vm_compute; reflexivity.
  - apply (bool_decide_unpack _); vm_compute; reflexivity.
  - apply (bool_decide_unpack _); vm_compute; reflexivity.
  - apply (bool_decide_unpack _); vm_compute; reflexivity.
  - apply (bool_decide_unpack _); vm_compute; reflexivity.
  - right. exists 35, " E0.6 ; x". split; [reflexivity | by left].
Defined.

(** X3.  Such a line with a single code-point sequence (no [..] in the
    trimmed first field) gives exactly one record: its code point is the
    trimmed field, its description the trimmed third field, or only the
    text before the first [..] when the description holds one. *)
Theorem line_with_one_sequence_gives_one_record (cp ty desc tail : gostring) :
  59 ∉ cp -> 59 ∉ ty -> 59 ∉ desc -> 35 ∉ desc ->
  tail = [] \/ (exists c rest, tail = c :: rest /\ (c = 35 \/ c = 59)) ->
  strings.Contains (strings.TrimSpace cp) ".." = false ->
  exists d,
    strings.Split (strings.TrimSpace desc) ".." !! 0%nat = Some d
    /\ parseEmojiLine (cp ++ ";" ++ ty ++ ";" ++ desc ++ tail)
       = Return [mkEmojiData (strings.TrimSpace cp) d]
    /\ (strings.Contains (strings.TrimSpace desc) ".." = false ->
        d = strings.TrimSpace desc).
Proof.
  intros Hcp Hty Hdesc Hhash Htail Hone.
  rewrite canonical_line by done.
  rewrite (Split_absent _ _ _ Hone).
  pose proof (Split_nonempty (strings.TrimSpace desc) 46 [46]) as Hne.
  destruct (strings.Split (strings.TrimSpace desc) "..") as [|d ds] eqn:E;
    [done|].
  exists d. split; [done|]. split; [done|].
  intros Hnone. rewrite (Split_absent _ _ _ Hnone) in E. congruence.
Qed.

Lemma line_with_one_sequence_gives_one_record_witness :
  parseEmojiLine ("1F600 " ++ ";" ++ " Basic_Emoji " ++ ";"
                  ++ " grinning face " ++ "# E1.0")
  = Return [mkEmojiData "1F600" "grinning face"].
Proof.
  destruct (line_with_one_sequence_gives_one_record
              "1F600 " " Basic_Emoji " " grinning face " "# E1.0")
    as (d & Hd & Hparse & Hsame).
  - apply (bool_decide_unpack _); vm_compute; reflexivity.
  - apply (bool_decide_unpack _); vm_compute; reflexivity.
  - apply (bool_decide_unpack _); vm_compute; reflexivity.
  - apply (bool_decide_unpack _); vm_compute; reflexivity.
  - right. exists 35, " E1.0". split; [reflexivity | by left].
  - vm_compute; reflexivity.
  - rewrite Hparse. rewrite (Hsame eq_refl). vm_compute; reflexivity.
Defined.

End SequencesLineProps.

(** ** The code-point resolver on its tokens *)

Module ResolverProps.
Import Sequences SequencesProps.

Lemma fieldsFrom_space cur a sp b :
  IsSpace sp = true ->
  strings.fieldsFrom cur (a ++ sp :: b)
  = strings.fieldsFrom cur a ++ strings.fieldsFrom [] b.
Proof.
  intros Hsp. revert cur; induction a as [|c a IH]; intros cur.
  - simpl. rewrite Hsp. by destruct cur.
  - simpl. destruct (IsSpace c).
    + destruct cur; by rewrite IH.
    + by rewrite IH.
Qed.

Lemma fieldsFrom_blank s :
  Forall (fun c => IsSpace c = true) s -> strings.fieldsFrom [] s = [].
Proof.
  induction 1 as [|c s Hc _ IH]; simpl; [done|]. by rewrite Hc.
Qed.

Lemma fieldsFrom_solid cur s :
  Forall (fun c => IsSpace c = false) s -> cur ++ s <> [] ->
  strings.fieldsFrom cur s = [rev cur ++ s].
Proof.
  intros Hs. revert cur; induction Hs as [|c s Hc _ IH]; intros cur Hne.
  - rewrite app_nil_r in *. simpl. by destruct cur.
  - simpl. rewrite Hc, IH by done. simpl. by rewrite <- app_assoc.
Qed.

Lemma convert_tokens codePointStr :
  convertCodePointToEmoji codePointStr
  = string_of_runes
      (omap (fun cp => strconv.ParseInt cp 16 32)
            (strings.Fields codePointStr)).
Proof. unfold convertCodePointToEmoji. by rewrite runeLoop_omap. Qed.

(** X4.  The resolver works token by token: the characters of two texts
    joined by a white-space rune are the characters of the first followed
    by those of the second. *)
Theorem resolver_reads_token_by_token (a b : gostring) (sp : rune) :
  IsSpace sp = true ->
  convertCodePointToEmoji (a ++ sp :: b)
  = convertCodePointToEmoji a ++ convertCodePointToEmoji b.
Proof.
  intros Hsp. rewrite !convert_tokens. unfold strings.Fields.
  rewrite fieldsFrom_space by done.
  unfold string_of_runes. by rewrite omap_app, fmap_app.
Qed.

Lemma resolver_reads_token_by_token_witness :
  convertCodePointToEmoji "1F1FA 1F1F8"
  = convertCodePointToEmoji "1F1FA" ++ convertCodePointToEmoji "1F1F8".
Proof. apply (resolver_reads_token_by_token "1F1FA" "1F1F8" 32). reflexivity. Defined.

(** X5.  A text that is empty or all white space resolves to the empty
    string. *)
Theorem resolver_gives_nothing_on_blank (codePointStr : gostring) :
  Forall (fun c => IsSpace c = true) codePointStr ->
  convertCodePointToEmoji codePointStr = [].
Proof.
  intros H. rewrite convert_tokens. unfold strings.Fields.
  by rewrite fieldsFrom_blank.
Qed.

Lemma resolver_gives_nothing_on_blank_witness :
  convertCodePointToEmoji ("  " ++ [9]) = [].
Proof.
  apply (resolver_gives_nothing_on_blank ("  " ++ [9])).
  repeat constructor.
Defined.

Lemma value_snoc n ds :
  0 <= n -> Forall (fun d => 0 <= d < 16) ds ->
  n <= fold_left (fun n d => n * 16 + d) ds n.
Proof.
  intros Hn Hds. revert n Hn; induction Hds as [|d ds Hd _ IH]; intros n Hn.
  - simpl. lia.
  - simpl. etransitivity; [|apply IH]; lia.
Qed.

Lemma writes_digit c d :
  Hex.writes c d ->
  strconv.digitVal c = Some d /\ IsSpace c = false
  /\ (c =? 43) = false /\ (c =? 45) = false.
Proof.
  intros [Hd Hc].
  assert (d = 0 \/ d = 1 \/ d = 2 \/ d = 3 \/ d = 4 \/ d = 5 \/ d = 6
          \/ d = 7 \/ d = 8 \/ d = 9 \/ d = 10 \/ d = 11 \/ d = 12
          \/ d = 13 \/ d = 14 \/ d = 15) as Hcases by lia.
  repeat (destruct Hcases as [->|Hcases]); try subst d;
    destruct Hc as [-> | ->]; vm_compute; done.
Qed.

Lemma Forall2_writes_range token ds :
  Forall2 Hex.writes token ds -> Forall (fun d => 0 <= d < 16) ds.
Proof. induction 1 as [|c d token ds [Hd _] _ IH]; by constructor. Qed.

Lemma parseDigits_value n token ds :
  Forall2 Hex.writes token ds -> 0 <= n <= 4294967295 ->
  strconv.parseDigits 16 32 n token
  = let v := fold_left (fun n d => n * 16 + d) ds n in
    if v <=? 4294967295 then Some v else None.
Proof.
  intros H. revert n; induction H as [|c d token ds Hc Hrest IH]; intros n Hn.
  - simpl. destruct (n <=? 4294967295) eqn:E; [done | lia].
  - cbn [strconv.parseDigits fold_left].
    destruct (writes_digit _ _ Hc) as (-> & _).
    destruct Hc as [Hd _].
    replace (16 <=? d) with false by lia.
    change (2 ^ 32 - 1) with 4294967295.
    destruct (4294967295 <? n * 16 + d) eqn:E.
    + cbn zeta.
      pose proof (value_snoc (n * 16 + d) ds ltac:(lia)
                    (Forall2_writes_range _ _ Hrest)) as Hge.
      destruct (_ <=? 4294967295) eqn:E2; [lia | done].
    + apply IH. lia.
Qed.

Lemma token_solid token ds :
  Forall2 Hex.writes token ds ->
  Forall (fun c => IsSpace c = false) token.
Proof.
  induction 1 as [|c d token ds Hc _ IH]; constructor; [|done].
  by destruct (writes_digit _ _ Hc) as (_ & ? & _).
Qed.

Lemma ParseInt_token token ds :
  Forall2 Hex.writes token ds -> ds <> [] ->
  strconv.ParseInt token 16 32
  = if 2147483648 <=? Hex.value ds then None else Some (Hex.value ds).
Proof.
  intros H Hne.
  pose proof (parseDigits_value 0 token ds H ltac:(lia)) as Hp.
  destruct H as [|c d token ds Hc Hrest]; [done|].
  destruct (writes_digit _ _ Hc) as (_ & _ & Hplus & Hminus).
  unfold strconv.ParseInt, strconv.ParseUint.
  rewrite Hplus, Hminus. cbn [orb negb andb].
  rewrite Hp. cbn zeta. fold (Hex.value (d :: ds)).
  change (2 ^ (32 - 1)) with 2147483648.
  destruct (Hex.value (d :: ds) <=? 4294967295) eqn:E1;
    destruct (2147483648 <=? Hex.value (d :: ds)) eqn:E2; try done; lia.
Qed.

Lemma ParseInt_signed sign token ds :
  Forall2 Hex.writes token ds -> ds <> [] ->
  strconv.ParseInt (sign :: token) 16 32
  = if sign =? 43 then strconv.ParseInt token 16 32
    else if sign =? 45
         then if 2147483648 <? Hex.value ds then None
              else Some (- Hex.value ds)
         else strconv.ParseInt (sign :: token) 16 32.
Proof.
  intros H Hne.
  destruct (sign =? 43) eqn:Eplus.
  - rewrite (ParseInt_token _ _ H Hne).
    pose proof (parseDigits_value 0 token ds H ltac:(lia)) as Hp.
    unfold strconv.ParseInt, strconv.ParseUint.
    rewrite Eplus. replace (sign =? 45) with false by lia.
    cbn [orb negb andb].
    destruct H as [|c d token ds Hc Hrest]; [done|].
    rewrite Hp. cbn zeta. fold (Hex.value (d :: ds)).
    change (2 ^ (32 - 1)) with 2147483648.
    destruct (Hex.value (d :: ds) <=? 4294967295) eqn:E1;
      destruct (2147483648 <=? Hex.value (d :: ds)) eqn:E2; try done; lia.
  - destruct (sign =? 45) eqn:Eminus; [|done].
    pose proof (parseDigits_value 0 token ds H ltac:(lia)) as Hp.
    unfold strconv.ParseInt, strconv.ParseUint.
    rewrite Eplus, Eminus. cbn [orb negb andb].
    destruct H as [|c d token ds Hc Hrest]; [done|].
    rewrite Hp. cbn zeta. fold (Hex.value (d :: ds)).
    change (2 ^ (32 - 1)) with 2147483648.
    destruct (Hex.value (d :: ds) <=? 4294967295) eqn:E1;
      destruct (2147483648 <? Hex.value (d :: ds)) eqn:E2; try done; lia.
Qed.

Lemma convert_token token :
  token <> [] -> Forall (fun c => IsSpace c = false) token ->
  convertCodePointToEmoji token
  = string_of_runes
      (match strconv.ParseInt token 16 32 with
       | Some r => [r]
       | None => []
       end).
Proof.
  intros Hne Hsolid. rewrite convert_tokens. unfold strings.Fields.
  rewrite fieldsFrom_solid by done. simpl.
  by destruct (strconv.ParseInt token 16 32).
Qed.

(** X6.  A token of hexadecimal digits, in either case, resolves by its
    value: to nothing when the value is [2^31] or more ([strconv.ParseInt]
    with 32 bits fails and the token is skipped), to the character of
    that code point when it is a Unicode scalar value, and to U+FFFD for a
    surrogate or a value above U+10FFFF. *)
Theorem resolver_reads_hexadecimal (token : gostring) (ds : list Z) :
  Forall2 Hex.writes token ds -> ds <> [] ->
  convertCodePointToEmoji token
  = if 2147483648 <=? Hex.value ds then []
    else if validRune (Hex.value ds) then [Hex.value ds]
         else [RuneError].
Proof.
  intros H Hne.
  rewrite convert_token.
  - rewrite (ParseInt_token _ _ H Hne).
    destruct (2147483648 <=? Hex.value ds); [done|].
    unfold string_of_runes. simpl. by destruct (validRune _).
  - intros ->. inversion H. by subst.
  - by eapply token_solid.
Qed.

Lemma resolver_reads_hexadecimal_witness :
  convertCodePointToEmoji "1f600" = [128512].
Proof.
  rewrite (resolver_reads_hexadecimal "1f600" [1; 15; 6; 0; 0]).
  - reflexivity.
  - repeat constructor; vm_compute; intuition congruence.
  - done.
Defined.

(** X7.  A sign does not make a token invalid: [+] changes nothing, and
    a token with [-] gives U+FFFD (U+0000 for the value zero) unless its
    value is above [2^31], when it is skipped. *)
Theorem resolver_accepts_signed_tokens (token : gostring) (ds : list Z) :
  Forall2 Hex.writes token ds -> ds <> [] ->
  convertCodePointToEmoji ("+" ++ token) = convertCodePointToEmoji token
  /\ convertCodePointToEmoji ("-" ++ token)
     = if 2147483648 <? Hex.value ds then []
       else if Hex.value ds =? 0 then [0] else [RuneError].
Proof.
  intros H Hne.
  pose proof (token_solid _ _ H) as Hsolid.
  assert (token <> []) as Htoken by (intros ->; inversion H; by subst).
  assert (0 <= Hex.value ds) as Hpos
      by (apply (value_snoc 0 ds); [lia | by eapply Forall2_writes_range]).
  split.
  - rewrite (convert_token token) by done.
    rewrite convert_token; [|done|by constructor].
    simpl app. by rewrite (ParseInt_signed 43 _ _ H Hne).
  - rewrite convert_token; [|done|by constructor].
    simpl app. rewrite (ParseInt_signed 45 _ _ H Hne).
    cbn [Z.eqb Pos.eqb].
    destruct (2147483648 <? Hex.value ds); [done|].
    unfold string_of_runes, validRune, within. simpl fmap.
    destruct (Hex.value ds =? 0) eqn:E.
    + apply Z.eqb_eq in E. by rewrite E.
    + apply Z.eqb_neq in E.
      replace (0 <=? - Hex.value ds) with false by lia.
      replace (57344 <=? - Hex.value ds) with false by lia.
      done.
Qed.

Lemma resolver_accepts_signed_tokens_witness :
  convertCodePointToEmoji "+41" = "A"
  /\ convertCodePointToEmoji "-41" = [RuneError].
Proof.
  destruct (resolver_accepts_signed_tokens "41" [4; 1]) as [Hplus Hminus].
  - repeat constructor; vm_compute; intuition congruence.
  - done.
  - split; [|exact Hminus].
    transitivity (convertCodePointToEmoji "41"); [exact Hplus | reflexivity].
Defined.

End ResolverProps.

(** ** The extractor and the emoji-test.txt parser on well-formed lines *)

Module ExtractorProps.
Import regexp regexpSpec RegexpProps EmojiTest.

(** The greedy repetition reports the longest text after which the rest
    of the expression matches. *)
Lemma oneOrMore_longest class k text rest seen r :
  text <> [] -> Forall (fun c => class c = true) text ->
  k (rev seen ++ text) rest = Some r ->
  (forall extra rest',
      extra <> [] -> Forall (fun c => class c = true) extra ->
      rest = extra ++ rest' ->
      k (rev seen ++ text ++ extra) rest' = None) ->
  oneOrMore class k (text ++ rest) seen = Some r.
Proof.
  revert seen; induction text as [|c text IH];
    intros seen Hne Hall Hk Hlonger; [done|].
  apply Forall_cons in Hall as [Hc Hall]. simpl. rewrite Hc.
  destruct text as [|c' text].
  - simpl. destruct (oneOrMore class k rest (c :: seen)) as [r'|] eqn:E.
    + apply oneOrMore_sound in E
        as (extra & rest' & Hne' & Hall' & -> & Hk').
      simpl in Hk'. rewrite <- app_assoc in Hk'.
      rewrite (Hlonger extra rest') in Hk'; done.
    + exact Hk.
  - rewrite (IH (c :: seen)); [done | done | done | |].
    + simpl. by rewrite <- app_assoc.
    + intros extra rest' H1 H2 H3. simpl. rewrite <- app_assoc.
      by apply Hlonger.
Qed.

(** The same when the rest of the text cannot be taken at all. *)
Lemma oneOrMore_stops class k text rest seen r :
  text <> [] -> Forall (fun c => class c = true) text ->
  k (rev seen ++ text) rest = Some r ->
  (forall c rest', rest = c :: rest' -> class c = false) ->
  oneOrMore class k (text ++ rest) seen = Some r.
Proof.
  intros Hne Hall Hk Hstop. apply oneOrMore_longest; [done..|].
  intros extra rest' Hextra Hclass ->.
  destruct extra as [|c extra]; [done|].
  apply Forall_cons in Hclass as [Hc _].
  by rewrite (Hstop c (extra ++ rest')) in Hc.
Qed.

Lemma matchHere_more n class re' s caps :
  atomOf n = OneOrMore class ->
  matchHere (n :: re') s caps
  = oneOrMore class (fun text rest => matchHere re' rest (save n text caps))
              s [].
Proof. intros H. simpl. by rewrite H. Qed.

Lemma version_starts rest caps r :
  matchHere version rest caps = Some r ->
  exists d after, rest = 32 :: 69 :: d :: after /\ digit d = true.
Proof.
  intros H. apply matchHere_sound in H as (groups & K0 & _).
  unfold version, re in K0. simpl in K0.
  lit_step K0 K1. lit_step K1 K2.
  more_step K2 K3 major Hm1 Hm2.
  destruct major as [|d major]; [done|].
  apply Forall_cons in Hm2 as [Hd _].
  by eexists _, _.
Qed.

Lemma version_matches major minor description caps :
  major <> [] -> Forall (fun c => digit c = true) major ->
  minor <> [] -> Forall (fun c => digit c = true) minor ->
  description <> [] -> Forall (fun c => dot c = true) description ->
  matchHere version (" E" ++ major ++ "." ++ minor ++ " " ++ description)
            caps
  = Some (description :: caps).
Proof.
  intros Hm1 Hm2 Hn1 Hn2 Hd1 Hd2.
  unfold version, re. cbn [drop].
  cbn [matchHere atomOf app rune_eqb Z.eqb Pos.eqb save].
  apply oneOrMore_stops; [done | done | | by intros c rest' [= <- _]].
  cbn [rev app matchHere atomOf rune_eqb Z.eqb Pos.eqb save].
  apply oneOrMore_stops; [done | done | | by intros c rest' [= <- _]].
  cbn [rev app matchHere atomOf rune_eqb Z.eqb Pos.eqb save].
  rewrite <- (app_nil_r description) at 1.
  apply oneOrMore_stops; [done | done | | done].
  cbn [rev app matchHere]. done.
Qed.

(** In a text without spaces before [tail], the first space of a cut
    that starts with one lies in [tail]. *)
Lemma space_lies_in_tail (x r a b : gostring) :
  x ++ 32 :: r = a ++ b -> 32 ∉ a ->
  exists x', x = a ++ x' /\ x' ++ 32 :: r = b.
Proof.
  revert x; induction a as [|c a IH]; intros x H Ha.
  - by exists x.
  - apply not_elem_of_cons in Ha as [Hc Ha].
    destruct x as [|c' x]; simpl in H.
    + injection H as H _. congruence.
    + injection H as -> H.
      destruct (IH _ H Ha) as (x' & -> & Hx). by exists x'.
Qed.

Lemma digits_hold_no_space (s : gostring) :
  Forall (fun c => digit c = true) s -> 32 ∉ s.
Proof.
  intros H Hin. rewrite Forall_forall in H.
  by specialize (H _ Hin).
Qed.

Lemma no_later_version major minor description extra rest' caps :
  Forall (fun c => digit c = true) major ->
  Forall (fun c => digit c = true) minor ->
  versionFree description ->
  extra <> [] ->
  " E" ++ major ++ "." ++ minor ++ " " ++ description = extra ++ rest' ->
  matchHere version rest' caps = None.
Proof.
  intros Hm Hn Hfree Hextra Hcut.
  destruct (matchHere version rest' caps) as [r|] eqn:E; [|done].
  exfalso. apply version_starts in E as (d & after & -> & Hd).
  destruct extra as [|c0 extra]; [done|].
  simpl in Hcut. injection Hcut as <- Hcut.
  destruct extra as [|c1 extra]; [simpl in Hcut; by injection Hcut|].
  simpl in Hcut. injection Hcut as <- Hcut.
  assert (extra ++ 32 :: 69 :: d :: after
          = (major ++ 46 :: minor) ++ 32 :: description) as Hcut'
      by (rewrite <- app_assoc; done).
  apply space_lies_in_tail in Hcut' as (x' & _ & Hx).
  - destruct x' as [|c x']; simpl in Hx.
    + injection Hx as Hx.
      by rewrite (Hfree [] d after) in Hd.
    + injection Hx as _ Hx.
      rewrite (Hfree (x' ++ [32]) d after) in Hd; [done|].
      by rewrite <- app_assoc.
  - rewrite not_elem_of_app, not_elem_of_cons.
    split; [by apply digits_hold_no_space|].
    split; [done | by apply digits_hold_no_space].
Qed.

Lemma wellFormed_match (blank glyph major minor description : gostring) :
  wellFormed blank glyph major minor description ->
  regexp.FindStringSubmatch re
    (blank ++ glyph ++ " E" ++ major ++ "." ++ minor ++ " " ++ description)
  = Some [glyph; description]
  /\ extractDescriptionAndEmoji
       (blank ++ glyph ++ " E" ++ major ++ "." ++ minor ++ " " ++ description)
     = (strings.TrimSpace glyph, junkFree description).
Proof.
  intros (Hb1 & Hb2 & (g0 & Hg0 & Hg1) & Hg2 & Hm1 & Hm2 & Hn1 & Hn2
          & Hd1 & Hd2 & Hfree).
  assert (glyph <> []) as Hg3 by by destruct glyph.
  assert (regexp.FindStringSubmatch re
            (blank ++ glyph ++ " E" ++ major ++ "." ++ minor ++ " "
             ++ description)
          = Some [glyph; description]) as Hfind.
  { unfold regexp.FindStringSubmatch.
    replace (matchHere re _ [])
      with (Some [description; glyph]); [done|].
    symmetry. unfold re.
    rewrite (matchHere_more (Plain (OneOrMore space)) space) by done.
    apply oneOrMore_stops; [done | done | |].
    - cbv beta. change (rev [] ++ blank) with blank.
      rewrite (matchHere_more (Group (OneOrMore dot)) dot) by done.
      apply oneOrMore_longest; [done | done | |].
      + cbv beta. change (rev [] ++ glyph) with glyph.
        exact (version_matches major minor description [glyph]
                 Hm1 Hm2 Hn1 Hn2 Hd1 Hd2).
      + intros extra rest' Hextra _ Hcut. cbv beta.
        exact (no_later_version major minor description extra rest' _
                 Hm2 Hn2 Hfree Hextra Hcut).
    - intros c rest' Hc. destruct glyph as [|g glyph]; [done|].
      simpl in Hg0, Hc. congruence. }
  split; [done|].
  unfold extractDescriptionAndEmoji. by rewrite Hfind.
Qed.

Lemma no_E_versionFree description : 69 ∉ description -> versionFree description.
Proof.
  intros H before d after ->. exfalso. apply H.
  rewrite elem_of_app, elem_of_cons. auto.
Qed.

(** X8.  On a well-formed annotation the expression matches with the
    glyph and the description as its two groups, and the extractor
    returns the trimmed glyph and the cleaned description.  The glyph may
    itself hold something that looks like a version: the cut is at the
    last one. *)
Theorem extractor_cuts_at_the_version
        (blank glyph major minor description : gostring) :
  wellFormed blank glyph major minor description ->
  regexp.FindStringSubmatch re
    (blank ++ glyph ++ " E" ++ major ++ "." ++ minor ++ " " ++ description)
  = Some [glyph; description]
  /\ extractDescriptionAndEmoji
       (blank ++ glyph ++ " E" ++ major ++ "." ++ minor ++ " " ++ description)
     = (strings.TrimSpace glyph, junkFree description).
Proof. apply wellFormed_match. Qed.

Lemma extractor_cuts_at_the_version_witness :
  extractDescriptionAndEmoji " X E0.7 Y E1.0 grinning face"
  = ("X E0.7 Y", "grinning-face").
Proof.
  destruct (extractor_cuts_at_the_version
              " " "X E0.7 Y" "1" "0" "grinning face") as [_ H].
  - repeat apply conj;
      [ done | repeat constructor | by eexists | repeat constructor
      | done | repeat constructor | done | repeat constructor
      | done | repeat constructor
      | apply no_E_versionFree, (bool_decide_unpack _);
        vm_compute; reflexivity ].
  - exact H.
Defined.

Lemma SplitN2_app a rest :
  59 ∉ a -> strings.SplitN2 (a ++ 59 :: rest) ";" = [a; rest].
Proof.
  intros H. unfold strings.SplitN2. cbn [strings.genSplit].
  rewrite Index_single_app by done.
  rewrite take_app_length. simpl length. by rewrite drop_past.
Qed.

Lemma kept_line (cps status ann tail currentSubgroup : gostring) :
  let line := cps ++ ";" ++ status ++ "#" ++ ann ++ tail in
  strings.HasPrefix line header = false ->
  skipped line = false ->
  59 ∉ cps -> 35 ∉ status -> 35 ∉ ann ->
  tail = [] \/ (exists rest, tail = 35 :: rest) ->
  parseEmojiLine line currentSubgroup
  = (Return [mkEmojiData (extractDescriptionAndEmoji ann).1
                         (extractDescriptionAndEmoji ann).2
                         currentSubgroup], currentSubgroup).
Proof.
  intros line Hhead Hskip Hcps Hstatus Hann Htail.
  rewrite (EmojiTestProps.parseEmojiLine_kept line currentSubgroup
             (status ++ "#" ++ ann ++ tail)); [|done|done|].
  - change (status ++ "#" ++ ann ++ tail)
      with (status ++ 35 :: (ann ++ tail)).
    rewrite (Split_app 35) by done.
    destruct (Split_head 35 ann tail Hann Htail) as [more ->].
    done.
  - unfold line. change (cps ++ ";" ++ ?x) with (cps ++ 59 :: x).
    by rewrite SplitN2_app.
Qed.

(** X9.  Of a line that is kept, [cps;status#ann] followed by nothing
    or by a further [#...], the parser reads the annotation [ann] only,
    the text between the first and the second number sign after the
    first semicolon: a glyph or a name that holds a number sign is cut
    off, as for the keycap of [#] itself. *)
Theorem annotation_is_cut_at_the_next_hash
        (cps status ann tail currentSubgroup : gostring) :
  let line := cps ++ ";" ++ status ++ "#" ++ ann ++ tail in
  strings.HasPrefix line header = false ->
  skipped line = false ->
  59 ∉ cps -> 35 ∉ status -> 35 ∉ ann ->
  tail = [] \/ (exists rest, tail = 35 :: rest) ->
  parseEmojiLine line currentSubgroup
  = (Return [mkEmojiData (extractDescriptionAndEmoji ann).1
                         (extractDescriptionAndEmoji ann).2
                         currentSubgroup], currentSubgroup).
Proof. apply kept_line. Qed.

Lemma annotation_is_cut_at_the_next_hash_witness :
  parseEmojiLine "0023 FE0F 20E3 ; fully-qualified # #️⃣ E0.6 keycap: #"
                 "keycap"
  = (Return [mkEmojiData [] [] "keycap"], "keycap").
Proof.
  apply (annotation_is_cut_at_the_next_hash
           "0023 FE0F 20E3 " " fully-qualified " " "
           "#️⃣ E0.6 keycap: #" "keycap").
  - vm_compute; reflexivity.
  - vm_compute; reflexivity.
  - apply (bool_decide_unpack _); vm_compute; reflexivity.
  - apply (bool_decide_unpack _); vm_compute; reflexivity.
  - apply (bool_decide_unpack _); vm_compute; reflexivity.
  - right. by eexists.
Defined.

(** X10.  A kept line with a well-formed annotation that holds no number
    sign gives exactly one record: the trimmed glyph, the cleaned
    description and the current subgroup, which stays as it is. *)
Theorem wellFormed_line_gives_its_record
        (cps status blank glyph major minor description currentSubgroup
         : gostring) :
  let line := cps ++ ";" ++ status ++ "#" ++ blank ++ glyph ++ " E" ++ major
              ++ "." ++ minor ++ " " ++ description in
  strings.HasPrefix line header = false ->
  skipped line = false ->
  59 ∉ cps -> 35 ∉ status -> 35 ∉ glyph -> 35 ∉ description ->
  wellFormed blank glyph major minor description ->
  parseEmojiLine line currentSubgroup
  = (Return [mkEmojiData (strings.TrimSpace glyph) (junkFree description)
                         currentSubgroup], currentSubgroup).
Proof.
  intros line Hhead Hskip Hcps Hstatus Hglyph Hdesc Hwf. subst line.
  pose proof (kept_line cps status
                (blank ++ glyph ++ " E" ++ major ++ "." ++ minor ++ " "
                 ++ description) [] currentSubgroup) as H.
  rewrite !app_nil_r in H. cbn zeta in H.
  rewrite H; try done.
  - destruct (wellFormed_match _ _ _ _ _ Hwf) as [_ ->]. done.
  - destruct Hwf as (_ & Hb & _ & _ & _ & Hm & _ & Hn & _).
    rewrite !not_elem_of_app. repeat split; try done.
    + intros Hin. rewrite Forall_forall in Hb. by specialize (Hb _ Hin).
    + apply (bool_decide_unpack _); vm_compute; reflexivity.
    + intros Hin. rewrite Forall_forall in Hm. by specialize (Hm _ Hin).
    + apply (bool_decide_unpack _); vm_compute; reflexivity.
    + intros Hin. rewrite Forall_forall in Hn. by specialize (Hn _ Hin).
    + apply (bool_decide_unpack _); vm_compute; reflexivity.
  - by left.
Qed.

Lemma wellFormed_line_gives_its_record_witness :
  parseEmojiLine "1F600 ; fully-qualified # 😀 E1.0 grinning face"
                 "face-smiling"
  = (Return [mkEmojiData "😀" "grinning-face" "face-smiling"],
     "face-smiling").
Proof.
  apply (wellFormed_line_gives_its_record
           "1F600 " " fully-qualified " " " "😀" "1" "0" "grinning face"
           "face-smiling").
  - vm_compute; reflexivity.
  - vm_compute; reflexivity.
  - apply (bool_decide_unpack _); vm_compute; reflexivity.
  - apply (bool_decide_unpack _); vm_compute; reflexivity.
  - apply (bool_decide_unpack _); vm_compute; reflexivity.
  - apply (bool_decide_unpack _); vm_compute; reflexivity.
  - repeat apply conj;
      [ done | repeat constructor | by eexists | repeat constructor
      | done | repeat constructor | done | repeat constructor
      | done | repeat constructor
      | apply no_E_versionFree, (bool_decide_unpack _);
        vm_compute; reflexivity ].
Defined.

End ExtractorProps.

(** ** The subgroups of a run *)

Module SubgroupProps.
Import EmojiTest EmojiTestSpec EmojiTestProps EmojiTestScanProps.

Lemma replaceFrom_single_rune s a new :
  strings.replaceFrom 0 s [a] new
  = flat_map (fun c => if rune_eqb c a then new else [c]) s.
Proof.
  induction s as [|c s IH]; simpl; [done|].
  rewrite andb_true_r. destruct (rune_eqb c a); simpl; by rewrite IH.
Qed.

Lemma subgroupOf_clean line c : c ∈ subgroupOf line -> c <> 32 /\ c <> 38.
Proof.
  unfold subgroupOf. rewrite hyphenate_spaces.
  intros (x & -> & Hx)%list_elem_of_fmap.
  assert (x <> 38) as Hamp.
  { unfold strings.ReplaceAll in Hx. rewrite replaceFrom_single_rune in Hx.
    apply list_elem_of_In, in_flat_map in Hx as (y & _ & Hy).
    apply list_elem_of_In in Hy.
    destruct (rune_eqb y 38) eqn:E.
    - intros ->. revert Hy. apply (bool_decide_unpack _).
      vm_compute; reflexivity.
    - apply list_elem_of_singleton in Hy as ->.
      intros ->. by vm_compute in E. }
  destruct (x =? 32) eqn:E; [done|]. apply Z.eqb_neq in E. done.
Qed.

Lemma records_clean lines currentSubgroup emojis :
  (forall s c, currentSubgroup = Some s -> c ∈ s -> c <> 32 /\ c <> 38) ->
  records lines currentSubgroup = Return emojis ->
  Forall (fun e => forall c, c ∈ Subgroup e -> c <> 32 /\ c <> 38) emojis.
Proof.
  revert currentSubgroup emojis.
  induction lines as [|line lines IH]; intros ctx emojis Hctx H.
  - injection H as <-. constructor.
  - rewrite records_cons in H.
    destruct (strings.HasPrefix line header) eqn:Hhead.
    + rewrite readLine_header in H by done. simpl in H.
      destruct (records lines (Some (subgroupOf line))) as [later|] eqn:E;
        [|done].
      injection H as <-. eapply IH; [|done].
      intros s c [= <-]. apply subgroupOf_clean.
    + destruct ctx as [s|].
      * rewrite readLine_data in H by done. cbn [fst snd] in H.
        destruct (parseEmojiLine_data line s Hhead) as [_ Hdata].
        destruct ((parseEmojiLine line s).1) as [here|] eqn:Ehere; [|done].
        destruct (Hdata _ eq_refl) as [Hsub _].
        simpl in H.
        destruct (records lines (Some s)) as [later|] eqn:E; [|done].
        injection H as <-. apply Forall_app. split.
        -- eapply Forall_impl; [exact Hsub|].
           intros e -> c. by apply Hctx.
        -- by eapply IH.
      * rewrite readLine_unset in H by done. simpl in H.
        destruct (records lines None) as [later|] eqn:E; [|done].
        injection H as <-. by eapply IH.
Qed.

(** X11.  No record of a run carries a space or an ampersand in its
    subgroup: [main] trims the name of the header, writes [and] for [&]
    and [-] for each space before it sets the pointer. *)
Theorem subgroups_hold_no_space_and_no_ampersand
        (lines : list gostring) (emojis : list EmojiData) :
  records lines None = Return emojis ->
  Forall (fun e => (32 ∉ Subgroup e) /\ (38 ∉ Subgroup e)) emojis.
Proof.
  intros H. eapply Forall_impl; [eapply records_clean; [|exact H]; done|].
  intros e He. split; intros Hin; by destruct (He _ Hin).
Qed.

Lemma subgroups_hold_no_space_and_no_ampersand_witness :
  let lines := ["# subgroup: hand-fingers & partial";
                "1F44C ; fully-qualified # X E0.6 OK hand"] in
  let emojis := [mkEmojiData "X" "OK-hand" "hand-fingers-and-partial"] in
  records lines None = Return emojis
  /\ Forall (fun e => (32 ∉ Subgroup e) /\ (38 ∉ Subgroup e)) emojis.
Proof.
  assert (records ["# subgroup: hand-fingers & partial";
                   "1F44C ; fully-qualified # X E0.6 OK hand"] None
          = Return [mkEmojiData "X" "OK-hand" "hand-fingers-and-partial"])
    as H by (vm_compute; reflexivity).
  split; [exact H|].
  exact (subgroups_hold_no_space_and_no_ampersand _ _ H).
Defined.

End SubgroupProps.

(** ** The paths of the snippet files *)

Module PathProps.
Import Trace.

Lemma Contains_single c s : strings.Contains s [c] = true <-> c ∈ s.
Proof.
  split.
  - intros H. destruct (decide (c ∈ s)) as [|Hn]; [done|].
    unfold strings.Contains in H. by rewrite Index_single_notin in H.
  - intros (a & b & ->)%list_elem_of_split.
    apply (Contains_app a [c] b).
Qed.

Lemma Contains_single_false c s : strings.Contains s [c] = false <-> c ∉ s.
Proof.
  rewrite <- Contains_single. by destruct (strings.Contains s [c]).
Qed.

(** [filepath.Split] cuts the path in two, and the file name holds no
    separator. *)
Lemma filepath_Split_spec path :
  (filepath.Split path).1 ++ (filepath.Split path).2 = path
  /\ filepath.slash ∉ (filepath.Split path).2.
Proof.
  induction path as [|c rest [IH1 IH2]]; [split; [done | apply not_elem_of_nil]|].
  cbn [filepath.Split].
  destruct (filepath.Split rest) as [dir file]. cbn [fst snd] in *.
  destruct (strings.Contains rest [filepath.slash]) eqn:E.
  - cbn [fst snd]. split; [simpl; by rewrite IH1 | done].
  - apply Contains_single_false in E.
    destruct (rune_eqb c filepath.slash) eqn:Ec; cbn [fst snd].
    + done.
    + split; [done|]. apply not_elem_of_cons. split; [|done].
      intros <-. unfold rune_eqb in Ec. by rewrite Z.eqb_refl in Ec.
Qed.

Lemma filepath_Split_plain name :
  filepath.slash ∉ name -> filepath.Split name = ([], name).
Proof.
  induction name as [|c rest IH]; intros H; [done|].
  apply not_elem_of_cons in H as [Hc Hrest].
  cbn [filepath.Split]. rewrite IH by done.
  apply Contains_single_false in Hrest. rewrite Hrest.
  destruct (rune_eqb c filepath.slash) eqn:Ec; [|done].
  apply rune_eqb_eq in Ec. congruence.
Qed.

Lemma filepath_Split_dir dir name :
  filepath.slash ∉ name ->
  filepath.Split (dir ++ filepath.slash :: name)
  = (dir ++ [filepath.slash], name).
Proof.
  intros H. induction dir as [|c dir IH].
  - simpl. rewrite filepath_Split_plain by done.
    apply Contains_single_false in H. by rewrite H.
  - change ((c :: dir) ++ filepath.slash :: name)
      with (c :: (dir ++ filepath.slash :: name)).
    cbn [filepath.Split]. rewrite IH.
    replace (strings.Contains (dir ++ filepath.slash :: name)
                              [filepath.slash]) with true; [done|].
    symmetry. apply Contains_single.
    rewrite elem_of_app, elem_of_cons. auto.
Qed.

(** A single element that is a plain name is left alone by [Join], and
    goes below a plain directory name. *)
Lemma Clean_plain name :
  name <> [] -> name <> "." -> name <> ".." -> filepath.slash ∉ name ->
  filepath.Clean name = name.
Proof.
  intros H0 H1 H2 Hs. unfold filepath.Clean.
  replace (strings.HasPrefix name [filepath.slash]) with false.
  - rewrite Split_notin by done. cbn [filepath.cleanLoop].
    rewrite !bool_decide_eq_false_2 by done. simpl.
    by destruct name.
  - destruct name as [|c name]; [done|]. simpl.
    apply not_elem_of_cons in Hs as [Hc _].
    rewrite andb_true_r. symmetry. apply not_true_is_false.
    intros E. apply rune_eqb_eq in E. congruence.
Qed.

Lemma Join_plain name :
  name <> [] -> name <> "." -> name <> ".." -> filepath.slash ∉ name ->
  filepath.Join [[]; name] = name
  /\ filepath.Join ["build"; name] = "build/" ++ name.
Proof.
  intros H0 H1 H2 Hs. split.
  - unfold filepath.Join.
    rewrite filter_cons_False by (intros H; by apply H).
    rewrite filter_cons_True by done. rewrite filter_nil.
    cbn [filepath.joinWith]. by apply Clean_plain.
  - unfold filepath.Join.
    rewrite filter_cons_True by done.
    rewrite filter_cons_True by done. rewrite filter_nil.
    cbn [filepath.joinWith]. unfold filepath.Clean.
    change (strings.HasPrefix ("build" ++ [filepath.slash] ++ name)
                              [filepath.slash]) with false.
    cbv iota.
    change ("build" ++ [filepath.slash] ++ name)
      with ("build" ++ filepath.slash :: name).
    rewrite Split_app
      by (apply (bool_decide_unpack _); vm_compute; reflexivity).
    rewrite Split_notin by done.
    cbn [filepath.cleanLoop].
    rewrite (bool_decide_eq_false_2 (name = [])) by done.
    rewrite (bool_decide_eq_false_2 (name = ".")) by done.
    rewrite (bool_decide_eq_false_2 (name = "..")) by done.
    rewrite (bool_decide_eq_false_2 ("build" = [])) by done.
    rewrite (bool_decide_eq_false_2 ("build" = ".")) by done.
    rewrite (bool_decide_eq_false_2 ("build" = "..")) by done.
    done.
Qed.

Lemma fileNameOf_plain description uid :
  filepath.slash ∉ description -> filepath.slash ∉ uid ->
  fileNameOf description uid <> [] /\ fileNameOf description uid <> "."
  /\ fileNameOf description uid <> ".."
  /\ filepath.slash ∉ fileNameOf description uid.
Proof.
  intros Hd Hu.
  assert (32 ∈ fileNameOf description uid) as Hsp.
  { unfold fileNameOf. rewrite elem_of_app. right. left. }
  repeat split.
  - intros E. rewrite E in Hsp. by apply elem_of_nil in Hsp.
  - intros E. rewrite E in Hsp. revert Hsp.
    apply (bool_decide_unpack _). vm_compute; reflexivity.
  - intros E. rewrite E in Hsp. revert Hsp.
    apply (bool_decide_unpack _). vm_compute; reflexivity.
  - unfold fileNameOf. rewrite !not_elem_of_app.
    repeat split; try done;
      apply (bool_decide_unpack _); vm_compute; reflexivity.
Qed.

Lemma ToUpper_plain s : filepath.slash ∉ s -> filepath.slash ∉ strings.ToUpper s.
Proof.
  intros H (c & Hc & Hin)%list_elem_of_fmap. apply H.
  destruct (within 97 122 c) eqn:E; [|by subst].
  unfold within in E. unfold filepath.slash in Hc. lia.
Qed.

Lemma fileNameOf_inj d1 u1 d2 u2 :
  length u1 = length u2 ->
  fileNameOf d1 u1 = fileNameOf d2 u2 -> u1 = u2.
Proof.
  unfold fileNameOf. intros Hlen H.
  rewrite !(assoc_L (++) _ " [") in H.
  apply app_inj_2 in H as [_ H]; [|by rewrite !length_app, Hlen].
  by apply app_inv_tail in H.
Qed.

Lemma snippetPath_plain (e : EmojiTest.EmojiData) uid :
  filepath.slash ∉ EmojiTest.Description e -> filepath.slash ∉ uid ->
  EmojiTest.snippetPath e uid
  = "build/" ++ fileNameOf (EmojiTest.Description e) uid.
Proof.
  intros Hd Hu.
  destruct (fileNameOf_plain _ _ Hd Hu) as (H0 & H1 & H2 & H3).
  change (EmojiTest.snippetPath e uid)
    with (filepath.Join ["build"; fileNameOf (EmojiTest.Description e) uid]).
  by destruct (Join_plain _ H0 H1 H2 H3) as [_ ->].
Qed.

Lemma pack_snippetPath_plain (e : Sequences.EmojiData) uid :
  filepath.slash ∉ Sequences.Description e -> filepath.slash ∉ uid ->
  SequencesPack.snippetPath e uid
  = fileNameOf (Sequences.Description e) uid.
Proof.
  intros Hd Hu.
  destruct (fileNameOf_plain _ _ Hd Hu) as (H0 & H1 & H2 & H3).
  change (SequencesPack.snippetPath e uid)
    with (filepath.Join [[]; fileNameOf (Sequences.Description e) uid]).
  by destruct (Join_plain _ H0 H1 H2 H3) as [-> _].
Qed.

(** X12.  With no separator in the description and in the UID, the
    snippet of a record is the file [<description> [<uid>].json], below
    [build/] in the emoji-test.txt program and in the working directory
    in [src/main.go]: [filepath.Join] changes nothing in the name. *)
Theorem snippet_file_is_named_after_description_and_uid
        (e : EmojiTest.EmojiData) (e' : Sequences.EmojiData)
        (uid : gostring) :
  filepath.slash ∉ uid ->
  (filepath.slash ∉ EmojiTest.Description e ->
   EmojiTest.snippetPath e uid
   = "build/" ++ fileNameOf (EmojiTest.Description e) uid
   /\ filepath.Split (EmojiTest.snippetPath e uid)
      = ("build/", fileNameOf (EmojiTest.Description e) uid))
  /\ (filepath.slash ∉ Sequences.Description e' ->
      SequencesPack.snippetPath e' uid
      = fileNameOf (Sequences.Description e') uid
      /\ filepath.Split (SequencesPack.snippetPath e' uid)
         = ([], fileNameOf (Sequences.Description e') uid)).
Proof.
  intros Hu. split; intros Hd.
  - rewrite snippetPath_plain by done. split; [done|].
    apply (filepath_Split_dir "build").
    by apply fileNameOf_plain.
  - rewrite pack_snippetPath_plain by done. split; [done|].
    apply filepath_Split_plain. by apply fileNameOf_plain.
Qed.

Lemma snippet_file_is_named_after_description_and_uid_witness :
  EmojiTest.snippetPath
    (EmojiTest.mkEmojiData "😀" "grinning-face" "face-smiling") "0000-A"
  = "build/grinning-face [0000-A].json"
  /\ SequencesPack.snippetPath
       (Sequences.mkEmojiData "1F600" "grinning face") "0000-A"
     = "grinning face [0000-A].json".
Proof.
  destruct (snippet_file_is_named_after_description_and_uid
              (EmojiTest.mkEmojiData "😀" "grinning-face" "face-smiling")
              (Sequences.mkEmojiData "1F600" "grinning face") "0000-A")
    as [HA HB].
  - apply (bool_decide_unpack _); vm_compute; reflexivity.
  - split.
    + apply HA. apply (bool_decide_unpack _); vm_compute; reflexivity.
    + apply HB. apply (bool_decide_unpack _); vm_compute; reflexivity.
Defined.

End PathProps.

(** ** One file for each snippet *)

Module NamingProps.
Import Trace PathProps.

Section Naming.

Variable json_Marshal : AlfredSnippet -> result gostring.
Variable source : nat -> gostring.

(** UUIDs as the generator hands them out: texts of one length without
    a separator, pairwise different after [strings.ToUpper]. *)
Hypothesis source_inj :
  forall i j, strings.ToUpper (source i) = strings.ToUpper (source j) -> i = j.
Hypothesis source_length : forall i j, length (source i) = length (source j).
Hypothesis source_plain : forall i, filepath.slash ∉ source i.

Lemma snippet_paths n emojis path :
  path ∈ writePaths (EmojiTestSpec.snippetWrites json_Marshal source n emojis) ->
  exists e i, e ∈ emojis /\ (n <= i)%nat
              /\ path = EmojiTest.snippetPath e (strings.ToUpper (source i)).
Proof.
  revert n; induction emojis as [|e emojis IH]; intros n H; simpl in H.
  - by apply elem_of_nil in H.
  - assert (path ∈ writePaths (EmojiTestSpec.snippetWrites json_Marshal source
                                 (S n) emojis) ->
            exists e0 i, e0 ∈ e :: emojis /\ (n <= i)%nat
              /\ path = EmojiTest.snippetPath e0 (strings.ToUpper (source i)))
      as Hrest.
    { intros Hin. destruct (IH _ Hin) as (e0 & i & He & Hi & ->).
      exists e0, i. split; [by right|]. split; [lia | done]. }
    destruct (json_Marshal _) as [jsonData|err]; [|by apply Hrest].
    simpl in H. apply elem_of_cons in H as [->|H]; [|by apply Hrest].
    exists e, n. split; [by left|]. split; [lia | done].
Qed.

Lemma snippet_paths_NoDup n emojis :
  Forall (fun e => filepath.slash ∉ EmojiTest.Description e) emojis ->
  NoDup (writePaths (EmojiTestSpec.snippetWrites json_Marshal source n emojis)).
Proof.
  intros Hplain. revert n.
  induction Hplain as [|e emojis He Hplain IH]; intros n; simpl.
  - constructor.
  - destruct (json_Marshal _) as [jsonData|err]; [|apply IH].
    simpl. constructor; [|apply IH].
    intros (e' & i & He' & Hi & Heq)%snippet_paths.
    rewrite Forall_forall in Hplain.
    rewrite !snippetPath_plain in Heq
      by (try apply ToUpper_plain; auto).
    apply app_inv_head in Heq.
    apply fileNameOf_inj in Heq.
    + apply source_inj in Heq. lia.
    + unfold strings.ToUpper. rewrite !length_fmap. apply source_length.
Qed.

Lemma snippet_paths_hold_space n emojis path :
  Forall (fun e => filepath.slash ∉ EmojiTest.Description e) emojis ->
  path ∈ writePaths (EmojiTestSpec.snippetWrites json_Marshal source n emojis) ->
  32 ∈ path /\ strings.HasPrefix path "build/" = true.
Proof.
  intros Hplain (e & i & He & _ & ->)%snippet_paths.
  rewrite Forall_forall in Hplain.
  rewrite snippetPath_plain by (try apply ToUpper_plain; auto).
  split.
  - unfold fileNameOf. rewrite !elem_of_app. right. right. left. by left.
  - apply HasPrefix_app.
Qed.

Lemma pack_snippet_paths n emojis path :
  path ∈ writePaths (SequencesSpec.snippetWrites json_Marshal source n emojis) ->
  exists e i, e ∈ emojis /\ (n <= i)%nat
              /\ path = SequencesPack.snippetPath e (strings.ToUpper (source i)).
Proof.
  revert n; induction emojis as [|e emojis IH]; intros n H; simpl in H.
  - by apply elem_of_nil in H.
  - assert (path ∈ writePaths (SequencesSpec.snippetWrites json_Marshal source
                                 (S n) emojis) ->
            exists e0 i, e0 ∈ e :: emojis /\ (n <= i)%nat
              /\ path = SequencesPack.snippetPath e0
                          (strings.ToUpper (source i)))
      as Hrest.
    { intros Hin. destruct (IH _ Hin) as (e0 & i & He & Hi & ->).
      exists e0, i. split; [by right|]. split; [lia | done]. }
    destruct (json_Marshal _) as [jsonData|err]; [|by apply Hrest].
    simpl in H. apply elem_of_cons in H as [->|H]; [|by apply Hrest].
    exists e, n. split; [by left|]. split; [lia | done].
Qed.

Lemma pack_snippet_paths_NoDup n emojis :
  Forall (fun e => filepath.slash ∉ Sequences.Description e) emojis ->
  NoDup (writePaths (SequencesSpec.snippetWrites json_Marshal source n emojis)).
Proof.
  intros Hplain. revert n.
  induction Hplain as [|e emojis He Hplain IH]; intros n; simpl.
  - constructor.
  - destruct (json_Marshal _) as [jsonData|err]; [|apply IH].
    simpl. constructor; [|apply IH].
    intros (e' & i & He' & Hi & Heq)%pack_snippet_paths.
    rewrite Forall_forall in Hplain.
    rewrite !pack_snippetPath_plain in Heq
      by (try apply ToUpper_plain; auto).
    apply fileNameOf_inj in Heq.
    + apply source_inj in Heq. lia.
    + unfold strings.ToUpper. rewrite !length_fmap. apply source_length.
Qed.

Lemma pack_snippet_paths_hold_space n emojis path :
  Forall (fun e => filepath.slash ∉ Sequences.Description e) emojis ->
  path ∈ writePaths (SequencesSpec.snippetWrites json_Marshal source n emojis) ->
  32 ∈ path /\ filepath.slash ∉ path.
Proof.
  intros Hplain (e & i & He & _ & ->)%pack_snippet_paths.
  rewrite Forall_forall in Hplain.
  rewrite pack_snippetPath_plain by (try apply ToUpper_plain; auto).
  split.
  - unfold fileNameOf. rewrite !elem_of_app. right. left. by left.
  - apply fileNameOf_plain; [|apply ToUpper_plain]; auto.
Qed.

Lemma fixed_paths :
  EmojiTestSpec.plistFileName = "build/info.plist"
  /\ SequencesSpec.plistFileName = "info.plist".
Proof. split; vm_compute; reflexivity. Qed.

Lemma all_paths_NoDup n emojis :
  Forall (fun e => filepath.slash ∉ EmojiTest.Description e) emojis ->
  NoDup (writePaths
           (EmojiTestSpec.snippetWrites json_Marshal source n emojis
            ++ [EmojiTestSpec.plistCall])
         ++ [EmojiTestSpec.iconFileName]).
Proof.
  intros Hplain.
  rewrite EmojiTestRunProps.writePaths_app, <- app_assoc.
  cbn [writePaths EmojiTestSpec.plistCall app].
  destruct fixed_paths as [-> _]. unfold EmojiTestSpec.iconFileName.
  apply NoDup_app. split; [by apply snippet_paths_NoDup|]. split.
  - intros path [Hsp _]%snippet_paths_hold_space; [|done].
    intros [->| ->%list_elem_of_singleton]%elem_of_cons;
      revert Hsp; apply (bool_decide_unpack _); vm_compute; reflexivity.
  - apply (bool_decide_unpack _). vm_compute; reflexivity.
Qed.

Lemma pack_all_paths_NoDup n emojis :
  Forall (fun e => filepath.slash ∉ Sequences.Description e) emojis ->
  NoDup (writePaths
           (SequencesSpec.snippetWrites json_Marshal source n emojis
            ++ [SequencesSpec.plistCall])
         ++ [SequencesSpec.iconFileName]).
Proof.
  intros Hplain.
  rewrite EmojiTestRunProps.writePaths_app, <- app_assoc.
  cbn [writePaths SequencesSpec.plistCall app].
  destruct fixed_paths as [_ ->]. unfold SequencesSpec.iconFileName.
  apply NoDup_app. split; [by apply pack_snippet_paths_NoDup|]. split.
  - intros path [Hsp _]%pack_snippet_paths_hold_space; [|done].
    intros [->| ->%list_elem_of_singleton]%elem_of_cons;
      revert Hsp; apply (bool_decide_unpack _); vm_compute; reflexivity.
  - apply (bool_decide_unpack _). vm_compute; reflexivity.
Qed.

End Naming.

(** X13.  When the UUIDs handed out are pairwise different, of one
    length and free of separators, and no description holds a separator,
    the snippet files of a run, info.plist and the icon are pairwise
    different paths, in both packing programs: records with the same
    description do not share a file. *)
Theorem distinct_uuids_give_distinct_files
        (json_Marshal : AlfredSnippet -> result gostring)
        (source : nat -> gostring) (n : nat)
        (emojis : list EmojiTest.EmojiData)
        (sequences : list Sequences.EmojiData) :
  (forall i j,
      strings.ToUpper (source i) = strings.ToUpper (source j) -> i = j) ->
  (forall i j, length (source i) = length (source j)) ->
  (forall i, filepath.slash ∉ source i) ->
  (Forall (fun e => filepath.slash ∉ EmojiTest.Description e) emojis ->
   NoDup (writePaths
            (EmojiTestSpec.snippetWrites json_Marshal source n emojis
             ++ [EmojiTestSpec.plistCall])
          ++ [EmojiTestSpec.iconFileName]))
  /\ (Forall (fun e => filepath.slash ∉ Sequences.Description e) sequences ->
      NoDup (writePaths
               (SequencesSpec.snippetWrites json_Marshal source n sequences
                ++ [SequencesSpec.plistCall])
             ++ [SequencesSpec.iconFileName])).
Proof.
  intros Hinj Hlen Hplain. split; intros H.
  - by apply all_paths_NoDup.
  - by apply pack_all_paths_NoDup.
Qed.

Lemma uuidDemo_upper i :
  strings.ToUpper (uuidDemo i)
  = "0000-" ++ [if within 97 122 (97 + Z.of_nat i) then 65 + Z.of_nat i
                else 97 + Z.of_nat i].
Proof.
  unfold uuidDemo, strings.ToUpper. rewrite fmap_app. simpl.
  destruct (within 97 122 (97 + Z.of_nat i)); do 6 f_equal; lia.
Qed.

Lemma uuidDemo_inj i j :
  strings.ToUpper (uuidDemo i) = strings.ToUpper (uuidDemo j) -> i = j.
Proof.
  rewrite !uuidDemo_upper. intros H. apply app_inv_head in H.
  injection H as H. unfold within in H.
  destruct (_ && _) eqn:E1 in H; destruct (_ && _) eqn:E2 in H; lia.
Qed.

Lemma uuidDemo_plain i : filepath.slash ∉ uuidDemo i.
Proof.
  unfold uuidDemo. rewrite not_elem_of_app. split.
  - apply (bool_decide_unpack _). vm_compute; reflexivity.
  - rewrite list_elem_of_singleton. unfold filepath.slash. lia.
Qed.

Lemma distinct_uuids_give_distinct_files_witness :
  NoDup ["build/a [0000-A].json"; "build/a [0000-B].json";
         "build/info.plist"; "../icon.png"].
Proof.
  destruct (distinct_uuids_give_distinct_files
              jsonText uuidDemo 0
              [EmojiTest.mkEmojiData "x" "a" "s";
               EmojiTest.mkEmojiData "y" "a" "s"] [])
    as [H _].
  - apply uuidDemo_inj.
  - reflexivity.
  - apply uuidDemo_plain.
  - apply H. repeat constructor;
      apply (bool_decide_unpack _); vm_compute; reflexivity.
Defined.

End NamingProps.

(** ** The loop of package mode *)

Module LoopProps.
Import EmojiTest EmojiTestSpec Trace EmojiTestRunProps Console.

Section Loop.

Variable json_Marshal : AlfredSnippet -> result gostring.

Lemma emit_run e filesToZip w :
  let cs := snippetWrites json_Marshal (uuidSource w) (drawn w) [e] in
  emit false json_Marshal e filesToZip w
  = (Return (filesToZip ++ (written (denied w) cs).*1),
     wrote cs (snippetErrors json_Marshal (denied w) (uuidSource w)
                 (drawn w) [e]) 1 w).
Proof.
  unfold emit. cbn [negb snippetWrites snippetErrors]. rewrite io_bind.
  unfold generateUID at 1. cbn [fst snd].
  unfold generateAlfredSnippetJSON.
  fold (snippetOf e (strings.ToUpper (uuidSource w (drawn w)))).
  rewrite io_bind.
  destruct (json_Marshal (snippetOf e (strings.ToUpper (uuidSource w (drawn w)))))
    as [jsonData|err].
  - rewrite WriteFile_run. unfold wrote. cbn [files stdout calls
      drawn uuidSource denied zipBytes replay written].
    destruct (denied w (snippetPath e (strings.ToUpper (uuidSource w (drawn w)))))
      as [e0|]; simpl.
    + rewrite !app_nil_r, Nat.add_0_r, Nat.add_1_r. reflexivity.
    + rewrite !app_nil_r, Nat.add_0_r, Nat.add_1_r. reflexivity.
  - simpl. unfold wrote. simpl.
    rewrite !app_nil_r, Nat.add_1_r. reflexivity.
Qed.

Lemma snippetErrors_cons deny source n e emojis :
  snippetErrors json_Marshal deny source n (e :: emojis)
  = snippetErrors json_Marshal deny source n [e]
    ++ snippetErrors json_Marshal deny source (S n) emojis.
Proof.
  simpl. destruct (json_Marshal _); [|done].
  by destruct (deny _).
Qed.

Lemma emitAll_run emojis filesToZip w :
  let cs := snippetWrites json_Marshal (uuidSource w) (drawn w) emojis in
  emitAll false json_Marshal emojis filesToZip w
  = (Return (filesToZip ++ (written (denied w) cs).*1),
     wrote cs (snippetErrors json_Marshal (denied w) (uuidSource w)
                 (drawn w) emojis) (length emojis) w).
Proof.
  revert filesToZip w; induction emojis as [|e emojis IH]; intros filesToZip w.
  - simpl. unfold wrote. simpl. destruct w. simpl.
    by rewrite !app_nil_r, Nat.add_0_r.
  - cbn zeta. rewrite (snippetWrites_cons json_Marshal), snippetErrors_cons.
    cbn [emitAll]. rewrite io_bind, emit_run.
    cbn zeta. rewrite IH.
    rewrite wrote_wrote.
    cbn [denied uuidSource drawn wrote length].
    rewrite Nat.add_1_r, written_app, fmap_app, app_assoc. reflexivity.
Qed.

Lemma scan_run lines currentSubgroup emojis filesToZip w :
  records lines currentSubgroup = Return emojis ->
  let cs := snippetWrites json_Marshal (uuidSource w) (drawn w) emojis in
  scan false json_Marshal lines currentSubgroup filesToZip w
  = (Return (context lines currentSubgroup,
             filesToZip ++ (written (denied w) cs).*1),
     wrote cs (snippetErrors json_Marshal (denied w) (uuidSource w)
                 (drawn w) emojis) (length emojis) w).
Proof.
  intros H. cbn zeta.
  rewrite (scan_records json_Marshal _ _ _ _ _ _ H), emitAll_run. done.
Qed.

Lemma written_or_reported deny source n emojis :
  (length (written deny (snippetWrites json_Marshal source n emojis))
   + length (snippetErrors json_Marshal deny source n emojis))%nat
  = length emojis.
Proof.
  revert n; induction emojis as [|e emojis IH]; intros n; [done|].
  simpl. specialize (IH (S n)).
  destruct (json_Marshal _); simpl.
  - destruct (deny _); simpl; lia.
  - lia.
Qed.

End Loop.

(** X14.  The loop of package mode draws one UUID for each record and
    ends each record either in the list of files to zip, with one
    [os.WriteFile], or in one line [Error generating JSON for ...] on
    the console (the snippet did not marshal, or the file could not be
    written); records are never dropped silently and the loop goes on
    after an error. *)
Theorem package_loop_writes_or_reports_each_record
        (json_Marshal : AlfredSnippet -> result gostring)
        (lines : list gostring) (emojis : list EmojiData) (w : World) :
  records lines None = Return emojis ->
  let cs := snippetWrites json_Marshal (uuidSource w) (drawn w) emojis in
  let errors := snippetErrors json_Marshal (denied w) (uuidSource w)
                  (drawn w) emojis in
  scan false json_Marshal lines None [] w
  = (Return (context lines None, (written (denied w) cs).*1),
     wrote cs errors (length emojis) w)
  /\ (length (written (denied w) cs) + length errors)%nat = length emojis.
Proof.
  intros H cs errors. split.
  - by rewrite (scan_run json_Marshal _ _ _ _ _ H).
  - apply written_or_reported.
Qed.

Lemma package_loop_writes_or_reports_each_record_witness :
  let lines := ["# subgroup: face-smiling";
                "1F600 ; fully-qualified # X E1.0 grinning face";
                "1F603 ; fully-qualified # Y E0.6 grinning face with big eyes"] in
  let deny := fun path : gostring =>
                if bool_decide (path = "build/grinning-face [0000-A].json")
                then Some "permission denied" else None in
  let w := mkWorld ∅ [] [] 0 uuidDemo deny zipDemo in
  let w' := (scan false jsonText lines None [] w).2 in
  (scan false jsonText lines None [] w).1
  = Return (Some "face-smiling",
            ["build/grinning-face-with-big-eyes [0000-B].json"])
  /\ stdout w'
     = ["Error generating JSON for grinning-face: permission denied"
        ++ newline]
  /\ drawn w' = 2%nat.
Proof.
  intros lines deny w w'.
  assert (records lines None
          = Return [mkEmojiData "X" "grinning-face" "face-smiling";
                    mkEmojiData "Y" "grinning-face-with-big-eyes"
                                "face-smiling"]) as H
      by (vm_compute; reflexivity).
  destruct (package_loop_writes_or_reports_each_record jsonText lines _ w H)
    as [Hscan _].
  unfold w'. rewrite Hscan. repeat apply conj; vm_compute; reflexivity.
Defined.

End LoopProps.

(** ** The archive builder on files that are missing *)

Module ArchiveProps.
Import Trace EmojiTestRunProps SequencesRunProps PathProps Console.

Lemma bytesAt_missing path w :
  files w !! path = None -> bytesAt w path = None.
Proof. unfold bytesAt. by intros ->. Qed.

Lemma addFileToZip_missing zipWriter filename w :
  bytesAt w filename = None ->
  EmojiTest.addFileToZip zipWriter filename w
  = (Return (Some (openError filename)), w).
Proof.
  intros H. unfold EmojiTest.addFileToZip. rewrite io_bind.
  unfold os.ReadAll at 1. by rewrite H.
Qed.

Lemma addFiles_missing zipWriter found missing rest es w :
  files w !! zipWriter = Some (Container es) ->
  zipWriter ∉ found.*1 ->
  Forall (fun file => bytesAt w file.1 = Some file.2) found ->
  bytesAt w missing = None ->
  EmojiTest.addFiles zipWriter (found.*1 ++ missing :: rest) w
  = (Return (Some (openError missing)),
     archived zipWriter (es ++ (baseEntry <$> found)) w).
Proof.
  revert es w; induction found as [|[f d] found IH];
    intros es w Hes Hz Hall Hmiss.
  - cbn [fmap list_fmap app EmojiTest.addFiles]. rewrite io_bind.
    rewrite addFileToZip_missing by done.
    by rewrite app_nil_r, archived_same.
  - apply Forall_cons in Hall as [Hf Hall]. simpl in Hf.
    cbn [fmap list_fmap fst] in Hz. apply not_elem_of_cons in Hz as [Hzf Hz].
    cbn [fmap list_fmap fst app EmojiTest.addFiles]. rewrite io_bind.
    rewrite (addFileToZip_found _ _ _ _ Hf), (entriesAt_container _ _ _ Hes).
    assert (missing <> zipWriter) as Hmz.
    { intros ->. unfold bytesAt in Hmiss. by rewrite Hes in Hmiss. }
    rewrite (IH (es ++ [baseEntry (f, d)])).
    + by rewrite archived_archived, <- app_assoc.
    + unfold archived. cbn [files]. apply lookup_insert_eq.
    + exact Hz.
    + apply Forall_forall. intros file Hin.
      rewrite bytesAt_archived.
      * by apply (proj1 (Forall_forall _ _) Hall).
      * intros E. apply Hz. rewrite <- E. by apply list_elem_of_fmap_2.
    + by rewrite bytesAt_archived.
Qed.

Lemma zipFiles_missing filename found missing rest w :
  denied w filename = None ->
  filename ∉ found.*1 ->
  Forall (fun file => bytesAt w file.1 = Some file.2) found ->
  bytesAt w missing = None -> missing <> filename ->
  EmojiTest.zipFiles filename (found.*1 ++ missing :: rest) w
  = (Return (Some (openError missing)),
     archived filename (baseEntry <$> found)
              (logged [CallCreate filename] w)).
Proof.
  intros Hd Hz Hall Hmiss Hne. unfold EmojiTest.zipFiles.
  rewrite io_bind, Create_run by done.
  rewrite (addFiles_missing _ found missing rest []).
  - by rewrite archived_archived.
  - unfold archived. cbn [files]. apply lookup_insert_eq.
  - exact Hz.
  - apply Forall_forall. intros file Hin.
    rewrite bytesAt_archived.
    + by apply (proj1 (Forall_forall _ _) Hall).
    + intros E. apply Hz. rewrite <- E. by apply list_elem_of_fmap_2.
  - by rewrite bytesAt_archived.
Qed.

Lemma zipFiles_denied filename fs e w :
  denied w filename = Some e ->
  EmojiTest.zipFiles filename fs w
  = (Return (Some e), logged [CallCreate filename] w).
Proof.
  intros Hd. unfold EmojiTest.zipFiles.
  by rewrite io_bind, (Create_denied _ e).
Qed.

Lemma pack_addFileToZip_missing zipWriter fileName w :
  bytesAt w fileName = None ->
  SequencesPack.addFileToZip zipWriter fileName w
  = (Return (Some (openError fileName)), w).
Proof.
  intros H. unfold SequencesPack.addFileToZip. rewrite io_bind.
  unfold os.ReadAll at 1. by rewrite H.
Qed.

Lemma pack_addFiles_missing zipWriter found missing rest es w :
  files w !! zipWriter = Some (Container es) ->
  zipWriter ∉ found.*1 ->
  Forall (fun file => bytesAt w file.1 = Some file.2) found ->
  bytesAt w missing = None ->
  SequencesPack.addFiles zipWriter (found.*1 ++ missing :: rest) w
  = (Return (Some (openError missing)),
     archived zipWriter (es ++ found) w).
Proof.
  revert es w; induction found as [|[f d] found IH];
    intros es w Hes Hz Hall Hmiss.
  - cbn [fmap list_fmap app SequencesPack.addFiles]. rewrite io_bind.
    rewrite pack_addFileToZip_missing by done.
    by rewrite app_nil_r, archived_same.
  - apply Forall_cons in Hall as [Hf Hall]. simpl in Hf.
    cbn [fmap list_fmap fst] in Hz. apply not_elem_of_cons in Hz as [Hzf Hz].
    cbn [fmap list_fmap fst app SequencesPack.addFiles]. rewrite io_bind.
    rewrite (pack_addFileToZip_found _ _ _ _ Hf),
      (entriesAt_container _ _ _ Hes).
    assert (missing <> zipWriter) as Hmz.
    { intros ->. unfold bytesAt in Hmiss. by rewrite Hes in Hmiss. }
    rewrite (IH (es ++ [(f, d)])).
    + by rewrite archived_archived, <- app_assoc.
    + unfold archived. cbn [files]. apply lookup_insert_eq.
    + exact Hz.
    + apply Forall_forall. intros file Hin.
      rewrite bytesAt_archived.
      * by apply (proj1 (Forall_forall _ _) Hall).
      * intros E. apply Hz. rewrite <- E. by apply list_elem_of_fmap_2.
    + by rewrite bytesAt_archived.
Qed.

Lemma pack_zipFiles_missing zipFileName found missing rest w :
  denied w zipFileName = None ->
  zipFileName ∉ found.*1 ->
  Forall (fun file => bytesAt w file.1 = Some file.2) found ->
  bytesAt w missing = None -> missing <> zipFileName ->
  SequencesPack.zipFiles zipFileName (found.*1 ++ missing :: rest) w
  = (Return (Some (openError missing)),
     archived zipFileName found (logged [CallCreate zipFileName] w)).
Proof.
  intros Hd Hz Hall Hmiss Hne. unfold SequencesPack.zipFiles.
  rewrite io_bind, Create_run by done.
  rewrite (pack_addFiles_missing _ found missing rest []).
  - by rewrite archived_archived.
  - unfold archived. cbn [files]. apply lookup_insert_eq.
  - exact Hz.
  - apply Forall_forall. intros file Hin.
    rewrite bytesAt_archived.
    + by apply (proj1 (Forall_forall _ _) Hall).
    + intros E. apply Hz. rewrite <- E. by apply list_elem_of_fmap_2.
  - by rewrite bytesAt_archived.
Qed.

Lemma pack_zipFiles_denied zipFileName fs e w :
  denied w zipFileName = Some e ->
  SequencesPack.zipFiles zipFileName fs w
  = (Return (Some e), logged [CallCreate zipFileName] w).
Proof.
  intros Hd. unfold SequencesPack.zipFiles.
  by rewrite io_bind, (Create_denied _ e).
Qed.

(** A list of paths is read up to its first file that is not there. *)
Lemma found_prefix (w : World) (paths : list gostring) :
  exists found : list (gostring * gostring),
    Forall (fun file => bytesAt w file.1 = Some file.2) found
    /\ (paths = found.*1
        \/ exists missing rest,
            paths = found.*1 ++ missing :: rest /\ bytesAt w missing = None).
Proof.
  induction paths as [|p paths (found & Hall & Hrest)].
  - exists []. split; [constructor | by left].
  - destruct (bytesAt w p) as [d|] eqn:E.
    + exists ((p, d) :: found). split; [by constructor|].
      destruct Hrest as [->|(missing & rest & -> & Hm)]; [by left|].
      right. by exists missing, rest.
    + exists []. split; [constructor|]. right. by exists p, paths.
Qed.

(** X15.  [zipFiles] stops at the first file that cannot be opened: the
    error names that file, the archive has been created and holds the
    files before it, in order, and the files after it are not looked at.
    The entries carry base names in the emoji-test.txt program and the
    paths as given in [src/main.go].  The archive is not one of the files
    that go into it, as in every run of [main]. *)
Theorem zipFiles_stops_at_the_first_missing_file
        (filename missing : gostring) (found : list (gostring * gostring))
        (rest : list gostring) (w : World) :
  denied w filename = None ->
  filename ∉ found.*1 -> missing <> filename ->
  Forall (fun file => bytesAt w file.1 = Some file.2) found ->
  files w !! missing = None ->
  EmojiTest.zipFiles filename (found.*1 ++ missing :: rest) w
  = (Return (Some (openError missing)),
     archived filename (baseEntry <$> found)
              (logged [CallCreate filename] w))
  /\ SequencesPack.zipFiles filename (found.*1 ++ missing :: rest) w
     = (Return (Some (openError missing)),
        archived filename found (logged [CallCreate filename] w)).
Proof.
  intros Hd Hz Hne Hall Hmiss. apply bytesAt_missing in Hmiss. split.
  - by apply zipFiles_missing.
  - by apply pack_zipFiles_missing.
Qed.

Lemma zipFiles_stops_at_the_first_missing_file_witness :
  let w := mkWorld (<["build/a.json" := Regular "A"]>
                      (<["c.json" := Regular "C"]> ∅))
                   [] [] 0 uuidDemo (fun _ => None) zipDemo in
  EmojiTest.zipFiles "dist/x.zip" ["build/a.json"; "b.json"; "c.json"] w
  = (Return (Some "open b.json: no such file or directory"),
     archived "dist/x.zip" [("a.json", "A")]
              (logged [CallCreate "dist/x.zip"] w)).
Proof.
  intros w.
  destruct (zipFiles_stops_at_the_first_missing_file
              "dist/x.zip" "b.json" [("build/a.json", "A")] ["c.json"] w)
    as [H _].
  - reflexivity.
  - apply (bool_decide_unpack _). vm_compute; reflexivity.
  - discriminate.
  - repeat constructor.
  - reflexivity.
  - exact H.
Defined.

(** X16.  Whatever the list of paths, the archive not among them,
    [zipFiles] of the emoji-test.txt program does not panic, puts a new
    container at the path of the archive, whatever was there, changes no
    other file, and leaves in it entries whose names hold no separator,
    at most one for each path and exactly one when it reports no
    error. *)
Theorem archive_entries_carry_base_names
        (filename : gostring) (paths : list gostring) (w : World) :
  denied w filename = None ->
  filename ∉ paths ->
  exists err w' entries,
    EmojiTest.zipFiles filename paths w = (Return err, w')
    /\ files w' !! filename = Some (Container entries)
    /\ Forall (fun entry => filepath.slash ∉ entry.1) entries
    /\ (length entries <= length paths)%nat
    /\ (err = None -> length entries = length paths)
    /\ (forall path, path <> filename -> files w' !! path = files w !! path).
Proof.
  intros Hd Hz.
  destruct (found_prefix w paths)
    as (found & Hall & [->|(missing & rest & -> & Hmiss)]).
  - rewrite zipFiles_found by done.
    eexists _, _, _. split; [reflexivity|].
    split; [apply lookup_insert_eq|].
    split; [|split; [|split]].
    + apply Forall_fmap, Forall_forall. intros [p d] _. simpl.
      apply filepath_Split_spec.
    + by rewrite !length_fmap.
    + intros _. by rewrite !length_fmap.
    + intros path Hne. cbn [files archived logged].
      by apply lookup_insert_ne.
  - rewrite zipFiles_missing; [|done| |done..| ].
    + eexists _, _, _. split; [reflexivity|].
      split; [apply lookup_insert_eq|].
      split; [|split; [|split]].
      * apply Forall_fmap, Forall_forall. intros [p d] _. simpl.
        apply filepath_Split_spec.
      * rewrite length_app, !length_fmap. lia.
      * done.
      * intros path Hne. cbn [files archived logged].
        by apply lookup_insert_ne.
    + intros H. apply Hz, elem_of_app. by left.
    + intros ->. apply Hz, elem_of_app. right. by left.
Qed.

Lemma archive_entries_carry_base_names_witness :
  let w := mkWorld (<["dist/x.zip" := Regular "OLD"]> (files worldWithIcons))
                   [] [] 0 uuidDemo (fun _ => None) zipDemo in
  exists err w' entries,
    EmojiTest.zipFiles "dist/x.zip" ["../icon.png"; "icon.png"] w
    = (Return err, w')
    /\ files w' !! "dist/x.zip" = Some (Container entries)
    /\ Forall (fun entry => filepath.slash ∉ entry.1) entries
    /\ files w' !! "icon.png" = Some (Regular "PNG").
Proof.
  intros w.
  destruct (archive_entries_carry_base_names
              "dist/x.zip" ["../icon.png"; "icon.png"] w)
    as (err & w' & entries & H1 & H2 & H3 & _ & _ & H4).
  - reflexivity.
  - apply (bool_decide_unpack _). vm_compute; reflexivity.
  - exists err, w', entries. repeat split; [done..|].
    rewrite H4 by discriminate. vm_compute; reflexivity.
Defined.

End ArchiveProps.

(** ** The state of a run of package mode *)

Module OutcomeProps.
Import EmojiTest EmojiTestSpec Trace EmojiTestRunProps Console.
Import LoopProps ArchiveProps.

Section Outcome.

Variable unicodeVersion : gostring.
Variable fetchEmojiData : gostring -> result (list gostring).
Variable json_Marshal : AlfredSnippet -> result gostring.

Lemma main_reaches_package lines emojis w :
  fetchEmojiData (url unicodeVersion) = Ok lines ->
  records lines None = Return emojis ->
  main false unicodeVersion fetchEmojiData json_Marshal w
  = package unicodeVersion
      (written (denied w)
         (snippetWrites json_Marshal (uuidSource w) (drawn w) emojis)).*1
      (wrote (snippetWrites json_Marshal (uuidSource w) (drawn w) emojis)
             (snippetErrors json_Marshal (denied w) (uuidSource w)
                (drawn w) emojis)
             (length emojis) (logged mkdirs w)).
Proof.
  intros Hf Hr. unfold main. rewrite main_start.
  unfold url in Hf. rewrite Hf.
  rewrite io_bind, (scan_run json_Marshal _ _ _ _ _ Hr).
  reflexivity.
Qed.

Lemma package_zip filesToZip w :
  package unicodeVersion filesToZip w
  = match zipFiles (zipFileName unicodeVersion)
            ((filesToZip ++ (written (denied w) [plistCall]).*1)
             ++ [iconFileName])
            (wrote [plistCall] (plistError (denied w) plistFileName) 0 w)
    with
    | (Return (Some e), w3) => (Return tt, printed [zipError e] w3)
    | (Return None, w3) =>
      (fmt.Println "alfredmoji.alfredsnippets file created successfully.";;
       os.RemoveAll "build") w3
    | (Panic, w3) => (Panic, w3)
    end.
Proof.
  unfold package. cbn zeta. rewrite io_bind.
  unfold generateInfoPlist at 1. rewrite WriteFile_run.
  fold plistFileName. fold plistCall.
  cbn [denied wrote written plistCall]. unfold plistError.
  destruct (denied w plistFileName) as [e|] eqn:E.
  - rewrite io_bind.
    assert (forall ws,
      (fmt.Printf ("Error generating info.plist: " ++ e ++ newline);;
       mret filesToZip) ws
      = (Return filesToZip,
         printed ["Error generating info.plist: " ++ e ++ newline] ws))
      as -> by done.
    assert (printed ["Error generating info.plist: " ++ e ++ newline]
              (wrote [plistCall] [] 0 w)
            = wrote [plistCall]
                ["Error generating info.plist: " ++ e ++ newline] 0 w) as ->.
    { unfold printed, wrote. simpl. by rewrite app_nil_r. }
    rewrite io_bind. cbn [fmap list_fmap]. rewrite app_nil_r.
    destruct (zipFiles _ _ _) as [[[e'|]|] w3]; reflexivity.
  - rewrite io_bind.
    assert (forall ws,
      (mret (filesToZip ++ [plistFileName]) : IO (list gostring)) ws
      = (Return (filesToZip ++ [plistFileName]), ws)) as -> by done.
    rewrite io_bind. cbn [fmap list_fmap fst].
    destruct (zipFiles _ _ _) as [[[e'|]|] w3]; reflexivity.
Qed.

Lemma main_zip lines emojis w :
  fetchEmojiData (url unicodeVersion) = Ok lines ->
  records lines None = Return emojis ->
  let cs := snippetWrites json_Marshal (uuidSource w) (drawn w) emojis
            ++ [plistCall] in
  let console := snippetErrors json_Marshal (denied w) (uuidSource w)
                   (drawn w) emojis
                 ++ plistError (denied w) plistFileName in
  main false unicodeVersion fetchEmojiData json_Marshal w
  = match zipFiles (zipFileName unicodeVersion)
            ((written (denied w) cs).*1 ++ [iconFileName])
            (wrote cs console (length emojis) (logged mkdirs w))
    with
    | (Return (Some e), w3) => (Return tt, printed [zipError e] w3)
    | (Return None, w3) =>
      (fmt.Println "alfredmoji.alfredsnippets file created successfully.";;
       os.RemoveAll "build") w3
    | (Panic, w3) => (Panic, w3)
    end.
Proof.
  intros Hf Hr cs console.
  rewrite (main_reaches_package _ _ _ Hf Hr), package_zip.
  rewrite wrote_wrote. cbn [denied wrote logged].
  rewrite Nat.add_0_r. unfold cs. by rewrite written_app, fmap_app.
Qed.


End Outcome.

End OutcomeProps.

(** ** The outcomes of a run of the emoji-test.txt program *)

Module RunOutcomes.
Import EmojiTest EmojiTestSpec Trace EmojiTestRunProps Console.
Import OutcomeProps.





(** X18.  Without the icon at [../icon.png] the run ends with the error
    of [os.Open] on the console: the archive exists and holds the
    snippets and info.plist but no icon, and [build] is not removed. *)
Theorem run_without_icon_leaves_a_pack_without_it
        (unicodeVersion : gostring)
        (fetchEmojiData : gostring -> result (list gostring))
        (json_Marshal : AlfredSnippet -> result gostring)
        (lines : list gostring) (emojis : list EmojiData) (w : World) :
  fetchEmojiData (url unicodeVersion) = Ok lines ->
  records lines None = Return emojis ->
  let cs := snippetWrites json_Marshal (uuidSource w) (drawn w) emojis
            ++ [plistCall] in
  let console := snippetErrors json_Marshal (denied w) (uuidSource w)
                   (drawn w) emojis
                 ++ plistError (denied w) plistFileName in
  NoDup (writePaths cs ++ [iconFileName]) ->
  denied w (zipFileName unicodeVersion) = None ->
  files w !! iconFileName = None ->
  exists w',
    main false unicodeVersion fetchEmojiData json_Marshal w = (Return tt, w')
    /\ files w'
       = <[zipFileName unicodeVersion
             := Container (baseEntry <$> written (denied w) cs)]>
           (replay (denied w) cs (files w))
    /\ stdout w' = stdout w ++ console ++ [zipError (openError iconFileName)]
    /\ calls w' = calls w ++ mkdirs ++ cs
                  ++ [CallCreate (zipFileName unicodeVersion)].
Proof.
  intros Hf Hr cs console Hnd Hz Hi.
  pose proof (archive_is_no_input unicodeVersion json_Marshal
                (uuidSource w) (drawn w) emojis) as Hfresh.
  fold cs in Hfresh.
  apply NoDup_app in Hnd as (Hnd & Hicon & _).
  assert (iconFileName ∉ writePaths cs) as Hicon'.
  { intros H. apply (Hicon _ H). by left. }
  rewrite (main_zip unicodeVersion fetchEmojiData json_Marshal _ _ _ Hf Hr).
  fold cs. fold console.
  rewrite ArchiveProps.zipFiles_missing.
  - eexists. split; [reflexivity|].
    cbn [files stdout calls printed archived logged wrote denied].
    rewrite <- !app_assoc. repeat apply conj; reflexivity.
  - exact Hz.
  - intros H. apply Hfresh, elem_of_app. left. by eapply written_paths.
  - by apply written_present.
  - apply ArchiveProps.bytesAt_missing. cbn [files wrote logged].
    by rewrite replay_lookup_notin.
  - intros E. apply Hfresh, elem_of_app. right. rewrite <- E. by left.
Qed.

Lemma run_without_icon_leaves_a_pack_without_it_witness :
  let data := "{snippet:😀,uid:0000-A,name:(face-smiling) grinning-face,keyword:grinning-face}" in
  exists w',
    main false "15.1" (fun _ => Ok testFile) jsonText bareWorld
    = (Return tt, w')
    /\ files w' !! "build/grinning-face [0000-A].json" = Some (Regular data)
    /\ files w' !! "dist/alfredmoji-15.1.alfredsnippets"
       = Some (Container [("grinning-face [0000-A].json", data);
                          ("info.plist", plistContent ":")])
    /\ stdout w'
       = ["Error creating .alfredsnippets file: "
          ++ "open ../icon.png: no such file or directory" ++ newline].
Proof.
  destruct (run_without_icon_leaves_a_pack_without_it
              "15.1" (fun _ => Ok testFile) jsonText testFile
              [mkEmojiData "😀" "grinning-face" "face-smiling"] bareWorld)
    as (w' & Hmain & Hfiles & Hout & _).
  - reflexivity.
  - vm_compute; reflexivity.
  - apply (bool_decide_unpack _). vm_compute; reflexivity.
  - reflexivity.
  - reflexivity.
  - exists w'. split; [exact Hmain|].
    rewrite Hfiles, Hout.
    repeat apply conj; vm_compute; reflexivity.
Defined.

(** X19.  When the archive cannot be created the run prints that error,
    reads no file, changes no file beyond its writes and does not remove
    [build]: the snippets written stay there. *)
Theorem run_without_archive_keeps_build
        (unicodeVersion : gostring)
        (fetchEmojiData : gostring -> result (list gostring))
        (json_Marshal : AlfredSnippet -> result gostring)
        (lines : list gostring) (emojis : list EmojiData)
        (e : gostring) (w : World) :
  fetchEmojiData (url unicodeVersion) = Ok lines ->
  records lines None = Return emojis ->
  let cs := snippetWrites json_Marshal (uuidSource w) (drawn w) emojis
            ++ [plistCall] in
  let console := snippetErrors json_Marshal (denied w) (uuidSource w)
                   (drawn w) emojis
                 ++ plistError (denied w) plistFileName in
  denied w (zipFileName unicodeVersion) = Some e ->
  exists w',
    main false unicodeVersion fetchEmojiData json_Marshal w = (Return tt, w')
    /\ files w' = replay (denied w) cs (files w)
    /\ stdout w' = stdout w ++ console ++ [zipError e]
    /\ calls w' = calls w ++ mkdirs ++ cs
                  ++ [CallCreate (zipFileName unicodeVersion)].
Proof.
  intros Hf Hr cs console Hz.
  rewrite (main_zip unicodeVersion fetchEmojiData json_Marshal _ _ _ Hf Hr).
  fold cs. fold console.
  rewrite (ArchiveProps.zipFiles_denied _ _ e) by exact Hz.
  eexists. split; [reflexivity|].
  cbn [files stdout calls printed logged wrote denied].
  rewrite <- !app_assoc. repeat apply conj; reflexivity.
Qed.

Lemma run_without_archive_keeps_build_witness :
  let deny := fun path : gostring =>
                if bool_decide (path = "dist/alfredmoji-15.1.alfredsnippets")
                then Some "permission denied" else None in
  let w := mkWorld ∅ [] [] 0 uuidDemo deny zipDemo in
  exists w',
    main false "15.1" (fun _ => Ok testFile) jsonText w = (Return tt, w')
    /\ is_Some (files w' !! "build/grinning-face [0000-A].json")
    /\ files w' !! "dist/alfredmoji-15.1.alfredsnippets" = None
    /\ stdout w'
       = ["Error creating .alfredsnippets file: permission denied"
          ++ newline].
Proof.
  intros deny w.
  destruct (run_without_archive_keeps_build
              "15.1" (fun _ => Ok testFile) jsonText testFile
              [mkEmojiData "😀" "grinning-face" "face-smiling"]
              "permission denied" w)
    as (w' & Hmain & Hfiles & Hout & _).
  - reflexivity.
  - vm_compute; reflexivity.
  - reflexivity.
  - exists w'. split; [exact Hmain|].
    rewrite Hfiles, Hout.
    repeat apply conj; [|vm_compute; reflexivity..].
    eexists. vm_compute; reflexivity.
Defined.



End RunOutcomes.

(** ** The outcome of a run of [src/main.go] *)

Module PackOutcomeProps.
Import Sequences SequencesSpec Trace SequencesPack.
Import EmojiTestRunProps SequencesRunProps Console ArchiveProps.

Section PackOutcome.

Variable fetchEmojiData : gostring -> result (list gostring).
Variable json_Marshal : AlfredSnippet -> result gostring.

Lemma pack_emit_run e filesToZip w :
  let cs := snippetWrites json_Marshal (uuidSource w) (drawn w) [e] in
  emit false json_Marshal e filesToZip w
  = (Return (filesToZip ++ (written (denied w) cs).*1),
     wrote cs (packErrors json_Marshal (denied w) (uuidSource w)
                 (drawn w) [e]) 1 w).
Proof.
  unfold emit. cbn [negb snippetWrites packErrors]. rewrite io_bind.
  unfold generateUID at 1. cbn [fst snd].
  unfold generateAlfredSnippetJSON.
  fold (snippetOf e (strings.ToUpper (uuidSource w (drawn w)))).
  rewrite io_bind.
  destruct (json_Marshal (snippetOf e (strings.ToUpper (uuidSource w (drawn w)))))
    as [jsonData|err].
  - rewrite WriteFile_run. unfold wrote. cbn [files stdout calls
      drawn uuidSource denied zipBytes replay written].
    destruct (denied w (snippetPath e (strings.ToUpper (uuidSource w (drawn w)))))
      as [e0|]; simpl.
    + rewrite !app_nil_r, Nat.add_0_r, Nat.add_1_r. reflexivity.
    + rewrite !app_nil_r, Nat.add_0_r, Nat.add_1_r. reflexivity.
  - simpl. unfold wrote. simpl.
    rewrite !app_nil_r, Nat.add_1_r. reflexivity.
Qed.

Lemma packErrors_cons deny source n e emojis :
  packErrors json_Marshal deny source n (e :: emojis)
  = packErrors json_Marshal deny source n [e]
    ++ packErrors json_Marshal deny source (S n) emojis.
Proof.
  simpl. destruct (json_Marshal _); [|done].
  by destruct (deny _).
Qed.

Lemma pack_emitAll_run emojis filesToZip w :
  let cs := snippetWrites json_Marshal (uuidSource w) (drawn w) emojis in
  emitAll false json_Marshal emojis filesToZip w
  = (Return (filesToZip ++ (written (denied w) cs).*1),
     wrote cs (packErrors json_Marshal (denied w) (uuidSource w)
                 (drawn w) emojis) (length emojis) w).
Proof.
  revert filesToZip w; induction emojis as [|e emojis IH]; intros filesToZip w.
  - simpl. unfold wrote. simpl. destruct w. simpl.
    by rewrite !app_nil_r, Nat.add_0_r.
  - cbn zeta. rewrite (pack_snippetWrites_cons json_Marshal), packErrors_cons.
    cbn [emitAll]. rewrite io_bind, pack_emit_run.
    cbn zeta. rewrite IH.
    rewrite wrote_wrote.
    cbn [denied uuidSource drawn wrote length].
    rewrite Nat.add_1_r, written_app, fmap_app, app_assoc. reflexivity.
Qed.

Lemma pack_package_zip filesToZip w :
  package filesToZip w
  = match zipFiles zipFileName
            ((filesToZip ++ (written (denied w) [plistCall]).*1)
             ++ [iconFileName])
            (wrote [plistCall] (plistError (denied w) plistFileName) 0 w)
    with
    | (Return (Some e), w3) => (Return tt, printed [zipError e] w3)
    | (Return None, w3) =>
      (fmt.Println "EmojiPack.alfredsnippets file created successfully.";;
       os.Remove "*.json") w3
    | (Panic, w3) => (Panic, w3)
    end.
Proof.
  unfold package. cbn zeta. rewrite io_bind.
  unfold generateInfoPlist at 1. rewrite WriteFile_run.
  fold plistFileName. fold plistCall.
  cbn [denied wrote written plistCall]. unfold plistError.
  destruct (denied w plistFileName) as [e|] eqn:E.
  - rewrite io_bind.
    assert (forall ws,
      (fmt.Printf ("Error generating info.plist: " ++ e ++ newline);;
       mret filesToZip) ws
      = (Return filesToZip,
         printed ["Error generating info.plist: " ++ e ++ newline] ws))
      as -> by done.
    assert (printed ["Error generating info.plist: " ++ e ++ newline]
              (wrote [plistCall] [] 0 w)
            = wrote [plistCall]
                ["Error generating info.plist: " ++ e ++ newline] 0 w) as ->.
    { unfold printed, wrote. simpl. by rewrite app_nil_r. }
    rewrite io_bind. cbn [fmap list_fmap]. rewrite app_nil_r.
    destruct (zipFiles _ _ _) as [[[e'|]|] w3]; reflexivity.
  - rewrite io_bind.
    assert (forall ws,
      (mret (filesToZip ++ [plistFileName]) : IO (list gostring)) ws
      = (Return (filesToZip ++ [plistFileName]), ws)) as -> by done.
    rewrite io_bind. cbn [fmap list_fmap fst].
    destruct (zipFiles _ _ _) as [[[e'|]|] w3]; reflexivity.
Qed.

Lemma pack_main_zip lines w :
  fetchEmojiData url = Ok lines ->
  let cs := snippetWrites json_Marshal (uuidSource w) (drawn w)
              (records lines) ++ [plistCall] in
  let console := packErrors json_Marshal (denied w) (uuidSource w)
                   (drawn w) (records lines)
                 ++ plistError (denied w) plistFileName in
  main false fetchEmojiData json_Marshal w
  = match zipFiles zipFileName
            ((written (denied w) cs).*1 ++ [iconFileName])
            (wrote cs console (length (records lines))
                   (logged EmojiTestSpec.mkdirs w))
    with
    | (Return (Some e), w3) => (Return tt, printed [zipError e] w3)
    | (Return None, w3) =>
      (fmt.Println "EmojiPack.alfredsnippets file created successfully.";;
       os.Remove "*.json") w3
    | (Panic, w3) => (Panic, w3)
    end.
Proof.
  intros Hf cs console. unfold main. rewrite pack_main_start.
  unfold url in Hf. rewrite Hf.
  rewrite io_bind, pack_scan_records, pack_emitAll_run.
  cbn [negb app]. rewrite pack_package_zip.
  rewrite wrote_wrote. cbn [denied wrote logged].
  rewrite Nat.add_0_r. unfold cs. by rewrite written_app, fmap_app.
Qed.

Lemma pack_main_success lines icon w :
  fetchEmojiData url = Ok lines ->
  let cs := snippetWrites json_Marshal (uuidSource w) (drawn w)
              (records lines) ++ [plistCall] in
  let console := packErrors json_Marshal (denied w) (uuidSource w)
                   (drawn w) (records lines)
                 ++ plistError (denied w) plistFileName in
  NoDup (writePaths cs ++ [iconFileName]) ->
  denied w zipFileName = None ->
  files w !! iconFileName = Some (Regular icon) ->
  exists w',
    main false fetchEmojiData json_Marshal w = (Return tt, w')
    /\ files w'
       = delete "*.json"
           (<[zipFileName
                := Container (written (denied w) cs ++ [(iconFileName, icon)])]>
              (replay (denied w) cs (files w)))
    /\ stdout w' = stdout w ++ console ++ [packCreatedLine]
    /\ calls w' = calls w ++ EmojiTestSpec.mkdirs ++ cs
                  ++ [CallCreate zipFileName; CallRemove "*.json"].
Proof.
  intros Hf cs console Hnd Hz Hi.
  pose proof (pack_archive_is_no_input json_Marshal (uuidSource w) (drawn w)
                (records lines)) as Hfresh.
  fold cs in Hfresh.
  apply NoDup_app in Hnd as (Hnd & Hicon & _).
  assert (iconFileName ∉ writePaths cs) as Hicon'.
  { intros H. apply (Hicon _ H). by left. }
  rewrite (pack_main_zip _ _ Hf). fold cs. fold console.
  change ((written (denied w) cs).*1 ++ [iconFileName])
    with ((written (denied w) cs).*1 ++ [(iconFileName, icon)].*1).
  rewrite <- fmap_app.
  rewrite pack_zipFiles_found.
  - cbv iota beta. rewrite pack_cleanup_run.
    eexists. split; [reflexivity|].
    cbn [files stdout calls printed archived logged wrote denied].
    rewrite <- !app_assoc. repeat apply conj; reflexivity.
  - exact Hz.
  - rewrite fmap_app. intros [H|H]%elem_of_app; apply Hfresh, elem_of_app.
    + left. by eapply written_paths.
    + by right.
  - apply Forall_app. split; [by apply written_present|].
    repeat constructor. simpl. apply bytesAt_regular.
    cbn [files wrote logged]. by rewrite replay_lookup_notin.
Qed.

End PackOutcome.

(** X21.  [src/main.go] leaves its files behind: [os.Remove("*.json")]
    addresses the one file of that name, so after a successful run every
    snippet written and info.plist are still in the working directory
    (paths being pairwise different, as in X13), beside the archive. *)
Theorem main_go_leaves_its_files_behind
        (fetchEmojiData : gostring -> result (list gostring))
        (json_Marshal : AlfredSnippet -> result gostring)
        (lines : list gostring) (icon : gostring) (w : World) :
  fetchEmojiData url = Ok lines ->
  let cs := snippetWrites json_Marshal (uuidSource w) (drawn w)
              (records lines) ++ [plistCall] in
  NoDup (writePaths cs ++ [iconFileName]) ->
  denied w zipFileName = None ->
  files w !! iconFileName = Some (Regular icon) ->
  exists w',
    main false fetchEmojiData json_Marshal w = (Return tt, w')
    /\ files w'
       = delete "*.json"
           (<[zipFileName
                := Container (written (denied w) cs ++ [(iconFileName, icon)])]>
              (replay (denied w) cs (files w)))
    /\ (forall path data,
           (path, data) ∈ written (denied w) cs -> path <> "*.json" ->
           files w' !! path = Some (Regular data))
    /\ calls w' = calls w ++ EmojiTestSpec.mkdirs ++ cs
                  ++ [CallCreate zipFileName; CallRemove "*.json"].
Proof.
  intros Hf cs Hnd Hz Hi.
  destruct (pack_main_success fetchEmojiData json_Marshal lines icon w
              Hf Hnd Hz Hi) as (w' & Hmain & Hfiles & _ & Hcalls).
  exists w'. repeat apply conj; try done.
  intros path data Hin Hne. rewrite Hfiles, lookup_delete_ne by done.
  pose proof (pack_archive_is_no_input json_Marshal (uuidSource w) (drawn w)
                (records lines)) as Hfresh.
  fold cs in Hfresh.
  rewrite lookup_insert_ne.
  - apply replay_lookup; [|done].
    by apply NoDup_app in Hnd as (Hnd & _).
  - intros E. apply Hfresh, elem_of_app. left. rewrite E.
    apply (written_paths (denied w)).
    by apply (list_elem_of_fmap_2 fst _ (path, data)).
Qed.

Lemma main_go_leaves_its_files_behind_witness :
  let line := "1F600 ; Basic_Emoji ; grinning face # E1.0" in
  let data := "{snippet:😀,uid:0000-A,name:grinning face,keyword:grinning-face}" in
  exists w',
    main false (fun _ => Ok [line]) jsonText worldWithIcons = (Return tt, w')
    /\ files w' !! "grinning face [0000-A].json" = Some (Regular data)
    /\ files w' !! "info.plist" = Some (Regular (plistContent []))
    /\ last (calls w') = Some (CallRemove "*.json").
Proof.
  intros line data.
  destruct (main_go_leaves_its_files_behind
              (fun _ => Ok [line]) jsonText [line] "PNG" worldWithIcons)
    as (w' & Hmain & _ & Hkept & Hcalls).
  - reflexivity.
  - apply (bool_decide_unpack _). vm_compute; reflexivity.
  - reflexivity.
  - vm_compute; reflexivity.
  - exists w'. split; [exact Hmain|].
    split; [|split].
    + apply Hkept; [|done].
      apply (bool_decide_unpack _). vm_compute; reflexivity.
    + apply Hkept; [|done].
      apply (bool_decide_unpack _). vm_compute; reflexivity.
    + rewrite Hcalls. vm_compute; reflexivity.
Defined.

End PackOutcomeProps.

(** ** A run that panics *)

Module CrashProps.
Import EmojiTest EmojiTestSpec Trace EmojiTestRunProps EmojiTestScanProps.
Import Console LoopProps.

Section Crash.

Variable json_Marshal : AlfredSnippet -> result gostring.

Lemma scan_app d (l1 l2 : list gostring) currentSubgroup filesToZip w :
  scan d json_Marshal (l1 ++ l2) currentSubgroup filesToZip w
  = match scan d json_Marshal l1 currentSubgroup filesToZip w with
    | (Return (currentSubgroup', filesToZip'), w') =>
      scan d json_Marshal l2 currentSubgroup' filesToZip' w'
    | (Panic, w') => (Panic, w')
    end.
Proof.
  revert currentSubgroup filesToZip w.
  induction l1 as [|line l1 IH]; intros ctx filesToZip w; [done|].
  change ((line :: l1) ++ l2) with (line :: (l1 ++ l2)).
  rewrite !scan_cons.
  destruct ((readLine line ctx).1) as [emojiData|]; [|done].
  destruct (emitAll d json_Marshal emojiData filesToZip w) as [[f1|] w1];
    [|done].
  apply IH.
Qed.

Lemma scan_panics d bad after subgroup filesToZip w :
  (parseEmojiLine bad subgroup).1 = Panic ->
  scan d json_Marshal (bad :: after) (Some subgroup) filesToZip w
  = (Panic, w).
Proof.
  intros H. rewrite scan_cons.
  destruct (strings.HasPrefix bad header) eqn:Hhead.
  - rewrite EmojiTestProps.parseEmojiLine_header in H by done. done.
  - rewrite readLine_data by done. cbn [fst]. by rewrite H.
Qed.

End Crash.

(** X22.  A line on which the parser panics ends the run where it
    stands, in both modes: the records of the lines before it have been
    printed, or written with their error lines, and nothing after the
    line is read; in package mode no info.plist and no archive is made
    and [build] is left as it is. *)
Theorem malformed_line_aborts_the_run
        (unicodeVersion : gostring)
        (fetchEmojiData : gostring -> result (list gostring))
        (json_Marshal : AlfredSnippet -> result gostring)
        (before after : list gostring) (bad subgroup : gostring)
        (emojis : list EmojiData) (w : World) :
  fetchEmojiData (url unicodeVersion) = Ok (before ++ bad :: after) ->
  records before None = Return emojis ->
  context before None = Some subgroup ->
  (parseEmojiLine bad subgroup).1 = Panic ->
  main true unicodeVersion fetchEmojiData json_Marshal w
  = (Panic, printed (preview <$> emojis) (logged mkdirs w))
  /\ main false unicodeVersion fetchEmojiData json_Marshal w
     = (Panic,
        wrote (snippetWrites json_Marshal (uuidSource w) (drawn w) emojis)
              (snippetErrors json_Marshal (denied w) (uuidSource w)
                 (drawn w) emojis)
              (length emojis) (logged mkdirs w)).
Proof.
  intros Hf Hr Hctx Hbad. unfold url in Hf. split.
  - unfold main. rewrite main_start, Hf, io_bind, scan_app.
    rewrite (scan_records json_Marshal _ _ _ _ _ _ Hr).
    rewrite emitAll_preview, Hctx.
    by rewrite scan_panics.
  - unfold main. rewrite main_start, Hf, io_bind, scan_app.
    rewrite (scan_run json_Marshal _ _ _ _ _ Hr), Hctx.
    by rewrite scan_panics.
Qed.

Lemma malformed_line_aborts_the_run_witness :
  let lines := ["# subgroup: face-smiling";
                "1F600 ; fully-qualified # X E1.0 grinning face";
                "a#b;c";
                "1F603 ; fully-qualified # Y E0.6 grinning face with big eyes"] in
  let w' := (main false "15.1" (fun _ => Ok lines) jsonText worldWithIcons).2 in
  (main false "15.1" (fun _ => Ok lines) jsonText worldWithIcons).1 = Panic
  /\ is_Some (files w' !! "build/grinning-face [0000-A].json")
  /\ files w' !! "dist/alfredmoji-15.1.alfredsnippets" = None
  /\ stdout w' = [].
Proof.
  intros lines w'.
  destruct (malformed_line_aborts_the_run
              "15.1" (fun _ => Ok lines) jsonText
              ["# subgroup: face-smiling";
               "1F600 ; fully-qualified # X E1.0 grinning face"]
              ["1F603 ; fully-qualified # Y E0.6 grinning face with big eyes"]
              "a#b;c" "face-smiling"
              [mkEmojiData "X" "grinning-face" "face-smiling"]
              worldWithIcons) as [_ H].
  - reflexivity.
  - vm_compute; reflexivity.
  - vm_compute; reflexivity.
  - vm_compute; reflexivity.
  - unfold w'. rewrite H. repeat apply conj; try reflexivity.
    eexists. vm_compute; reflexivity.
Defined.

End CrashProps.

(** ** The line scanner *)

Module ScannerProps.
Import bufio.

Lemma byteLen_app a b : byteLen (a ++ b) = byteLen a + byteLen b.
Proof.
  unfold byteLen. rewrite flat_map_app, length_app. lia.
Qed.

Lemma byteLen_rev s : byteLen (rev s) = byteLen s.
Proof.
  induction s as [|c s IH]; [done|].
  simpl rev. rewrite byteLen_app, IH.
  change (c :: s) with ([c] ++ s). rewrite byteLen_app. lia.
Qed.

Lemma dropCR_keeps line : last line <> Some 13 -> dropCR line = line.
Proof.
  intros H. unfold dropCR.
  destruct (rev line) as [|c r] eqn:E; [done|].
  destruct (c =? 13) eqn:Ec; [|done].
  apply Z.eqb_eq in Ec as ->. exfalso. apply H.
  apply (f_equal (@rev _)) in E. rewrite rev_involutive in E.
  rewrite E. simpl. by rewrite last_snoc.
Qed.

Lemma dropCR_shorter line : byteLen (dropCR line) <= byteLen line.
Proof.
  unfold dropCR.
  destruct (rev line) as [|c r] eqn:E; [lia|].
  destruct (c =? 13); [|lia].
  apply (f_equal (@rev _)) in E. rewrite rev_involutive in E.
  rewrite E. simpl rev. rewrite byteLen_app. unfold byteLen at 3. lia.
Qed.

Lemma dropCR_subset line c : c ∈ dropCR line -> c ∈ line.
Proof.
  unfold dropCR.
  destruct (rev line) as [|d r] eqn:E; [done|].
  destruct (d =? 13); [|done].
  apply (f_equal (@rev _)) in E. rewrite rev_involutive in E.
  rewrite E. simpl rev. intros H. apply elem_of_app. by left.
Qed.

(** The scan of a line up to its line feed ... *)
Lemma scanFrom_line cur a rest readErr :
  10 ∉ a ->
  scanFrom cur (a ++ 10 :: rest) readErr
  = if MaxScanTokenSize <=? byteLen (rev a ++ cur)
    then ([], Some ErrTooLong)
    else (dropCR (rev (rev a ++ cur)) :: (scanFrom [] rest readErr).1,
          (scanFrom [] rest readErr).2).
Proof.
  revert cur; induction a as [|c a IH]; intros cur Ha.
  - simpl. destruct (MaxScanTokenSize <=? byteLen cur); [done|].
    by destruct (scanFrom [] rest readErr).
  - apply not_elem_of_cons in Ha as [Hc Ha].
    change ((c :: a) ++ 10 :: rest) with (c :: (a ++ 10 :: rest)).
    cbn [scanFrom]. replace (c =? 10) with false by lia.
    rewrite IH by done. simpl rev. by rewrite <- !app_assoc.
Qed.

(** ... and of a last line without one. *)
Lemma scanFrom_last cur a readErr :
  10 ∉ a -> rev a ++ cur <> [] ->
  scanFrom cur a readErr
  = if MaxScanTokenSize <=? byteLen (rev a ++ cur)
    then ([], Some ErrTooLong)
    else ([dropCR (rev (rev a ++ cur))], readErr).
Proof.
  revert cur; induction a as [|c a IH]; intros cur Ha Hne.
  - simpl in *. by destruct cur.
  - apply not_elem_of_cons in Ha as [Hc Ha].
    cbn [scanFrom]. replace (c =? 10) with false by lia.
    rewrite IH; [|done|].
    + simpl rev. by rewrite <- !app_assoc.
    + simpl rev in Hne. by rewrite <- app_assoc in Hne.
Qed.

Lemma scanLines_join lines :
  Forall Cache.regular lines -> last lines <> Some [] ->
  scanLines (strings_Join lines newline) None = (lines, None).
Proof.
  unfold scanLines, strings_Join.
  induction 1 as [|line lines (Hlf & Hcr & Hlen) Hall IH]; intros Hlast.
  - done.
  - destruct lines as [|next lines].
    + cbn [filepath.joinWith].
      assert (line <> []) as Hne by (intros ->; by apply Hlast).
      rewrite scanFrom_last; [|done|].
      * rewrite app_nil_r, byteLen_rev, rev_involutive.
        replace (MaxScanTokenSize <=? byteLen line) with false by lia.
        by rewrite dropCR_keeps.
      * rewrite app_nil_r. intros E.
        apply (f_equal (@rev _)) in E. by rewrite rev_involutive in E.
    + change (filepath.joinWith newline (line :: next :: lines))
        with (line ++ 10 :: filepath.joinWith newline (next :: lines)).
      rewrite scanFrom_line by done.
      rewrite app_nil_r, byteLen_rev, rev_involutive.
      replace (MaxScanTokenSize <=? byteLen line) with false by lia.
      rewrite dropCR_keeps by done.
      rewrite IH; [done|]. by rewrite last_cons_cons in Hlast.
Qed.

(** Every line of a scan is free of line feeds and fits the buffer. *)
Lemma scanFrom_lines data : forall cur readErr,
  10 ∉ cur ->
  Forall (fun line => (10 ∉ line) /\ byteLen line < MaxScanTokenSize)
         (scanFrom cur data readErr).1.
Proof.
  induction data as [|c data IH]; intros cur readErr Hcur.
  - simpl. destruct cur as [|c0 cur]; [constructor|].
    destruct (MaxScanTokenSize <=? byteLen (c0 :: cur)) eqn:E;
      [constructor|].
    repeat constructor.
    + intros Hin%dropCR_subset. apply Hcur.
      by apply list_elem_of_In, in_rev, list_elem_of_In in Hin.
    + pose proof (dropCR_shorter (rev (c0 :: cur))) as Hle.
      rewrite byteLen_rev in Hle. lia.
  - cbn [scanFrom]. destruct (c =? 10) eqn:Ec.
    + destruct (MaxScanTokenSize <=? byteLen cur) eqn:E; [constructor|].
      specialize (IH [] readErr (not_elem_of_nil _)).
      destruct (scanFrom [] data readErr) as [lines err]. simpl in *.
      constructor; [|done]. split.
      * intros Hin%dropCR_subset. apply Hcur.
        by apply list_elem_of_In, in_rev, list_elem_of_In in Hin.
      * pose proof (dropCR_shorter (rev cur)) as Hle.
        rewrite byteLen_rev in Hle. lia.
    + apply IH. apply not_elem_of_cons. split; [lia | done].
Qed.

End ScannerProps.

(** ** The fetcher of the emoji-test.txt program and its cache *)

Module FetchProps.
Import Trace EmojiTestRunProps PathProps ScannerProps Cache.

Lemma url_split unicodeVersion :
  filepath.Split (EmojiTestSpec.url unicodeVersion)
  = ("https://unicode.org/Public/emoji/" ++ unicodeVersion ++ "/",
     fileName).
Proof.
  unfold EmojiTestSpec.url.
  rewrite (assoc_L (++) _ unicodeVersion).
  change ("/emoji-test.txt") with (filepath.slash :: fileName).
  rewrite filepath_Split_dir.
  - by rewrite <- (assoc_L (++)).
  - apply (bool_decide_unpack _). vm_compute; reflexivity.
Qed.

Section Fetch.

Variable http_Get : gostring -> result (gostring * error).

Lemma fetch_cached unicodeVersion data w :
  bytesAt w fileName = Some data ->
  EmojiTestFetch.fetchEmojiData http_Get (EmojiTestSpec.url unicodeVersion) w
  = (Return ((bufio.scanLines data None).1, None), printed [usingLine] w).
Proof.
  intros H. unfold EmojiTestFetch.fetchEmojiData. rewrite url_split.
  rewrite io_bind. unfold os_Stat at 1.
  rewrite bool_decide_eq_true_2
    by (unfold bytesAt in H; by destruct (files w !! fileName)).
  rewrite io_bind.
  assert (forall text ws, fmt.Printf text ws = (Return tt, printed [text] ws))
    as -> by done.
  rewrite io_bind. unfold os.ReadAll at 1.
  assert (forall texts, bytesAt (printed texts w) fileName
                        = bytesAt w fileName) as -> by done.
  rewrite H. reflexivity.
Qed.

Lemma fetch_download unicodeVersion body readErr w :
  files w !! fileName = None ->
  http_Get (EmojiTestSpec.url unicodeVersion) = Ok (body, readErr) ->
  let lines := (bufio.scanLines body readErr).1 in
  EmojiTestFetch.fetchEmojiData http_Get (EmojiTestSpec.url unicodeVersion) w
  = (Return (lines, None),
     wrote [CallWriteFile fileName (strings_Join lines newline)]
           [downloadingLine (EmojiTestSpec.url unicodeVersion)] 0 w).
Proof.
  intros H Hget lines. unfold EmojiTestFetch.fetchEmojiData.
  rewrite url_split.
  rewrite io_bind. unfold os_Stat at 1. rewrite H.
  rewrite bool_decide_eq_false_2 by (by intros [? ?]).
  rewrite io_bind.
  assert (forall text ws, fmt.Printf text ws = (Return tt, printed [text] ws))
    as -> by done.
  rewrite Hget. rewrite io_bind, WriteFile_run.
  fold lines. unfold wrote, printed, downloadingLine. simpl.
  by rewrite !app_nil_r.
Qed.


End Fetch.

(** X23.  The cache file is [emoji-test.txt] whatever the version: when
    that file is there the fetcher prints that it uses it, makes no
    request and returns its lines, so the version flag only names the
    archive.  The whole program is then [EmojiTest.main] on those lines
    after that one console line.  [data] is what a reader finds in the
    file. *)
Theorem cached_file_is_used_whatever_the_version
        (displayEmojis : bool) (unicodeVersion data : gostring)
        (http_Get : gostring -> result (gostring * error))
        (json_Marshal : AlfredSnippet -> result gostring) (w : World) :
  bytesAt w fileName = Some data ->
  let lines := (bufio.scanLines data None).1 in
  EmojiTestFetch.fetchEmojiData http_Get (EmojiTestSpec.url unicodeVersion) w
  = (Return (lines, None), printed [usingLine] w)
  /\ EmojiTestFetch.main displayEmojis unicodeVersion http_Get json_Marshal w
     = EmojiTest.main displayEmojis unicodeVersion (fun _ => Ok lines)
                      json_Marshal (printed [usingLine] w).
Proof.
  intros H lines. split; [by apply fetch_cached|].
  unfold EmojiTestFetch.main, EmojiTest.main.
  rewrite !main_start, io_bind.
  fold (EmojiTestSpec.url unicodeVersion).
  rewrite (fetch_cached http_Get unicodeVersion data) by exact H.
  reflexivity.
Qed.

Lemma cached_file_is_used_whatever_the_version_witness :
  let w := mkWorld (<["emoji-test.txt"
                        := Regular ("# subgroup: a" ++ newline ++ "x")]> ∅)
                   [] [] 0 uuidDemo (fun _ => None) zipDemo in
  EmojiTestFetch.fetchEmojiData (fun _ => Err "offline")
    (EmojiTestSpec.url "14.0") w
  = (Return (["# subgroup: a"; "x"], None),
     printed ["Using existing file: emoji-test.txt" ++ newline] w).
Proof.
  intros w.
  destruct (cached_file_is_used_whatever_the_version
              true "14.0" ("# subgroup: a" ++ newline ++ "x")
              (fun _ => Err "offline") jsonText w) as [H _].
  - reflexivity.
  - exact H.
Defined.

(** X24.  After a download the fetcher returns the lines read and no
    error, whatever error ended the body or stopped the scanner, and
    whether or not the cache could be written: it writes the lines,
    joined by line feeds, to [emoji-test.txt] and ignores the outcome.
    The lines hold no line feed and fit the buffer of the scanner. *)
Theorem download_is_cached_and_its_errors_are_dropped
        (unicodeVersion body : gostring) (readErr : error)
        (http_Get : gostring -> result (gostring * error)) (w : World) :
  files w !! fileName = None ->
  http_Get (EmojiTestSpec.url unicodeVersion) = Ok (body, readErr) ->
  let lines := (bufio.scanLines body readErr).1 in
  let w' := (EmojiTestFetch.fetchEmojiData http_Get
               (EmojiTestSpec.url unicodeVersion) w).2 in
  (EmojiTestFetch.fetchEmojiData http_Get
     (EmojiTestSpec.url unicodeVersion) w).1 = Return (lines, None)
  /\ calls w' = calls w ++ [CallWriteFile fileName (strings_Join lines newline)]
  /\ stdout w' = stdout w ++ [downloadingLine (EmojiTestSpec.url unicodeVersion)]
  /\ files w' = match denied w fileName with
                | None => <[fileName := Regular (strings_Join lines newline)]>
                            (files w)
                | Some _ => files w
                end
  /\ Forall (fun line => (10 ∉ line)
                         /\ bufio.byteLen line < bufio.MaxScanTokenSize) lines.
Proof.
  intros H Hget lines w'. unfold w'.
  rewrite (fetch_download http_Get _ _ _ _ H Hget).
  repeat apply conj; try reflexivity.
  apply scanFrom_lines, not_elem_of_nil.
Qed.

Lemma download_is_cached_and_its_errors_are_dropped_witness :
  let http := fun _ : gostring =>
                Ok ("a" ++ [13; 10] ++ "b", Some "unexpected EOF") in
  let w' := (EmojiTestFetch.fetchEmojiData http
               (EmojiTestSpec.url "15.1") bareWorld).2 in
  (EmojiTestFetch.fetchEmojiData http
     (EmojiTestSpec.url "15.1") bareWorld).1 = Return (["a"; "b"], None)
  /\ files w' !! "emoji-test.txt" = Some (Regular ("a" ++ newline ++ "b")).
Proof.
  intros http w'.
  destruct (download_is_cached_and_its_errors_are_dropped
              "15.1" ("a" ++ [13; 10] ++ "b") (Some "unexpected EOF")
              http bareWorld) as (H1 & _ & _ & H2 & _).
  - reflexivity.
  - reflexivity.
  - split; [exact H1|]. unfold w'. rewrite H2. reflexivity.
Defined.

(** X25.  When the cache was written, no downloaded line ends with a
    carriage return and the last line is not empty, a second run, for
    any version and without the network, reads back exactly the lines of
    the first: scanning the joined lines gives the lines. *)
Theorem second_run_reads_what_the_first_downloaded
        (unicodeVersion laterVersion body : gostring) (readErr : error)
        (http_Get later_Get : gostring -> result (gostring * error))
        (w : World) :
  files w !! fileName = None ->
  denied w fileName = None ->
  http_Get (EmojiTestSpec.url unicodeVersion) = Ok (body, readErr) ->
  let lines := (bufio.scanLines body readErr).1 in
  Forall (fun line => last line <> Some 13) lines ->
  last lines <> Some [] ->
  let w' := (EmojiTestFetch.fetchEmojiData http_Get
               (EmojiTestSpec.url unicodeVersion) w).2 in
  bufio.scanLines (strings_Join lines newline) None = (lines, None)
  /\ (EmojiTestFetch.fetchEmojiData later_Get
        (EmojiTestSpec.url laterVersion) w').1 = Return (lines, None).
Proof.
  intros H Hd Hget lines Hcr Hlast w'.
  assert (bufio.scanLines (strings_Join lines newline) None = (lines, None))
    as Hjoin.
  { apply scanLines_join; [|done].
    pose proof (scanFrom_lines body [] readErr (not_elem_of_nil _)) as Hs.
    fold (bufio.scanLines body readErr) in Hs. fold lines in Hs.
    rewrite Forall_forall in Hs, Hcr. apply Forall_forall.
    intros line Hin. destruct (Hs _ Hin) as [Hlf Hlen].
    repeat split; auto. }
  split; [done|].
  unfold w'. rewrite (fetch_download http_Get _ _ _ _ H Hget).
  rewrite (fetch_cached later_Get laterVersion
             (strings_Join lines newline)).
  - cbn [fst]. by rewrite Hjoin.
  - apply bytesAt_regular. unfold wrote. cbn [files replay]. rewrite Hd.
    apply lookup_insert_eq.
Qed.

Lemma second_run_reads_what_the_first_downloaded_witness :
  let http := fun _ : gostring => Ok ("a" ++ [13; 10; 10] ++ "b" ++ newline, None) in
  let w' := (EmojiTestFetch.fetchEmojiData http
               (EmojiTestSpec.url "15.1") bareWorld).2 in
  (EmojiTestFetch.fetchEmojiData (fun _ => Err "offline")
     (EmojiTestSpec.url "14.0") w').1 = Return (["a"; []; "b"], None).
Proof.
  intros http w'.
  destruct (second_run_reads_what_the_first_downloaded
              "15.1" "14.0" ("a" ++ [13; 10; 10] ++ "b" ++ newline) None
              http (fun _ => Err "offline") bareWorld) as [_ H].
  - reflexivity.
  - reflexivity.
  - reflexivity.
  - repeat constructor; vm_compute; discriminate.
  - vm_compute; discriminate.
  - exact H.
Defined.

End FetchProps.

(** ** A fetch that fails *)

Module FetchErrorProps.
Import Trace EmojiTestRunProps SequencesRunProps FetchProps Cache.




End FetchErrorProps.

(** ** What the clean-up of the description keeps, and two more edges *)

Module KeepsProps.
Import EmojiTest EmojiTestProps.

Lemma TrimLeftSpace_keeps c s :
  c ∈ s -> IsSpace c = false -> c ∈ strings.TrimLeftSpace s.
Proof.
  induction s as [|a s IH]; intros Hin Hc; [done|].
  simpl. destruct (IsSpace a) eqn:E; [|done].
  apply elem_of_cons in Hin as [->|Hin]; [congruence|]. by apply IH.
Qed.

Lemma TrimSpace_keeps c s :
  c ∈ s -> IsSpace c = false -> c ∈ strings.TrimSpace s.
Proof.
  intros Hin Hc. unfold strings.TrimSpace.
  apply list_elem_of_In, in_rev. rewrite rev_involutive.
  apply list_elem_of_In, TrimLeftSpace_keeps; [|done].
  apply list_elem_of_In, in_rev. rewrite rev_involutive.
  apply list_elem_of_In, TrimLeftSpace_keeps; done.
Qed.

Lemma junkFree_keeps text c :
  c ∈ text -> IsSpace c = false ->
  c ∉ ",:" ++ "‚Äô" ++ "‚Äò" ++ "‚Äú" ++ "‚Äù" ->
  c ∈ junkFree text.
Proof.
  intros Hin Hsp Hout.
  assert (c <> 32) as H32 by (intros ->; discriminate Hsp).
  unfold junkFree.
  repeat (apply ReplaceAll_keeps;
          [|intros Hc; apply Hout;
            revert Hc; rewrite ?elem_of_app, ?elem_of_cons;
            clear; intuition auto]).
  apply TrimSpace_keeps; [|done].
  rewrite hyphenate_spaces. apply list_elem_of_fmap.
  exists c. split; [|done].
  destruct (c =? 32) eqn:E; [lia | done].
Qed.

(** X27.  The clean-up of the description removes nothing but what its
    literals name: a rune that is no white space and occurs in none of
    them stays.  The four literals after the colon hold, in the file as
    it stands, the runes U+201A, U+00C4 and one more Latin letter each, so
    the curly quotes U+2018, U+2019, U+201C and U+201D stay in the
    description. *)
Theorem curly_quotes_stay_in_the_description (text : gostring) (c : rune) :
  (c ∈ text -> IsSpace c = false ->
   c ∉ ",:" ++ "‚Äô" ++ "‚Äò" ++ "‚Äú" ++ "‚Äù" ->
   c ∈ junkFree text)
  /\ (c ∈ "‘’“”" -> c ∈ text -> c ∈ junkFree text).
Proof.
  split; [apply junkFree_keeps|].
  intros Hq Hin. apply junkFree_keeps; [done| |].
  - revert Hq. rewrite !elem_of_cons, elem_of_nil.
    intros [->|[->|[->|[->|[]]]]]; reflexivity.
  - revert Hq. rewrite !elem_of_cons, elem_of_nil.
    intros [->|[->|[->|[->|[]]]]];
      apply (bool_decide_unpack _); vm_compute; reflexivity.
Qed.

Lemma curly_quotes_stay_in_the_description_witness :
  junkFree "man’s shoe" = "man’s-shoe" /\ 8217 ∈ junkFree "man’s shoe".
Proof.
  split; [vm_compute; reflexivity|].
  destruct (curly_quotes_stay_in_the_description "man’s shoe" 8217)
    as [_ H].
  apply H; apply (bool_decide_unpack _); vm_compute; reflexivity.
Defined.

End KeepsProps.

Module EscapeProps.
Import PathProps.

(** X28.  The description goes into the file name as it is: one that
    starts with [../] takes the snippet out of [build], into the working
    directory, where the clean-up of a successful run does not reach
    it. *)
Theorem description_with_dots_leaves_build
        (emoji subgroup description uid : gostring) :
  filepath.slash ∉ description -> filepath.slash ∉ uid ->
  EmojiTest.snippetPath
    (EmojiTest.mkEmojiData emoji ("../" ++ description) subgroup) uid
  = fileNameOf description uid
  /\ strings.HasPrefix (fileNameOf description uid) "build/" = false.
Proof.
  intros Hd Hu.
  destruct (fileNameOf_plain _ _ Hd Hu) as (H0 & H1 & H2 & H3).
  split.
  - unfold EmojiTest.snippetPath, filepath.Join. cbn [EmojiTest.Description].
    rewrite filter_cons_True by done.
    rewrite filter_cons_True by done. rewrite filter_nil.
    cbn [filepath.joinWith]. unfold filepath.Clean.
    change (("../" ++ description) ++ " [" ++ uid ++ "].json")
      with ("../" ++ fileNameOf description uid).
    change (strings.HasPrefix
              ("build" ++ [filepath.slash] ++ "../"
               ++ fileNameOf description uid) [filepath.slash]) with false.
    cbv iota.
    change ("build" ++ [filepath.slash] ++ "../"
            ++ fileNameOf description uid)
      with ("build" ++ filepath.slash
            :: (".." ++ filepath.slash :: fileNameOf description uid)).
    rewrite Split_app
      by (apply (bool_decide_unpack _); vm_compute; reflexivity).
    rewrite Split_app
      by (apply (bool_decide_unpack _); vm_compute; reflexivity).
    rewrite Split_notin by done.
    cbn [filepath.cleanLoop].
    rewrite (bool_decide_eq_false_2 (fileNameOf description uid = [])) by done.
    rewrite (bool_decide_eq_false_2 (fileNameOf description uid = ".")) by done.
    rewrite (bool_decide_eq_false_2 (fileNameOf description uid = "..")) by done.
    rewrite (bool_decide_eq_false_2 ("build" = [])) by done.
    rewrite (bool_decide_eq_false_2 ("build" = ".")) by done.
    rewrite (bool_decide_eq_false_2 ("build" = "..")) by done.
    rewrite (bool_decide_eq_false_2 (".." = [])) by done.
    rewrite (bool_decide_eq_false_2 (".." = ".")) by done.
    rewrite (bool_decide_eq_true_2 (".." = "..")) by done.
    cbn [orb rev app filepath.joinWith].
    by destruct (fileNameOf description uid).
  - apply not_true_is_false. intros H.
    apply HasPrefix_inv in H as [v Hv]. apply H3. rewrite Hv.
    apply (bool_decide_unpack _). vm_compute; reflexivity.
Qed.

Lemma description_with_dots_leaves_build_witness :
  EmojiTest.snippetPath
    (EmojiTest.mkEmojiData "X" "../x" "s") "0000-A"
  = "x [0000-A].json".
Proof.
  apply (description_with_dots_leaves_build "X" "s" "x" "0000-A");
    apply (bool_decide_unpack _); vm_compute; reflexivity.
Defined.

End EscapeProps.

Module PreviewFetchProps.
Import EmojiTest EmojiTestSpec Trace EmojiTestRunProps FetchProps Cache.

(** X29.  Preview mode writes a file when it has to download: besides
    the two directories and the console lines of the records, the run
    leaves the cache [emoji-test.txt] with the lines it read. *)
Theorem preview_after_download_still_writes_the_cache
        (unicodeVersion body : gostring) (readErr : error)
        (http_Get : gostring -> result (gostring * error))
        (json_Marshal : AlfredSnippet -> result gostring)
        (emojis : list EmojiData) (w : World) :
  files w !! fileName = None ->
  http_Get (url unicodeVersion) = Ok (body, readErr) ->
  let lines := (bufio.scanLines body readErr).1 in
  records lines None = Return emojis ->
  EmojiTestFetch.main true unicodeVersion http_Get json_Marshal w
  = (Return tt,
     printed (preview <$> emojis)
       (wrote [CallWriteFile fileName (strings_Join lines newline)]
              [downloadingLine (url unicodeVersion)] 0
              (logged mkdirs w))).
Proof.
  intros Hfile Hget lines Hr. unfold EmojiTestFetch.main.
  rewrite main_start, io_bind.
  fold (url unicodeVersion).
  rewrite (fetch_download http_Get unicodeVersion body readErr) by done.
  fold lines. cbv iota beta.
  rewrite io_bind, (scan_records json_Marshal _ _ _ _ _ _ Hr).
  by rewrite emitAll_preview.
Qed.

Lemma preview_after_download_still_writes_the_cache_witness :
  let body := "# subgroup: face-smiling" ++ newline
              ++ "1F600 ; fully-qualified # 😀 E1.0 grinning face"
              ++ newline in
  let w' := (EmojiTestFetch.main true "15.1" (fun _ => Ok (body, None))
               jsonText bareWorld).2 in
  stdout w' = ["Downloading file: https://unicode.org/Public/emoji/15.1/emoji-test.txt" ++ newline;
               "😀: grinning-face" ++ newline]
  /\ is_Some (files w' !! "emoji-test.txt").
Proof.
  intros body w'.
  pose proof (preview_after_download_still_writes_the_cache
                "15.1" body None (fun _ => Ok (body, None)) jsonText
                [mkEmojiData "😀" "grinning-face" "face-smiling"]
                bareWorld eq_refl eq_refl) as H.
  cbn zeta in H. unfold w'. rewrite H; [|vm_compute; reflexivity].
  split; [vm_compute; reflexivity|].
  eexists. vm_compute; reflexivity.
Defined.

End PreviewFetchProps.

(** ** The archive and the files that go into it *)

Module InputProps.
Import Trace.

(** X30.  Whatever the version, the descriptions and the UUIDs, the
    archive is none of the files that go into it: its path ends in [s]
    (of [.alfredsnippets]) after cleaning, that of a snippet in [n], and
    info.plist and the icon have their fixed names.  So [zipFiles] never
    reads the file it is writing, and creating the archive truncates no
    file the run has written. *)
Theorem archive_is_none_of_its_inputs
        (unicodeVersion : gostring)
        (json_Marshal : AlfredSnippet -> result gostring)
        (source : nat -> gostring) (n : nat)
        (emojis : list EmojiTest.EmojiData)
        (sequences : list Sequences.EmojiData) :
  last (EmojiTest.zipFileName unicodeVersion) = Some 115
  /\ (EmojiTest.zipFileName unicodeVersion
      ∉ writePaths (EmojiTestSpec.snippetWrites json_Marshal source n emojis
                    ++ [EmojiTestSpec.plistCall])
        ++ [EmojiTestSpec.iconFileName])
  /\ Forall (fun path => last path = Some 110)
            (writePaths
               (EmojiTestSpec.snippetWrites json_Marshal source n emojis))
  /\ (SequencesPack.zipFileName
      ∉ writePaths (SequencesSpec.snippetWrites json_Marshal source n
                      sequences
                    ++ [SequencesSpec.plistCall])
        ++ [SequencesSpec.iconFileName])
  /\ Forall (fun path => last path = Some 110)
            (writePaths
               (SequencesSpec.snippetWrites json_Marshal source n sequences)).
Proof.
  repeat split.
  - apply EmojiTestRunProps.zipFileName_last.
  - apply EmojiTestRunProps.archive_is_no_input.
  - apply Forall_forall. intros path.
    apply EmojiTestRunProps.snippetWrites_last.
  - apply SequencesRunProps.pack_archive_is_no_input.
  - apply Forall_forall. intros path.
    apply SequencesRunProps.pack_snippetWrites_last.
Qed.

End InputProps.
